(** * competitive-scrape: snapshot / change-detection pipeline

    A shallow embedding of the capture pipeline of the repository
    ([src/lib/scraping.ts], [src/app/api/monitored-pages/[pageId]/scrape/route.ts])
    and of the report route ([src/app/api/projects/[projectId]/reports/route.ts]),
    followed by the properties of the specification that are settled on it.
    The history route and the page route of a monitored page
    ([src/app/api/monitored-pages/[pageId]/changes/route.ts],
    [src/app/api/monitored-pages/[pageId]/route.ts]), the list of reports
    and the text sent to the synthesis service are embedded as well; the
    last part holds properties of the code that the specification does
    not state.

    Conventions of the embedding
    - a JavaScript string is the list of its UTF-16 code units ([jsstring]),
      so [length] is [String.prototype.length];
    - a JavaScript Number is an IEEE-754 binary64 value, Stdlib's [spec_float];
    - regular expressions are values of [regex], run by a backtracking matcher
      that lists the successful end states in priority order;
    - the database is an explicit state ([Db]) threaded through the handlers;
      the network, the clock and the text-generation service are inputs. *)

From Stdlib Require Import List NArith ZArith Lia Bool Ascii String Permutation.
From Stdlib Require Import Floats.SpecFloat DecimalString.
From Stdlib Require DecimalNat.
Import ListNotations.


(* ================================================================== *)
(** * Part I. JavaScript strings                                        *)
(* ================================================================== *)

Module Js.

(** A UTF-16 code unit. *)
Definition char := N.
Definition jsstring := list char.

Definition char_eqb (a b : char) : bool := N.eqb a b.

Fixpoint str_eqb (a b : jsstring) : bool :=
  match a, b with
  | [], [] => true
  | x :: a', y :: b' => char_eqb x y && str_eqb a' b'
  | _, _ => false
  end.

(** ** String literals

    [js "..."] reads a literal of this file (stored by Rocq as UTF-8 bytes)
    as the JavaScript string with the same text: the bytes are decoded to
    code points and code points above U+FFFF become surrogate pairs. *)
Fixpoint utf16_of_utf8 (bs : list N) : jsstring :=
  match bs with
  | [] => []
  | b0 :: t =>
      if (b0 <? 128)%N then b0 :: utf16_of_utf8 t
      else if (b0 <? 224)%N then
        match t with
        | b1 :: t1 => ((b0 mod 32) * 64 + b1 mod 64)%N :: utf16_of_utf8 t1
        | _ => []
        end
      else if (b0 <? 240)%N then
        match t with
        | b1 :: b2 :: t2 =>
            ((b0 mod 16) * 4096 + (b1 mod 64) * 64 + b2 mod 64)%N
              :: utf16_of_utf8 t2
        | _ => []
        end
      else
        match t with
        | b1 :: b2 :: b3 :: t3 =>
            let cp := ((b0 mod 8) * 262144 + (b1 mod 64) * 4096
                       + (b2 mod 64) * 64 + b3 mod 64)%N in
            let v := (cp - 65536)%N in
            (55296 + v / 1024)%N :: (56320 + v mod 1024)%N :: utf16_of_utf8 t3
        | _ => []
        end
  end.

Definition js (s : string) : jsstring :=
  utf16_of_utf8 (map N_of_ascii (list_ascii_of_string s)).

(** ** Character classes of ECMAScript *)

(** [\d] *)
Definition is_digit (c : char) : bool := ((48 <=? c) && (c <=? 57))%N.

(** WhiteSpace and LineTerminator code units: what [\s] matches and what
    [String.prototype.trim] removes. *)
Definition is_space (c : char) : bool :=
  ((9 <=? c) && (c <=? 13) || (c =? 32) || (c =? 160) || (c =? 5760)
   || (8192 <=? c) && (c <=? 8202) || (c =? 8232) || (c =? 8233)
   || (c =? 8239) || (c =? 8287) || (c =? 12288) || (c =? 65279))%N.

(** [\w] (used by the word boundary [\b]). *)
Definition is_word (c : char) : bool :=
  ((97 <=? c) && (c <=? 122) || (65 <=? c) && (c <=? 90)
   || (48 <=? c) && (c <=? 57) || (c =? 95))%N.

(** Upper-casing of one code unit, for the Basic Latin letters; a code unit
    outside [a-z] is left as it is.  This is [toUpperCase] and the regular
    expression [Canonicalize] on every text the programs apply them to:
    the pattern characters of the repository are ASCII or U+20AC, and the
    only string that is upper-cased is a match of [€|eur|euro|\$|usd]. *)
Definition upper_char (c : char) : char :=
  if ((97 <=? c) && (c <=? 122))%N then (c - 32)%N else c.

Definition toUpperCase (s : jsstring) : jsstring := map upper_char s.

(** ** String methods *)

(** [s.slice(0, n)] *)
Definition slice0 (n : nat) (s : jsstring) : jsstring := firstn n s.

Fixpoint trimStart (s : jsstring) : jsstring :=
  match s with
  | c :: t => if is_space c then trimStart t else s
  | [] => []
  end.

Definition trimEnd (s : jsstring) : jsstring := rev (trimStart (rev s)).

(** [s.trim()] *)
Definition trim (s : jsstring) : jsstring := trimEnd (trimStart s).

Fixpoint starts_with (p s : jsstring) : bool :=
  match p, s with
  | [], _ => true
  | x :: p', y :: s' => char_eqb x y && starts_with p' s'
  | _ :: _, [] => false
  end.

(** [s.replace(pat, by)] with a string pattern: the first occurrence only. *)
Fixpoint replace_str (pat by_ s : jsstring) : jsstring :=
  if starts_with pat s then by_ ++ skipn (List.length pat) s
  else match s with
       | [] => []
       | c :: t => c :: replace_str pat by_ t
       end.

(** [lines.join(sep)] *)
Fixpoint join (sep : jsstring) (l : list jsstring) : jsstring :=
  match l with
  | [] => []
  | [x] => x
  | x :: t => x ++ sep ++ join sep t
  end.

End Js.
Export Js.

(* ================================================================== *)
(** * Part II. Regular expressions                                      *)
(* ================================================================== *)

Module Regex.

(** A pattern element that consumes exactly one code unit. *)
Inductive atom :=
| AChr (c : char)            (* a pattern character *)
| ACls (p : char -> bool).   (* a class: [...], [^...], \d, \s *)

(** The fragment of ECMAScript patterns the repository uses.  Every
    quantifier of the repository applies to a single-character atom. *)
Inductive regex :=
| Eps
| Atom (a : atom)
| Seq (r1 r2 : regex)
| Alt (r1 r2 : regex)
| Rep (min : nat) (max : option nat) (greedy : bool) (a : atom)
| Group (i : nat) (r : regex)
| WordB.                     (* \b *)

Record RegExp := { source : regex; ignoreCase : bool; global : bool }.

(** The matcher state: the code unit before the current position (for
    [\b]), the text from the current position on, the position, and the
    captures recorded so far, each as the pair of its start and end
    positions (most recent first). *)
Record mstate := MState {
  m_prev : option char;
  m_rest : jsstring;
  m_pos  : nat;
  m_caps : list (nat * (nat * nat))
}.

(** One code unit against one atom.  With the [i] flag both sides of a
    pattern character are canonicalised; the classes of the repository
    (digits, white space, the separators, the ranges of digits and the
    negated classes of one punctuation mark) contain no letter, so
    canonicalisation leaves them as they are. *)
Definition atom_match (ic : bool) (a : atom) (c : char) : bool :=
  match a with
  | AChr x => if ic then char_eqb (upper_char x) (upper_char c)
              else char_eqb x c
  | ACls p => p c
  end.

(** [a{min,max}] and [a{min,max}?]: the states after [n] repetitions, for
    every admissible [n], the longest first when greedy and the shortest
    first when lazy. *)
Fixpoint rep_atom (ok : char -> bool) (min : nat) (max : option nat)
    (greedy : bool) (prev : option char) (rest : jsstring) (pos : nat)
    (caps : list (nat * (nat * nat))) : list mstate :=
  let here := match min with
              | O => [MState prev rest pos caps]
              | S _ => []
              end in
  let more := match max with
              | Some O => []
              | _ => match rest with
                     | c :: t =>
                         if ok c
                         then rep_atom ok (pred min) (option_map pred max)
                                greedy (Some c) t (S pos) caps
                         else []
                     | [] => []
                     end
              end in
  if greedy then more ++ here else here ++ more.

Definition is_word_boundary (s : mstate) : bool :=
  let a := match m_prev s with Some c => is_word c | None => false end in
  let b := match m_rest s with c :: _ => is_word c | [] => false end in
  xorb a b.

(** All the ways [r] matches at state [s], in the order a backtracking
    matcher tries them: its answer is the first element. *)
Fixpoint ms (ic : bool) (r : regex) (s : mstate) : list mstate :=
  match r with
  | Eps => [s]
  | Atom a =>
      match m_rest s with
      | c :: t => if atom_match ic a c
                  then [MState (Some c) t (S (m_pos s)) (m_caps s)]
                  else []
      | [] => []
      end
  | Seq r1 r2 => flat_map (ms ic r2) (ms ic r1 s)
  | Alt r1 r2 => ms ic r1 s ++ ms ic r2 s
  | Rep min max greedy a =>
      rep_atom (atom_match ic a) min max greedy
        (m_prev s) (m_rest s) (m_pos s) (m_caps s)
  | Group i r1 =>
      map (fun s' =>
             MState (m_prev s') (m_rest s') (m_pos s')
               ((i, (m_pos s, m_pos s')) :: m_caps s'))
          (ms ic r1 s)
  | WordB => if is_word_boundary s then [s] else []
  end.

(** The match array of [exec]: [matched] is element 0, [group m i] is
    element [i] ([None] for [undefined]). *)
Record MatchResult := {
  index    : nat;
  endIndex : nat;
  matched  : jsstring;
  captures : list (nat * jsstring)
}.

Fixpoint assoc (i : nat) (l : list (nat * jsstring)) : option jsstring :=
  match l with
  | [] => None
  | (j, v) :: t => if Nat.eqb i j then Some v else assoc i t
  end.

Definition group (m : MatchResult) (i : nat) : option jsstring :=
  match i with
  | O => Some (matched m)
  | _ => assoc i (captures m)
  end.

(** The text between two positions, read from the text [rest] that
    starts at position [pos]. *)
Definition substring (rest : jsstring) (pos from to : nat) : jsstring :=
  firstn (to - from) (skipn (from - pos) rest).

(** The match that starts exactly at the current position, if any. *)
Definition match_at (re : RegExp) (prev : option char) (rest : jsstring)
    (pos : nat) : option MatchResult :=
  match ms (ignoreCase re) (source re) (MState prev rest pos []) with
  | s' :: _ =>
      Some {| index := pos; endIndex := m_pos s';
              matched := substring rest pos pos (m_pos s');
              captures :=
                map (fun c => (fst c,
                               substring rest pos (fst (snd c)) (snd (snd c))))
                    (m_caps s') |}
  | [] => None
  end.

(** The leftmost match at or after the current position. *)
Fixpoint search (re : RegExp) (prev : option char) (rest : jsstring)
    (pos : nat) : option MatchResult :=
  match match_at re prev rest pos with
  | Some m => Some m
  | None => match rest with
            | [] => None
            | c :: t => search re (Some c) t (S pos)
            end
  end.

Definition char_before (s : jsstring) (i : nat) : option char :=
  match i with
  | O => None
  | S j => nth_error s j
  end.

(** [re.exec(s)] with [re.lastIndex = lastIndex].  Without the [g] flag the
    search starts at 0 whatever [lastIndex] is.  The new [lastIndex] of a
    global expression is the [endIndex] of the result (0 on failure). *)
Definition exec (re : RegExp) (s : jsstring) (lastIndex : nat)
  : option MatchResult :=
  let start := if global re then lastIndex else O in
  if Nat.ltb (List.length s) start then None
  else search re (char_before s start) (skipn start s) start.

(** [s.match(re)] for an expression without the [g] flag. *)
Definition match_ (s : jsstring) (re : RegExp) : option MatchResult :=
  exec re s 0.

(** Left-to-right replacement.  [skip] counts the code units of the
    previous match that are still to be dropped; [live] is false once a
    non-global expression has replaced its first match.  After an empty
    match the scan moves on by one code unit, which is kept. *)
Fixpoint replace_from (re : RegExp) (by_ : jsstring) (live : bool)
    (prev : option char) (rest : jsstring) (pos skip : nat) : jsstring :=
  match skip with
  | S k =>
      match rest with
      | [] => []
      | c :: t => replace_from re by_ live (Some c) t (S pos) k
      end
  | O =>
      match (if live then match_at re prev rest pos else None) with
      | Some m =>
          let live' := global re in
          by_ ++ match rest with
                 | [] => []
                 | c :: t =>
                     match endIndex m - pos with
                     | O => c :: replace_from re by_ live' (Some c) t (S pos) 0
                     | S k => replace_from re by_ live' (Some c) t (S pos) k
                     end
                 end
      | None =>
          match rest with
          | [] => []
          | c :: t => c :: replace_from re by_ live (Some c) t (S pos) 0
          end
      end
  end.

(** [s.replace(re, by)], for a replacement text without [$] patterns. *)
Definition replace (s : jsstring) (re : RegExp) (by_ : jsstring) : jsstring :=
  replace_from re by_ true None s 0 0.

(** [s.split(re)] for an expression without capture groups.  [cur] is the
    current piece, reversed.  A match that is empty at the start of a
    piece does not split. *)
Fixpoint split_from (re : RegExp) (prev : option char) (rest : jsstring)
    (pos skip : nat) (cur : jsstring) : list jsstring :=
  match rest with
  | [] => [rev cur]
  | c :: t =>
      match skip with
      | S k => split_from re (Some c) t (S pos) k cur
      | O =>
          match match_at re prev rest pos with
          | None => split_from re (Some c) t (S pos) 0 (c :: cur)
          | Some m =>
              match endIndex m - pos, cur with
              | O, [] => split_from re (Some c) t (S pos) 0 [c]
              | O, _ :: _ => rev cur :: split_from re (Some c) t (S pos) 0 [c]
              | S k, _ => rev cur :: split_from re (Some c) t (S pos) k []
              end
          end
      end
  end.

Definition split (s : jsstring) (re : RegExp) : list jsstring :=
  match s with
  | [] => match match_at re None [] 0 with Some _ => [] | None => [[]] end
  | _ => split_from re None s 0 0 []
  end.

(** ** Pattern notation *)

Definition chr (c : char) : regex := Atom (AChr c).

Fixpoint lit (s : jsstring) : regex :=
  match s with
  | [] => Eps
  | [c] => chr c
  | c :: t => Seq (chr c) (lit t)
  end.

Fixpoint seqs (l : list regex) : regex :=
  match l with
  | [] => Eps
  | [r] => r
  | r :: t => Seq r (seqs t)
  end.

Fixpoint alts (l : list regex) : regex :=
  match l with
  | [] => Eps
  | [r] => r
  | r :: t => Alt r (alts t)
  end.

Definition star (a : atom) : regex := Rep 0 None true a.        (* a*  *)
Definition plus (a : atom) : regex := Rep 1 None true a.        (* a+  *)
Definition opt (a : atom) : regex := Rep 0 (Some 1) true a.     (* a?  *)
Definition lazy_star (a : atom) : regex := Rep 0 None false a.  (* a*? *)
Definition at_least (n : nat) (a : atom) : regex := Rep n None true a.

Definition one_of (s : jsstring) : atom :=
  ACls (fun c => existsb (char_eqb c) s).
Definition none_of (s : jsstring) : atom :=
  ACls (fun c => negb (existsb (char_eqb c) s)).
Definition range (lo hi : char) : atom :=
  ACls (fun c => ((lo <=? c) && (c <=? hi))%N).
Definition digit : atom := ACls is_digit.        (* \d *)
Definition space : atom := ACls is_space.        (* \s *)
Definition any : atom := ACls (fun _ => true).   (* [\s\S] *)

End Regex.
Export Regex.

(* ================================================================== *)
(** * Part III. Numbers                                                 *)
(* ================================================================== *)

Module Num.

(** A JavaScript Number: an IEEE-754 binary64 value. *)
Definition number := spec_float.

Definition prec : Z := 53.
Definition emax : Z := 1024.

Definition NaN : number := S754_nan.

(** The Number nearest to [n * 10^scale] (ties to even): the rounding of
    the mathematical value of a numeric literal. *)
Definition round_decimal (n : N) (scale : Z) : number :=
  match n with
  | N0 => S754_zero false
  | Npos p =>
      match scale with
      | Zneg k =>
          SFdiv prec emax (S754_finite false p 0)
                (S754_finite false (Pos.pow 10 k) 0)
      | _ => binary_normalize prec emax (Zpos p * 10 ^ scale) 0 false
      end
  end.

(** [Number.isFinite(x)] *)
Definition isFinite (x : number) : bool :=
  match x with
  | S754_zero _ | S754_finite _ _ _ => true
  | S754_infinity _ | S754_nan => false
  end.

(** [x <= y], [x > y] *)
Definition le (x y : number) : bool := SFleb x y.
Definition gt (x y : number) : bool := SFltb y x.

Definition of_Z (z : Z) : number := binary_normalize prec emax z 0 false.

(** The integer a Number denotes, when it denotes one. *)
Definition to_Z (x : number) : option Z :=
  match x with
  | S754_zero _ => Some 0%Z
  | S754_finite s m e =>
      let v := match e with
               | Zneg k => if (Zpos m mod 2 ^ Zpos k =? 0)%Z
                           then Some (Zpos m / 2 ^ Zpos k)%Z else None
               | _ => Some (Zpos m * 2 ^ e)%Z
               end in
      option_map (fun z => if s then (- z)%Z else z) v
  | _ => None
  end.

(** ** StringToNumber: [Number(s)] for a string [s] *)

Fixpoint span (p : char -> bool) (s : jsstring) : jsstring * jsstring :=
  match s with
  | c :: t => if p c then let (a, b) := span p t in (c :: a, b) else ([], s)
  | [] => ([], [])
  end.

Definition digit_val (c : char) : N :=
  if is_digit c then (c - 48)%N
  else if ((97 <=? c) && (c <=? 102))%N then (c - 87)%N
  else (c - 55)%N.

Definition digits_val (base : N) (ds : jsstring) : N :=
  fold_left (fun acc c => (acc * base + digit_val c)%N) ds 0%N.

Definition is_hex (c : char) : bool :=
  (is_digit c || (97 <=? c) && (c <=? 102) || (65 <=? c) && (c <=? 70))%N.
Definition is_octal (c : char) : bool := ((48 <=? c) && (c <=? 55))%N.
Definition is_binary (c : char) : bool := ((48 <=? c) && (c <=? 49))%N.

(** NonDecimalIntegerLiteral: [0x..], [0o..], [0b..]. *)
Definition parse_nondecimal (s : jsstring) : option number :=
  match s with
  | 48%N :: x :: ds =>
      let go (ok : char -> bool) (base : N) :=
        match ds with
        | [] => None
        | _ => if forallb ok ds
               then Some (of_Z (Z.of_N (digits_val base ds))) else None
        end in
      if ((x =? 120) || (x =? 88))%N then go is_hex 16%N
      else if ((x =? 111) || (x =? 79))%N then go is_octal 8%N
      else if ((x =? 98) || (x =? 66))%N then go is_binary 2%N
      else None
  | _ => None
  end.

(** ExponentPart, possibly absent; the whole rest must be consumed. *)
Definition parse_exponent (s : jsstring) : option Z :=
  match s with
  | [] => Some 0%Z
  | e :: t =>
      if ((e =? 101) || (e =? 69))%N then
        let (neg, ds) := match t with
                         | 43%N :: u => (false, u)
                         | 45%N :: u => (true, u)
                         | _ => (false, t)
                         end in
        match ds with
        | [] => None
        | _ => if forallb is_digit ds
               then let v := Z.of_N (digits_val 10 ds) in
                    Some (if neg then (- v)%Z else v)
               else None
        end
      else None
  end.

(** StrUnsignedDecimalLiteral other than [Infinity]: mantissa digits and
    decimal scale. *)
Definition parse_decimal (s : jsstring) : option (N * Z) :=
  let (ip, r1) := span is_digit s in
  let '(dot, fp, r2) :=
    match r1 with
    | 46%N :: t => let (f, r) := span is_digit t in (true, f, r)
    | _ => (false, [], r1)
    end in
  match ip, fp with
  | [], [] => None
  | _, _ =>
      match parse_exponent r2 with
      | Some ex => Some (digits_val 10 (ip ++ fp),
                         (ex - Z.of_nat (List.length fp))%Z)
      | None => None
      end
  end.

Definition StringToNumber (s : jsstring) : number :=
  let t := trim s in
  match t with
  | [] => S754_zero false
  | _ =>
      match parse_nondecimal t with
      | Some x => x
      | None =>
          let (neg, body) := match t with
                             | 43%N :: u => (false, u)
                             | 45%N :: u => (true, u)
                             | _ => (false, t)
                             end in
          if str_eqb body (js "Infinity") then S754_infinity neg
          else match parse_decimal body with
               | Some (m, sc) =>
                   let x := round_decimal m sc in
                   if neg then SFopp x else x
               | None => NaN
               end
      end
  end.

(** Decimal digits of a natural number: the text of [${n}] for an array
    or string length. *)
Definition digits_of_nat (n : nat) : jsstring :=
  js (NilEmpty.string_of_uint (Nat.to_uint n)).

End Num.
Export Num.

(* ================================================================== *)
(** * Part IV. [src/lib/scraping.ts]                                    *)
(* ================================================================== *)

Module Scraping.

(** The double quote, written [\x22] in the patterns quoted below. *)
Definition dquote : char := 34%N.
Definition LF : char := 10%N.
Definition CR : char := 13%N.
Definition TAB : char := 9%N.

(** [PricingItem] of [scraping.ts]. *)
Record PricingItem := {
  sku : jsstring;
  name : jsstring;
  price : number;
  currency : jsstring;
  availability : option jsstring
}.

Record ScrapeResult := {
  rawHtml : jsstring;
  extractedText : jsstring;
  pricingData : list PricingItem
}.

(** [/<script[\s\S]*?<\/script>/gi] *)
Definition scriptRegex : RegExp :=
  {| source := seqs [lit (js "<script"); lazy_star any; lit (js "</script>")];
     ignoreCase := true; global := true |}.

(** [/<style[\s\S]*?<\/style>/gi] *)
Definition styleRegex : RegExp :=
  {| source := seqs [lit (js "<style"); lazy_star any; lit (js "</style>")];
     ignoreCase := true; global := true |}.

(** [/<\/(p|div|h[1-6]|li|section|article|header|footer|tr|br)>/gi] *)
Definition blockCloseRegex : RegExp :=
  {| source :=
       seqs [lit (js "</");
             Group 1 (alts [lit (js "p"); lit (js "div");
                            Seq (lit (js "h")) (Atom (range 49%N 54%N));
                            lit (js "li"); lit (js "section");
                            lit (js "article"); lit (js "header");
                            lit (js "footer"); lit (js "tr"); lit (js "br")]);
             lit (js ">")];
     ignoreCase := true; global := true |}.

(** [/<[^>]+>/g] *)
Definition tagRegex : RegExp :=
  {| source := seqs [lit (js "<"); plus (none_of (js ">")); lit (js ">")];
     ignoreCase := false; global := true |}.

(** [/\r/g], [/\n{3,}/g], [/[ \t]+/g] *)
Definition crRegex : RegExp :=
  {| source := chr CR; ignoreCase := false; global := true |}.
Definition newlinesRegex : RegExp :=
  {| source := at_least 3 (AChr LF); ignoreCase := false; global := true |}.
Definition blanksRegex : RegExp :=
  {| source := plus (one_of [32%N; TAB]); ignoreCase := false; global := true |}.

Definition maxLength : nat := 15000.

(** [cleanHtmlToText] *)
Definition cleanHtmlToText (rawHtml : jsstring) : jsstring :=
  let output := rawHtml in
  let output := replace output scriptRegex (js " ") in
  let output := replace output styleRegex (js " ") in
  let output := replace output blockCloseRegex [LF] in
  let output := replace output tagRegex (js " ") in
  let output := replace output crRegex [] in
  let output := replace output newlinesRegex [LF; LF] in
  let output := replace output blanksRegex (js " ") in
  let output := trim output in
  if Nat.ltb maxLength (List.length output)
  then slice0 maxLength output
  else output.

(** [/\s/g] and [/[^\d.,]/g] *)
Definition spaceRegex : RegExp :=
  {| source := Atom space; ignoreCase := false; global := true |}.
Definition nonPriceCharRegex : RegExp :=
  {| source := Atom (ACls (fun c => negb (is_digit c || char_eqb c 46%N
                                          || char_eqb c 44%N)));
     ignoreCase := false; global := true |}.

(** [parsePriceFromString]: [None] is [null]. *)
Definition parsePriceFromString (raw : jsstring) : option number :=
  let cleaned :=
    replace_str (js ",") (js ".")
      (replace (replace raw spaceRegex []) nonPriceCharRegex []) in
  let value := StringToNumber cleaned in
  if negb (isFinite value) then None else Some value.

(** [/<article\b[^>]*data-sku=\x22([^\x22]+)\x22[^>]*>([\s\S]*?)<\/article>/gi] *)
Definition articleRegex : RegExp :=
  {| source :=
       seqs [lit (js "<article"); WordB; star (none_of (js ">"));
             lit (js "data-sku=" ++ [dquote]);
             Group 1 (plus (none_of [dquote])); lit [dquote];
             star (none_of (js ">")); lit (js ">");
             Group 2 (lazy_star any); lit (js "</article>")];
     ignoreCase := true; global := true |}.

(** [class=\x22[^\x22]*K[^\x22]*\x22[^>]*], the common head of the four field patterns. *)
Definition classAttr (k : jsstring) : list regex :=
  [lit (js "class=" ++ [dquote]); star (none_of [dquote]); lit k;
   star (none_of [dquote]); lit [dquote]; star (none_of (js ">"))].

(** [/class=\x22[^\x22]*product-name[^\x22]*\x22[^>]*>([^<]+)<\/h[1-6]>/i] *)
Definition nameRegex : RegExp :=
  {| source :=
       seqs (classAttr (js "product-name")
             ++ [lit (js ">"); Group 1 (plus (none_of (js "<")));
                 lit (js "</h"); Atom (range 49%N 54%N); lit (js ">")]);
     ignoreCase := true; global := false |}.

(** [/class=\x22[^\x22]*product-price[^\x22]*\x22[^>]*data-price=\x22([^\x22]+)\x22/i] *)
Definition priceDataRegex : RegExp :=
  {| source :=
       seqs (classAttr (js "product-price")
             ++ [lit (js "data-price=" ++ [dquote]);
                 Group 1 (plus (none_of [dquote])); lit [dquote]]);
     ignoreCase := true; global := false |}.

(** [/class=\x22[^\x22]*product-price[^\x22]*\x22[^>]*>([^<]+)<\/p>/i] *)
Definition priceTextRegex : RegExp :=
  {| source :=
       seqs (classAttr (js "product-price")
             ++ [lit (js ">"); Group 1 (plus (none_of (js "<")));
                 lit (js "</p>")]);
     ignoreCase := true; global := false |}.

(** [/class=\x22[^\x22]*product-availability[^\x22]*\x22[^>]*>([^<]+)<\/p>/i] *)
Definition availabilityRegex : RegExp :=
  {| source :=
       seqs (classAttr (js "product-availability")
             ++ [lit (js ">"); Group 1 (plus (none_of (js "<")));
                 lit (js "</p>")]);
     ignoreCase := true; global := false |}.

(** [m[i]] of a match that may be [null], as a value tested for truth:
    [None] stands for [null], [undefined] and the empty string. *)
Definition truthy_group (m : option MatchResult) (i : nat) : option jsstring :=
  match m with
  | Some r => match group r i with
              | Some ((_ :: _) as v) => Some v
              | _ => None
              end
  | None => None
  end.

Definition group_or_empty (m : MatchResult) (i : nat) : jsstring :=
  match group m i with Some v => v | None => [] end.

(** The body of the [while] loop for one article match: the item pushed,
    or [None] when the iteration ends in [continue]. *)
Definition articleItem (articleMatch : MatchResult) : option PricingItem :=
  let sku := group_or_empty articleMatch 1 in
  let articleHtml := group_or_empty articleMatch 2 in
  let nameMatch := exec nameRegex articleHtml 0 in
  let priceDataMatch := exec priceDataRegex articleHtml 0 in
  let priceTextMatch := exec priceTextRegex articleHtml 0 in
  let availabilityMatch := exec availabilityRegex articleHtml 0 in
  match nameMatch, priceDataMatch, priceTextMatch with
  | None, _, _ => None
  | Some _, None, None => None
  | Some nm, _, _ =>
      let name := trim (group_or_empty nm 1) in
      let rawPrice :=
        match truthy_group priceDataMatch 1 with
        | Some v => v
        | None => match truthy_group priceTextMatch 1 with
                  | Some v => v
                  | None => []
                  end
        end in
      match parsePriceFromString rawPrice with
      | None => None
      | Some price =>
          let availability :=
            match availabilityMatch with
            | Some am => Some (trim (group_or_empty am 1))
            | None => None
            end in
          Some {| sku := sku; name := name; price := price;
                  currency := js "EUR"; availability := availability |}
      end
  end.

(** The [while ((articleMatch = articleRegex.exec(rawHtml)) !== null)]
    loop; [lastIndex] is the state of the global expression.  [fuel]
    bounds the number of iterations ([extract_loop_fuel] shows that the
    bound chosen below is never reached). *)
Fixpoint extract_loop (fuel : nat) (rawHtml : jsstring) (lastIndex : nat)
    (items : list PricingItem) : list PricingItem :=
  match fuel with
  | O => items
  | S fuel' =>
      match exec articleRegex rawHtml lastIndex with
      | None => items
      | Some articleMatch =>
          let items' := match articleItem articleMatch with
                        | Some it => items ++ [it]
                        | None => items
                        end in
          extract_loop fuel' rawHtml (endIndex articleMatch) items'
      end
  end.

(** [extractPricingFromHtml] *)
Definition extractPricingFromHtml (rawHtml : jsstring) : list PricingItem :=
  extract_loop (S (List.length rawHtml)) rawHtml 0 [].

(** What [fetch] does for the request of this run. *)
Inductive FetchOutcome :=
| FetchRejected                                   (* network failure *)
| FetchResponse (status : nat) (body : jsstring).

Definition response_ok (status : nat) : bool :=
  Nat.leb 200 status && Nat.leb status 299.

Inductive result (A : Type) :=
| Ok (a : A)
| Threw.
Arguments Ok {A} a.
Arguments Threw {A}.

(** [scrapePage]: the promise resolves with a result or rejects. *)
Definition scrapePage (response : FetchOutcome) : result ScrapeResult :=
  match response with
  | FetchRejected => Threw
  | FetchResponse status body =>
      if negb (response_ok status) then Threw
      else
        let rawHtml := body in
        let extractedText := cleanHtmlToText rawHtml in
        let pricingData := extractPricingFromHtml rawHtml in
        Ok {| rawHtml := rawHtml; extractedText := extractedText;
              pricingData := pricingData |}
  end.

End Scraping.


(* ================================================================== *)
(** * Part V. JSON values and the run-time library                      *)
(* ================================================================== *)

Module Json.

(** A JSON value, as Prisma hands a [Json] column to the program. *)
Inductive json :=
| JNull
| JBool (b : bool)
| JNum (x : number)
| JStr (s : jsstring)
| JArr (l : list json)
| JObj (fields : list (jsstring * json)).

(** The library functions whose text is not part of the repository and
    whose results the handlers only pass on or compare.
    - [NumberToString]: [Number::toString(x, 10)], used by
      [JSON.stringify] for a finite number;
    - [Date_parse]: the time value of [new Date(string)], [None] for an
      invalid date;
    - [LocalTZA t isUTC]: the offset of the local time zone, in
      milliseconds, at time [t];
    - [JSON_parse]: [JSON.parse], [None] when it throws. *)
Class Runtime := {
  NumberToString : number -> jsstring;
  Date_parse : jsstring -> option Z;
  LocalTZA : Z -> bool -> Z;
  JSON_parse : jsstring -> option json
}.

Definition hex_digit (n : N) : char :=
  if (n <? 10)%N then (48 + n)%N else (87 + n)%N.

(** [\uXXXX] with lower-case hexadecimal digits. *)
Definition unicode_escape (c : char) : jsstring :=
  [92%N; 117%N; hex_digit (c / 4096 mod 16); hex_digit (c / 256 mod 16);
   hex_digit (c / 16 mod 16); hex_digit (c mod 16)].

Definition is_high_surrogate (c : char) : bool :=
  ((55296 <=? c) && (c <=? 56319))%N.
Definition is_low_surrogate (c : char) : bool :=
  ((56320 <=? c) && (c <=? 57343))%N.

(** The escape of one code unit that is not a surrogate. *)
Definition escape_char (c : char) : jsstring :=
  if (c =? 8)%N then [92%N; 98%N]
  else if (c =? 9)%N then [92%N; 116%N]
  else if (c =? 10)%N then [92%N; 110%N]
  else if (c =? 12)%N then [92%N; 102%N]
  else if (c =? 13)%N then [92%N; 114%N]
  else if (c =? 34)%N then [92%N; 34%N]
  else if (c =? 92)%N then [92%N; 92%N]
  else if (c <? 32)%N then unicode_escape c
  else [c].

Fixpoint quote_body (s : jsstring) : jsstring :=
  match s with
  | [] => []
  | c :: t =>
      if is_high_surrogate c then
        match t with
        | d :: t' =>
            if is_low_surrogate d then c :: d :: quote_body t'
            else unicode_escape c ++ quote_body t
        | [] => unicode_escape c
        end
      else if is_low_surrogate c then unicode_escape c ++ quote_body t
      else escape_char c ++ quote_body t
  end.

(** QuoteJSONString *)
Definition QuoteJSONString (s : jsstring) : jsstring :=
  34%N :: quote_body s ++ [34%N].

Section Stringify.
Context {rt : Runtime}.

(** [JSON.stringify(v)] without indentation.  A number that is not
    finite is written [null]. *)
Fixpoint stringify (v : json) : jsstring :=
  match v with
  | JNull => js "null"
  | JBool true => js "true"
  | JBool false => js "false"
  | JNum x => if isFinite x then NumberToString x else js "null"
  | JStr s => QuoteJSONString s
  | JArr l => js "[" ++ join (js ",") (map stringify l) ++ js "]"
  | JObj fields =>
      js "{"
      ++ join (js ",")
           (map (fun kv : jsstring * json => let (k, v') := kv in
                           QuoteJSONString k ++ js ":" ++ stringify v')
                fields)
      ++ js "}"
  end.

End Stringify.

(** ToBoolean of a JSON value. *)
Definition truthy (v : json) : bool :=
  match v with
  | JNull => false
  | JBool b => b
  | JNum x => match x with
              | S754_zero _ | S754_nan => false
              | _ => true
              end
  | JStr s => match s with [] => false | _ => true end
  | JArr _ | JObj _ => true
  end.

(** [v[key]] for an own property of a JSON object. *)
Fixpoint get_field (key : jsstring) (fields : list (jsstring * json))
  : option json :=
  match fields with
  | [] => None
  | (k, v) :: t => if str_eqb k key then Some v else get_field key t
  end.

End Json.
Export Json.

(* ================================================================== *)
(** * Part VI. Dates                                                    *)
(* ================================================================== *)

(** Time values are integers (milliseconds since the epoch); a [Date] is
    its time value, [None] for an invalid date.  The functions are those
    of ECMAScript's Date objects. *)
Module JsDate.

Local Open Scope Z_scope.

Definition msPerDay : Z := 86400000.

Definition Day (t : Z) : Z := t / msPerDay.
Definition TimeWithinDay (t : Z) : Z := t mod msPerDay.

Definition DaysInYear (y : Z) : Z :=
  if negb (y mod 4 =? 0) then 365
  else if negb (y mod 100 =? 0) then 366
  else if negb (y mod 400 =? 0) then 365
  else 366.

Definition DayFromYear (y : Z) : Z :=
  365 * (y - 1970) + (y - 1969) / 4 - (y - 1901) / 100 + (y - 1601) / 400.

Definition TimeFromYear (y : Z) : Z := msPerDay * DayFromYear y.

(** The largest [y] with [TimeFromYear y <= t]: counted up from a year
    that is not after it. *)
Fixpoint year_up (fuel : nat) (y d : Z) : Z :=
  match fuel with
  | O => y
  | S f => if DayFromYear (y + 1) <=? d then year_up f (y + 1) d else y
  end.

Definition YearFromTime (t : Z) : Z :=
  let d := Day t in
  let y0 := if 0 <=? d then 1970 + d / 366 else 1970 + d / 365 in
  year_up (Z.to_nat (Z.abs d / 100000 + 2)) y0 d.

Definition InLeapYear (t : Z) : Z :=
  if DaysInYear (YearFromTime t) =? 366 then 1 else 0.

Definition DayWithinYear (t : Z) : Z := Day t - DayFromYear (YearFromTime t).

(** The day of the year on which month [m] (0 to 11) starts. *)
Definition month_start (m leap : Z) : Z :=
  match m with
  | 0 => 0
  | 1 => 31
  | 2 => 59 + leap
  | 3 => 90 + leap
  | 4 => 120 + leap
  | 5 => 151 + leap
  | 6 => 181 + leap
  | 7 => 212 + leap
  | 8 => 243 + leap
  | 9 => 273 + leap
  | 10 => 304 + leap
  | _ => 334 + leap
  end.

Definition MonthFromTime (t : Z) : Z :=
  let d := DayWithinYear t in
  let leap := InLeapYear t in
  if d <? 31 then 0
  else if d <? 59 + leap then 1
  else if d <? 90 + leap then 2
  else if d <? 120 + leap then 3
  else if d <? 151 + leap then 4
  else if d <? 181 + leap then 5
  else if d <? 212 + leap then 6
  else if d <? 243 + leap then 7
  else if d <? 273 + leap then 8
  else if d <? 304 + leap then 9
  else if d <? 334 + leap then 10
  else 11.

Definition DateFromTime (t : Z) : Z :=
  let d := DayWithinYear t in
  let leap := InLeapYear t in
  match MonthFromTime t with
  | 0 => d + 1
  | 1 => d - 30
  | 2 => d - 58 - leap
  | 3 => d - 89 - leap
  | 4 => d - 119 - leap
  | 5 => d - 150 - leap
  | 6 => d - 180 - leap
  | 7 => d - 211 - leap
  | 8 => d - 242 - leap
  | 9 => d - 272 - leap
  | 10 => d - 303 - leap
  | _ => d - 333 - leap
  end.

(** [MakeDay(year, month, date)]: the day number of the first day of the
    month, plus [date - 1]. *)
Definition MakeDay (year month date : Z) : Z :=
  let ym := year + month / 12 in
  let mn := month mod 12 in
  let leap := if DaysInYear ym =? 366 then 1 else 0 in
  DayFromYear ym + month_start mn leap + date - 1.

Definition MakeDate (day time : Z) : Z := day * msPerDay + time.

(** [TimeClip]: a time value outside the range of Date is not a time. *)
Definition TimeClip (t : Z) : option Z :=
  if Z.abs t <=? 8640000000000000 then Some t else None.

Section Local.
Context {rt : Runtime}.

Definition LocalTime (t : Z) : Z := t + LocalTZA t true.
Definition UTC (t : Z) : Z := t - LocalTZA t false.

Definition Date := option Z.

(** [d.getTime()]: [None] is NaN. *)
Definition getTime (d : Date) : option Z := d.

(** [d.getDate()] *)
Definition getDate (d : Date) : option Z :=
  option_map (fun t => DateFromTime (LocalTime t)) d.

(** [d.setDate(dt)]: the new value of [d]. *)
Definition setDate (d : Date) (dt : option Z) : Date :=
  match d, dt with
  | Some t, Some dt =>
      let t := LocalTime t in
      let newDate :=
        MakeDate (MakeDay (YearFromTime t) (MonthFromTime t) dt)
                 (TimeWithinDay t) in
      TimeClip (UTC newDate)
  | _, _ => None
  end.

End Local.

End JsDate.


(* ================================================================== *)
(** * Part VII. The database                                            *)
(* ================================================================== *)

(** The tables of [prisma/migrations/.../migration.sql] that the two
    routes read and write.  A nullable column is an [option]. A [Json]
    column holds the value that was written into it. *)

Inductive ChangeType := TEXT | PRICE | SECTION_ADDED | SECTION_REMOVED | OTHER.

Inductive PageType := PRICING | LANDING | PRODUCT | BLOG | OTHER_PAGE.

Module Project.
Record t := {
  id : Z;
  name : jsstring;
  description : option jsstring
}.
End Project.

Module Competitor.
Record t := {
  id : Z;
  projectId : Z;
  name : jsstring
}.
End Competitor.

Module MonitoredPage.
Record t := {
  id : Z;
  competitorId : Z;
  url : jsstring;
  pageType : PageType
}.
End MonitoredPage.

Module Snapshot.
Record t := {
  id : Z;
  monitoredPageId : Z;
  capturedAt : Z;
  rawHtml : option jsstring;
  extractedText : option jsstring;
  extractedPricing : option json;
  createdAt : Z
}.
End Snapshot.

Module Change.
Record t := {
  id : Z;
  monitoredPageId : Z;
  oldSnapshotId : option Z;
  newSnapshotId : option Z;
  changeType : ChangeType;
  field : option jsstring;
  oldValue : option jsstring;
  newValue : option jsstring;
  changeSummary : option jsstring;
  createdAt : Z
}.
End Change.

Module Report.
Record t := {
  id : Z;
  projectId : Z;
  periodStart : option Z;
  periodEnd : option Z;
  generatedAt : Z;
  aiSummary : option jsstring;
  highlights : option json;
  pdfUrl : option jsstring
}.
End Report.

Module Db.

(** Rows are kept in insertion order; each [SERIAL] key has its counter. *)
Record t := {
  projects : list Project.t;
  competitors : list Competitor.t;
  monitoredPages : list MonitoredPage.t;
  snapshots : list Snapshot.t;
  changes : list Change.t;
  reports : list Report.t;
  snapshotSeq : Z;
  changeSeq : Z;
  reportSeq : Z
}.

(** The integer key a Number stands for.  The client refuses a Number
    that is not an integer: the query throws ([None]). *)
Definition key (x : number) : option Z := to_Z x.

(** [prisma.monitoredPage.findUnique({ where: { id } })] *)
Definition findMonitoredPage (db : t) (id : Z) : option MonitoredPage.t :=
  find (fun p => Z.eqb (MonitoredPage.id p) id) (monitoredPages db).

(** [prisma.project.findUnique({ where: { id } })] *)
Definition findProject (db : t) (id : Z) : option Project.t :=
  find (fun p => Z.eqb (Project.id p) id) (projects db).

(** The row with the greatest [capturedAt] (the first inserted of them). *)
Fixpoint latest (l : list Snapshot.t) (best : option Snapshot.t)
  : option Snapshot.t :=
  match l with
  | [] => best
  | s :: t =>
      latest t
        (match best with
         | None => Some s
         | Some b => if Z.ltb (Snapshot.capturedAt b) (Snapshot.capturedAt s)
                     then Some s else Some b
         end)
  end.

(** [prisma.snapshot.findFirst({ where: { monitoredPageId },
    orderBy: { capturedAt: 'desc' } })] *)
Definition findFirstSnapshot (db : t) (monitoredPageId : Z)
  : option Snapshot.t :=
  latest (filter (fun s => Z.eqb (Snapshot.monitoredPageId s) monitoredPageId)
                 (snapshots db)) None.

(** [prisma.snapshot.create({ data })]: the created row and the new state. *)
Definition createSnapshot (db : t) (monitoredPageId : Z)
    (rawHtml extractedText : option jsstring) (capturedAt : Z)
    (extractedPricing : option json) (dbNow : Z) : Snapshot.t * t :=
  let row := {| Snapshot.id := snapshotSeq db;
                Snapshot.monitoredPageId := monitoredPageId;
                Snapshot.capturedAt := capturedAt;
                Snapshot.rawHtml := rawHtml;
                Snapshot.extractedText := extractedText;
                Snapshot.extractedPricing := extractedPricing;
                Snapshot.createdAt := dbNow |} in
  (row, {| projects := projects db; competitors := competitors db;
           monitoredPages := monitoredPages db;
           snapshots := snapshots db ++ [row];
           changes := changes db; reports := reports db;
           snapshotSeq := (snapshotSeq db + 1)%Z;
           changeSeq := changeSeq db; reportSeq := reportSeq db |}).

(** [prisma.change.create({ data })] *)
Definition createChange (db : t) (monitoredPageId : Z)
    (oldSnapshotId newSnapshotId : option Z) (changeType : ChangeType)
    (field oldValue newValue changeSummary : option jsstring) (dbNow : Z)
  : Change.t * t :=
  let row := {| Change.id := changeSeq db;
                Change.monitoredPageId := monitoredPageId;
                Change.oldSnapshotId := oldSnapshotId;
                Change.newSnapshotId := newSnapshotId;
                Change.changeType := changeType;
                Change.field := field;
                Change.oldValue := oldValue;
                Change.newValue := newValue;
                Change.changeSummary := changeSummary;
                Change.createdAt := dbNow |} in
  (row, {| projects := projects db; competitors := competitors db;
           monitoredPages := monitoredPages db;
           snapshots := snapshots db;
           changes := changes db ++ [row]; reports := reports db;
           snapshotSeq := snapshotSeq db;
           changeSeq := (changeSeq db + 1)%Z; reportSeq := reportSeq db |}).

(** Whether a change belongs to a page of a competitor of the project. *)
Definition change_in_project (db : t) (projectId : Z) (c : Change.t) : bool :=
  match findMonitoredPage db (Change.monitoredPageId c) with
  | Some p =>
      existsb (fun k => Z.eqb (Competitor.id k) (MonitoredPage.competitorId p)
                        && Z.eqb (Competitor.projectId k) projectId)
              (competitors db)
  | None => false
  end.

Fixpoint insert_by_createdAt (c : Change.t) (l : list Change.t)
  : list Change.t :=
  match l with
  | [] => [c]
  | x :: t => if Z.ltb (Change.createdAt c) (Change.createdAt x)
              then c :: l else x :: insert_by_createdAt c t
  end.

(** [prisma.change.findMany({ where: { createdAt: { gte, lte },
    monitoredPage: { competitor: { projectId } } },
    orderBy: { createdAt: 'asc' } })] *)
Definition findChanges (db : t) (projectId gte lte : Z) : list Change.t :=
  fold_left (fun acc c => insert_by_createdAt c acc)
    (filter (fun c => Z.leb gte (Change.createdAt c)
                      && Z.leb (Change.createdAt c) lte
                      && change_in_project db projectId c)
            (changes db))
    [].

(** [prisma.report.create({ data })] *)
Definition createReport (db : t) (projectId : Z)
    (periodStart periodEnd : option Z) (generatedAt : Z)
    (aiSummary : option jsstring) (highlights : option json)
  : Report.t * t :=
  let row := {| Report.id := reportSeq db;
                Report.projectId := projectId;
                Report.periodStart := periodStart;
                Report.periodEnd := periodEnd;
                Report.generatedAt := generatedAt;
                Report.aiSummary := aiSummary;
                Report.highlights := highlights;
                Report.pdfUrl := None |} in
  (row, {| projects := projects db; competitors := competitors db;
           monitoredPages := monitoredPages db;
           snapshots := snapshots db;
           changes := changes db; reports := reports db ++ [row];
           snapshotSeq := snapshotSeq db;
           changeSeq := changeSeq db; reportSeq := (reportSeq db + 1)%Z |}).

End Db.

(* ================================================================== *)
(** * Part VIII. [src/app/api/monitored-pages/[pageId]/scrape/route.ts] *)
(* ================================================================== *)

Module ScrapeRoute.

Import Scraping.

(** [PricingItem] of the route. *)
Record PricingItem := {
  label : option jsstring;
  amount : option number;
  currency : option jsstring;
  rawLine : jsstring
}.

(** [/\r?\n/] *)
Definition lineBreakRegex : RegExp :=
  {| source := Seq (opt (AChr CR)) (chr LF);
     ignoreCase := false; global := false |}.

(** [\d+[.,]?\d*] *)
Definition amountPattern : regex :=
  seqs [plus digit; opt (one_of (js ".,")); star digit].

(** [€|eur|euro|\$|usd] *)
Definition currencyPattern : regex :=
  alts [lit (js "€"); lit (js "eur"); lit (js "euro"); lit (js "$");
        lit (js "usd")].

(** [/(?:(A)\s*(C)|(\$)\s*(A))/i], where [A] stands for [amountPattern]
    and [C] for [currencyPattern]. *)
Definition priceRegex : RegExp :=
  {| source :=
       Alt (seqs [Group 1 amountPattern; star space; Group 2 currencyPattern])
           (seqs [Group 3 (lit (js "$")); star space; Group 4 amountPattern]);
     ignoreCase := true; global := false |}.

Definition MAX_ITEMS : nat := 50.

(** A capture tested for truth: [None] for [undefined] and for [""]. *)
Definition truthy_capture (m : MatchResult) (i : nat) : option jsstring :=
  match group m i with
  | Some ((_ :: _) as v) => Some v
  | _ => None
  end.

(** The body of the [for] loop after a successful match: the amount text
    and the currency that the two branches assign. *)
Definition amount_and_currency (m : MatchResult)
  : option jsstring * option jsstring :=
  match truthy_capture m 1, truthy_capture m 2 with
  | Some m1, Some m2 =>
      let amountStr := m1 in
      let cur := toUpperCase m2 in
      let currency :=
        if str_eqb cur (js "€") || str_eqb cur (js "EURO")
           || str_eqb cur (js "EUR")
        then js "EUR"
        else if str_eqb cur (js "$") || str_eqb cur (js "USD")
        then js "USD"
        else cur in
      (Some amountStr, Some currency)
  | _, _ =>
      match truthy_capture m 3, truthy_capture m 4 with
      | Some _, Some m4 => (Some m4, Some (js "USD"))
      | _, _ => (None, None)
      end
  end.

(** The [for (const line of lines)] loop. *)
Fixpoint price_loop (lines : list jsstring) (items : list PricingItem)
  : list PricingItem :=
  match lines with
  | [] => items
  | line :: rest =>
      if Nat.leb MAX_ITEMS (List.length items) then items      (* break *)
      else
        match match_ line priceRegex with
        | None => price_loop rest items                        (* continue *)
        | Some m =>
            match amount_and_currency m with
            | (None, _) => price_loop rest items               (* continue *)
            | (Some amountStr, currency) =>
                let normalized := replace_str (js ",") (js ".") amountStr in
                let amount := StringToNumber normalized in
                if negb (isFinite amount) then price_loop rest items
                else
                  price_loop rest
                    (items ++ [{| label := Some (slice0 120 line);
                                  amount := Some amount;
                                  currency := currency;
                                  rawLine := line |}])
            end
        end
  end.

(** The non-empty trimmed lines of a text. *)
Definition text_lines (text : jsstring) : list jsstring :=
  filter (fun line => Nat.ltb 0 (List.length line))
         (map trim (split text lineBreakRegex)).

(** [extractPricingFromText]; [None] is [null] or [undefined]. *)
Definition extractPricingFromText (text : option jsstring)
  : list PricingItem :=
  match text with
  | None | Some [] => []
  | Some text => price_loop (text_lines text) []
  end.

Definition json_of_string (s : option jsstring) : json :=
  match s with Some v => JStr v | None => JNull end.

(** The pricing list as the JSON value written to [extractedPricing]. *)
Definition item_json (it : PricingItem) : json :=
  JObj [(js "label", json_of_string (label it));
        (js "amount", match amount it with Some x => JNum x | None => JNull end);
        (js "currency", json_of_string (currency it));
        (js "rawLine", JStr (rawLine it))].

Definition pricing_json (items : list PricingItem) : json :=
  JArr (map item_json items).

(** [parsePageId] *)
Definition parsePageId (raw : jsstring) : option number :=
  let id := StringToNumber raw in
  if negb (isFinite id) || le id (S754_zero false) then None else Some id.

Inductive Body :=
| Message (message : jsstring)
| Created (snapshot : Snapshot.t) (change : option Change.t)
          (hasChange : bool) (message : jsstring).

Record Response := { status : nat; body : Body }.

(** What the run reads from outside the program. *)
Record World := {
  fetch : jsstring -> FetchOutcome;   (* the answer to [fetch(url, ...)] *)
  now : Z;                            (* [new Date()] *)
  dbNow : Z                           (* [CURRENT_TIMESTAMP] *)
}.

Definition MIN_LENGTH_DELTA : Z := 20.
Definition maxStoredLength : nat := 2000.

Definition or_empty (s : option jsstring) : jsstring :=
  match s with Some v => v | None => [] end.

Definition or_null (v : option json) : json :=
  match v with Some j => j | None => JNull end.

Definition serverError : Response :=
  {| status := 500;
     body := Message (js "Erreur lors du snapshot de la page surveillée. / Error running snapshot for monitored page.") |}.

Section Handler.
Context {rt : Runtime}.

(** [POST /api/monitored-pages/[pageId]/scrape] *)
Definition POST (rawPageId : jsstring) (w : World) (db : Db.t)
  : Response * Db.t :=
  match parsePageId rawPageId with
  | None =>
      ({| status := 400;
          body := Message (js "Paramètre pageId invalide. / Invalid pageId parameter.") |},
       db)
  | Some pageId =>
  match Db.key pageId with
  | None => (serverError, db)
  | Some monitoredPageId =>
  match Db.findMonitoredPage db monitoredPageId with
  | None =>
      ({| status := 404;
          body := Message (js "Page surveillée introuvable. / Monitored page not found.") |},
       db)
  | Some monitoredPage =>
  let previousSnapshot := Db.findFirstSnapshot db monitoredPageId in
  match scrapePage (fetch w (MonitoredPage.url monitoredPage)) with
  | Threw => (serverError, db)
  | Ok scraped =>
  let rawHtml := Scraping.rawHtml scraped in
  let extractedText := Scraping.extractedText scraped in
  let pricingData := extractPricingFromText (Some extractedText) in
  let (newSnapshot, db) :=
    Db.createSnapshot db monitoredPageId (Some rawHtml) (Some extractedText)
      (now w)
      (if Nat.ltb 0 (List.length pricingData)
       then Some (pricing_json pricingData) else None)
      (dbNow w) in
  let change : option Change.t := None in
  let hasChange := false in
  let '(change, hasChange, db) :=
    match previousSnapshot with
    | None => (change, hasChange, db)
    | Some previousSnapshot =>
        let oldText := or_empty (Snapshot.extractedText previousSnapshot) in
        let newText := extractedText in
        let oldLen := List.length oldText in
        let newLen := List.length newText in
        let lengthDelta := Z.abs (Z.of_nat newLen - Z.of_nat oldLen) in
        let contentChanged := negb (str_eqb oldText newText) in
        let '(change, hasChange, db) :=
          if contentChanged
             && (Z.ltb MIN_LENGTH_DELTA lengthDelta || Nat.eqb newLen 0)
          then
            let (textChange, db) :=
              Db.createChange db monitoredPageId
                (Some (Snapshot.id previousSnapshot))
                (Some (Snapshot.id newSnapshot))
                TEXT (Some (js "content"))
                (Some (slice0 maxStoredLength oldText))
                (Some (slice0 maxStoredLength newText))
                (Some (js "Contenu texte modifié (longueur "
                       ++ digits_of_nat oldLen ++ js " → "
                       ++ digits_of_nat newLen
                       ++ js "). / Text content changed (length "
                       ++ digits_of_nat oldLen ++ js " → "
                       ++ digits_of_nat newLen ++ js ")."))
                (dbNow w) in
            (Some textChange, true, db)
          else (change, hasChange, db) in
        let oldPricing := or_null (Snapshot.extractedPricing previousSnapshot) in
        let newPricing := or_null (Snapshot.extractedPricing newSnapshot) in
        let pricingChanged :=
          negb (str_eqb (stringify oldPricing) (stringify newPricing)) in
        if pricingChanged && (truthy oldPricing || truthy newPricing)
        then
          let oldPricingStr := slice0 maxStoredLength (stringify oldPricing) in
          let newPricingStr := slice0 maxStoredLength (stringify newPricing) in
          let (priceChange, db) :=
            Db.createChange db monitoredPageId
              (Some (Snapshot.id previousSnapshot))
              (Some (Snapshot.id newSnapshot))
              PRICE (Some (js "pricing"))
              (Some oldPricingStr) (Some newPricingStr)
              (Some (js "Tarifs ou plans modifiés sur cette page. / Pricing or plans changed on this page."))
              (dbNow w) in
          (match change with Some c => Some c | None => Some priceChange end,
           true, db)
        else (change, hasChange, db)
    end in
  ({| status := 201;
      body := Created newSnapshot change hasChange
                (if hasChange
                 then js "Changement détecté sur la page. / Change detected on the page."
                 else js "Snapshot créé, aucun changement majeur détecté. / Snapshot created, no major change detected.") |},
   db)
  end end end end.

End Handler.

End ScrapeRoute.

(* ================================================================== *)
(** * Part IX. [src/app/api/projects/[projectId]/reports/route.ts]      *)
(* ================================================================== *)

Module ReportsRoute.

Import JsDate.
Local Open Scope Z_scope.

(** [parseProjectId] *)
Definition parseProjectId (raw : jsstring) : option number :=
  let id := StringToNumber raw in
  if negb (isFinite id) || le id (S754_zero false) then None else Some id.

(** The parsed request body. *)
Record RequestBody := {
  periodStart : option jsstring;
  periodEnd : option jsstring;
  useAi : option bool
}.

(** The answer of the text-generation service to the request of this
    run: the call throws, or returns a completion whose content may be
    missing. *)
Inductive Completion :=
| CompletionThrew
| CompletionContent (content : option jsstring).

(** What the run reads from outside the program.  [clock n] is the value
    of the [n]-th evaluation of [new Date()] in the handler. *)
Record World := {
  OPENAI_API_KEY : option jsstring;
  clock : nat -> Z;
  completion : Completion
}.

Record AiReportResult := {
  aiSummary : jsstring;
  highlights : json
}.

Inductive Body :=
| Message (message : jsstring)
| Created (report : Report.t).

Record Response := { status : nat; body : Body }.

(** A string tested for truth. *)
Definition truthy_string (s : option jsstring) : option jsstring :=
  match s with
  | Some ((_ :: _) as v) => Some v
  | _ => None
  end.

Section Handler.
Context {rt : Runtime}.

(** [generateAiReport].  The prompt sent to the service is not modelled:
    the answer is an input of the run. *)
Definition generateAiReport (w : World) (changes : list Change.t)
  : option AiReportResult :=
  match truthy_string (OPENAI_API_KEY w) with
  | None => None
  | Some _ =>
      match changes with
      | [] =>
          Some {| aiSummary := js "Aucun changement détecté sur les pages surveillées pendant cette période. / No changes detected on monitored pages during this period.";
                  highlights := JArr [] |}
      | _ =>
          match completion w with
          | CompletionThrew => None
          | CompletionContent content =>
              match truthy_string content with
              | None => None
              | Some content =>
                  match JSON_parse content with
                  | None => None
                  | Some JNull => None     (* reading a property of null throws *)
                  | Some parsed =>
                      let prop k := match parsed with
                                    | JObj fields => get_field (js k) fields
                                    | _ => None
                                    end in
                      let aiSummary :=
                        match prop "summary"%string with
                        | Some (JStr s) =>
                            if Nat.ltb 0 (List.length (trim s)) then s
                            else js "Résumé IA indisponible. / AI summary unavailable."
                        | _ => js "Résumé IA indisponible. / AI summary unavailable."
                        end in
                      let highlightsValue :=
                        match prop "highlights"%string with
                        | Some (JArr l) => JArr l
                        | _ => JArr []
                        end in
                      Some {| aiSummary := aiSummary;
                              highlights := highlightsValue |}
                  end
              end
          end
      end
  end.

(** The outcome of lines 366 to 421 of [POST]: the 400 answer for a
    date that does not parse, or the two dates of the period and the
    number of clock readings made. *)
Inductive Period :=
| BadRequest (message : jsstring)
| Resolved (periodStart periodEnd : Date) (reads : nat).

(** [body.field ? new Date(body.field) : null], with the validity test:
    [None] when the date is invalid, [Some None] for [null]. *)
Definition parse_field (field : option jsstring) : option (option Date) :=
  match truthy_string field with
  | None => Some None
  | Some text => match Date_parse text with
                 | None => None
                 | Some t => Some (Some (Some t))
                 end
  end.

Definition resolvePeriod (body : RequestBody) (w : World) : Period :=
  match parse_field (periodStart body) with
  | None => BadRequest (js "periodStart invalide. / Invalid periodStart.")
  | Some periodStart =>
  match parse_field (periodEnd body) with
  | None => BadRequest (js "periodEnd invalide. / Invalid periodEnd.")
  | Some periodEnd =>
      (* if one date only is given, derive the other *)
      let '(periodStart, periodEnd) :=
        match periodStart, periodEnd with
        | Some start, None =>
            let periodEnd := start in
            let periodEnd :=
              setDate periodEnd
                      (option_map (fun d => d + 7) (getDate periodEnd)) in
            (periodStart, Some periodEnd)
        | None, Some end_ =>
            let periodStart := end_ in
            let periodStart :=
              setDate periodStart
                      (option_map (fun d => d - 7) (getDate periodStart)) in
            (Some periodStart, periodEnd)
        | _, _ => (periodStart, periodEnd)
        end in
      (* if no date is given, the last 7 days *)
      let '(periodStart, periodEnd, reads) :=
        match periodStart, periodEnd with
        | Some periodStart, Some periodEnd => (periodStart, periodEnd, O)
        | _, _ =>
            let periodEnd : Date := Some (clock w 0) in
            let periodStart : Date := Some (clock w 1) in
            let periodStart :=
              setDate periodStart
                      (option_map (fun d => d - 7) (getDate periodEnd)) in
            (periodStart, periodEnd, 2%nat)
        end in
      (* order of the dates *)
      match getTime periodStart, getTime periodEnd with
      | Some a, Some b =>
          if b <? a then Resolved periodEnd periodStart reads
          else Resolved periodStart periodEnd reads
      | _, _ => Resolved periodStart periodEnd reads
      end
  end end.

Definition serverError : Response :=
  {| status := 500;
     body := Message (js "Erreur lors de la création du rapport. / Error creating report.") |}.

(** [POST /api/projects/[projectId]/reports]; [body] is [None] when the
    request has no JSON body.  A query whose date is invalid throws. *)
Definition POST (rawId : jsstring) (body : option RequestBody) (w : World)
    (db : Db.t) : Response * Db.t :=
  match parseProjectId rawId with
  | None =>
      ({| status := 400;
          body := Message (js "Paramètre projectId invalide. / Invalid projectId parameter.") |},
       db)
  | Some projectId =>
  match body with
  | None =>
      ({| status := 400;
          body := Message (js "Corps de requête invalide. / Invalid request body.") |},
       db)
  | Some body =>
  match resolvePeriod body w with
  | BadRequest message => ({| status := 400; body := Message message |}, db)
  | Resolved periodStart periodEnd reads =>
  let useAi := match useAi body with None => true | Some b => b end in
  match Db.key projectId with
  | None => (serverError, db)
  | Some projectKey =>
  match Db.findProject db projectKey with
  | None =>
      ({| status := 404;
          body := Message (js "Projet introuvable. / Project not found.") |},
       db)
  | Some project =>
  match periodStart, periodEnd with
  | Some gte, Some lte =>
      let changes := Db.findChanges db projectKey gte lte in
      let aiSummary : option jsstring := None in
      let highlights : option json := None in
      let '(aiSummary, highlights) :=
        if useAi then
          match generateAiReport w changes with
          | Some aiResult =>
              (Some (ReportsRoute.aiSummary aiResult),
               Some (ReportsRoute.highlights aiResult))
          | None => (aiSummary, highlights)
          end
        else (aiSummary, highlights) in
      let (created, db) :=
        Db.createReport db projectKey periodStart periodEnd (clock w reads)
          aiSummary highlights in
      ({| status := 201; body := Created created |}, db)
  | _, _ => (serverError, db)
  end end end end end end.

End Handler.

End ReportsRoute.

(* ================================================================== *)
(** * Part X. The reports page ([normalizeHighlights])                  *)
(* ================================================================== *)

Module ReportsPage.

Record Highlight := {
  title : jsstring;
  detail : jsstring;
  competitor : jsstring;
  changeType : jsstring;
  impact : jsstring
}.

(** [typeof obj?.key === 'string' ? obj.key : ''] *)
Definition string_prop (obj : json) (key : string) : jsstring :=
  match obj with
  | JObj fields => match get_field (js key) fields with
                   | Some (JStr s) => s
                   | _ => []
                   end
  | _ => []
  end.

(** [normalizeHighlights]; [None] is the SQL NULL of the column. *)
Definition normalizeHighlights (raw : option json) : list Highlight :=
  match raw with
  | Some (JArr l) =>
      map (fun obj => {| title := string_prop obj "title";
                         detail := string_prop obj "detail";
                         competitor := string_prop obj "competitor";
                         changeType := string_prop obj "changeType";
                         impact := string_prop obj "impact" |}) l
  | _ => []
  end.

End ReportsPage.

(* ================================================================== *)
(** * Part XI. [src/app/api/monitored-pages/[pageId]/changes/route.ts]  *)
(* ================================================================== *)

Module ChangesRoute.

(** A page id that is not an integer makes the query throw ([Db.key]), and
    the handler answers 500.  [orderBy] leaves the order of the rows of one
    date open: the model keeps them in the order of the table, and no
    property below depends on it. *)

(** [parsePageId] *)
Definition parsePageId (raw : jsstring) : option number :=
  let id := StringToNumber raw in
  if negb (isFinite id) || le id (S754_zero false) then None else Some id.

Fixpoint insert_by_createdAt_desc (c : Change.t) (l : list Change.t)
  : list Change.t :=
  match l with
  | [] => [c]
  | x :: t => if Z.ltb (Change.createdAt x) (Change.createdAt c)
              then c :: l else x :: insert_by_createdAt_desc c t
  end.

(** [prisma.change.findMany({ where: { monitoredPageId },
    orderBy: { createdAt: 'desc' }, take: 20 })] *)
Definition findChanges (db : Db.t) (monitoredPageId : Z) : list Change.t :=
  firstn 20
    (fold_left (fun acc c => insert_by_createdAt_desc c acc)
       (filter (fun c => Z.eqb (Change.monitoredPageId c) monitoredPageId)
               (Db.changes db))
       []).

Inductive Body :=
| Message (message : jsstring)
| Changes (changes : list Change.t).

Record Response := { status : nat; body : Body }.

(** [GET /api/monitored-pages/[pageId]/changes] *)
Definition GET (rawPageId : jsstring) (db : Db.t) : Response :=
  match parsePageId rawPageId with
  | None =>
      {| status := 400;
         body := Message (js "Paramètre pageId invalide. / Invalid pageId parameter.") |}
  | Some pageId =>
  match Db.key pageId with
  | None =>
      {| status := 500;
         body := Message (js "Erreur lors de la récupération des changements. / Error fetching changes.") |}
  | Some monitoredPageId =>
  match Db.findMonitoredPage db monitoredPageId with
  | None =>
      {| status := 404;
         body := Message (js "Page surveillée introuvable. / Monitored page not found.") |}
  | Some _ =>
      {| status := 200; body := Changes (findChanges db monitoredPageId) |}
  end end end.

End ChangesRoute.

(* ================================================================== *)
(** * Part XII. [src/app/api/monitored-pages/[pageId]/route.ts]         *)
(* ================================================================== *)

Module PageRoute.

(** The three deletions of the transaction run in order on the tables.
    The foreign keys are those of
    [src/prisma/migrations/20251127103107_init/migration.sql]: a change
    keeps its row when a capture it refers to is deleted and loses the
    reference ([ON DELETE SET NULL]); the captures and the changes of a
    page are deleted with the page ([ON DELETE CASCADE]).  The
    transaction itself does not fail in the model: 500 is the answer to a
    page id that is not an integer only. *)

(** [parsePageId] *)
Definition parsePageId (raw : jsstring) : option number :=
  let id := StringToNumber raw in
  if negb (isFinite id) || le id (S754_zero false) then None else Some id.

Definition with_tables (db : Db.t) (pages : list MonitoredPage.t)
    (snapshots : list Snapshot.t) (changes : list Change.t) : Db.t :=
  {| Db.projects := Db.projects db; Db.competitors := Db.competitors db;
     Db.monitoredPages := pages; Db.snapshots := snapshots;
     Db.changes := changes; Db.reports := Db.reports db;
     Db.snapshotSeq := Db.snapshotSeq db; Db.changeSeq := Db.changeSeq db;
     Db.reportSeq := Db.reportSeq db |}.

(** [prisma.change.deleteMany({ where: { monitoredPageId } })] *)
Definition deleteChanges (db : Db.t) (monitoredPageId : Z) : Db.t :=
  with_tables db (Db.monitoredPages db) (Db.snapshots db)
    (filter (fun c => negb (Z.eqb (Change.monitoredPageId c) monitoredPageId))
            (Db.changes db)).

(** A reference to a capture, after the captures [gone] are deleted:
    [ON DELETE SET NULL]. *)
Definition set_null (gone : list Z) (ref : option Z) : option Z :=
  match ref with
  | Some i => if existsb (Z.eqb i) gone then None else Some i
  | None => None
  end.

Definition unlink (gone : list Z) (c : Change.t) : Change.t :=
  {| Change.id := Change.id c;
     Change.monitoredPageId := Change.monitoredPageId c;
     Change.oldSnapshotId := set_null gone (Change.oldSnapshotId c);
     Change.newSnapshotId := set_null gone (Change.newSnapshotId c);
     Change.changeType := Change.changeType c;
     Change.field := Change.field c;
     Change.oldValue := Change.oldValue c;
     Change.newValue := Change.newValue c;
     Change.changeSummary := Change.changeSummary c;
     Change.createdAt := Change.createdAt c |}.

(** [prisma.snapshot.deleteMany({ where: { monitoredPageId } })]; the
    changes that refer to a deleted capture lose the reference. *)
Definition deleteSnapshots (db : Db.t) (monitoredPageId : Z) : Db.t :=
  let of_page s := Z.eqb (Snapshot.monitoredPageId s) monitoredPageId in
  let gone := map Snapshot.id (filter of_page (Db.snapshots db)) in
  with_tables db (Db.monitoredPages db)
    (filter (fun s => negb (of_page s)) (Db.snapshots db))
    (map (unlink gone) (Db.changes db)).

(** [prisma.monitoredPage.delete({ where: { id } })]; the captures and
    the changes of the page go with it ([ON DELETE CASCADE]). *)
Definition deletePage (db : Db.t) (id : Z) : Db.t :=
  deleteChanges
    (deleteSnapshots
       (with_tables db
          (filter (fun p => negb (Z.eqb (MonitoredPage.id p) id))
                  (Db.monitoredPages db))
          (Db.snapshots db) (Db.changes db))
       id)
    id.

Record Response := { status : nat; message : jsstring }.

(** [DELETE /api/monitored-pages/[pageId]] *)
Definition DELETE (rawPageId : jsstring) (db : Db.t) : Response * Db.t :=
  match parsePageId rawPageId with
  | None =>
      ({| status := 400;
          message := js "Paramètre pageId invalide. / Invalid pageId parameter." |},
       db)
  | Some pageId =>
  match Db.key pageId with
  | None =>
      ({| status := 500;
          message := js "Erreur lors de la suppression de la page surveillée. / Error deleting monitored page." |},
       db)
  | Some monitoredPageId =>
  match Db.findMonitoredPage db monitoredPageId with
  | None =>
      ({| status := 404;
          message := js "Page surveillée introuvable. / Monitored page not found." |},
       db)
  | Some _ =>
      let db := deleteChanges db monitoredPageId in
      let db := deleteSnapshots db monitoredPageId in
      let db := deletePage db monitoredPageId in
      ({| status := 200;
          message := js "Page surveillée supprimée avec succès. / Monitored page deleted successfully." |},
       db)
  end end end.

End PageRoute.

(* ================================================================== *)
(** * Part XIII. The reports route: [GET] and the prompt                *)
(* ================================================================== *)

Module ReportsList.

(** The rows of one date are kept in the order of the table, as in
    [ChangesRoute]. *)

Fixpoint insert_by_generatedAt_desc (r : Report.t) (l : list Report.t)
  : list Report.t :=
  match l with
  | [] => [r]
  | x :: t => if Z.ltb (Report.generatedAt x) (Report.generatedAt r)
              then r :: l else x :: insert_by_generatedAt_desc r t
  end.

(** [prisma.report.findMany({ where: { projectId },
    orderBy: { generatedAt: 'desc' } })] *)
Definition findReports (db : Db.t) (projectId : Z) : list Report.t :=
  fold_left (fun acc r => insert_by_generatedAt_desc r acc)
    (filter (fun r => Z.eqb (Report.projectId r) projectId) (Db.reports db))
    [].

Inductive Body :=
| Message (message : jsstring)
| Reports (reports : list Report.t).

Record Response := { status : nat; body : Body }.

(** [GET /api/projects/[projectId]/reports] *)
Definition GET (rawId : jsstring) (db : Db.t) : Response :=
  match ReportsRoute.parseProjectId rawId with
  | None =>
      {| status := 400;
         body := Message (js "Paramètre projectId invalide. / Invalid projectId parameter.") |}
  | Some projectId =>
  match Db.key projectId with
  | None =>
      {| status := 500;
         body := Message (js "Erreur lors du chargement des rapports. / Error loading reports.") |}
  | Some projectKey =>
  match Db.findProject db projectKey with
  | None =>
      {| status := 404;
         body := Message (js "Projet introuvable. / Project not found.") |}
  | Some _ => {| status := 200; body := Reports (findReports db projectKey) |}
  end end end.

End ReportsList.

(** The text of the changes in the request to the synthesis service
    ([truncateForPrompt], [buildChangesPrompt]). *)
Module ReportPrompt.

Local Open Scope Z_scope.

Definition HourFromTime (t : Z) : Z := (t / 3600000) mod 24.
Definition MinFromTime (t : Z) : Z := (t / 60000) mod 60.
Definition SecFromTime (t : Z) : Z := (t / 1000) mod 60.
Definition msFromTime (t : Z) : Z := t mod 1000.

(** The last [width] decimal digits of [n], with leading zeros. *)
Fixpoint padded (width : nat) (n : Z) : jsstring :=
  match width with
  | O => []
  | S w => padded w (n / 10) ++ [Z.to_N (48 + n mod 10)]
  end.

(** [d.toISOString()] for a valid date: a year outside 0..9999 is written
    with its sign and six digits. *)
Definition toISOString (t : Z) : jsstring :=
  let y := JsDate.YearFromTime t in
  (if (0 <=? y) && (y <=? 9999) then padded 4 y
   else (if y <? 0 then js "-" else js "+") ++ padded 6 (Z.abs y))
  ++ js "-" ++ padded 2 (JsDate.MonthFromTime t + 1)
  ++ js "-" ++ padded 2 (JsDate.DateFromTime t)
  ++ js "T" ++ padded 2 (HourFromTime t)
  ++ js ":" ++ padded 2 (MinFromTime t)
  ++ js ":" ++ padded 2 (SecFromTime t)
  ++ js "." ++ padded 3 (msFromTime t) ++ js "Z".

(** [truncateForPrompt]; [None] is [null]. *)
Definition truncateForPrompt (value : option jsstring) (maxLength : nat)
  : jsstring :=
  match value with
  | None | Some [] => js "null"
  | Some value =>
      if Nat.leb (List.length value) maxLength then value
      else slice0 maxLength value ++ js "…"
  end.

(** An element of [changes]: a change with the page and the competitor
    that the query includes. *)
Record ChangeWithPage := {
  change : Change.t;
  url : jsstring;
  pageType : PageType;
  competitorName : jsstring
}.

Definition ChangeType_name (t : ChangeType) : jsstring :=
  match t with
  | TEXT => js "TEXT"
  | PRICE => js "PRICE"
  | SECTION_ADDED => js "SECTION_ADDED"
  | SECTION_REMOVED => js "SECTION_REMOVED"
  | OTHER => js "OTHER"
  end.

Definition PageType_name (t : PageType) : jsstring :=
  match t with
  | PRICING => js "PRICING"
  | LANDING => js "LANDING"
  | PRODUCT => js "PRODUCT"
  | BLOG => js "BLOG"
  | OTHER_PAGE => js "OTHER"
  end.

(** [KEY=\x22value\x22] *)
Definition quoted (key : string) (value : jsstring) : jsstring :=
  js key ++ js "=" ++ [34%N] ++ value ++ [34%N].

Definition maxLines : nat := 200.
Definition MAX_PRICING_JSON_LENGTH : nat := 400.

(** The line of one change. *)
Definition changeLine (c : ChangeWithPage) : jsstring :=
  let dateStr := toISOString (Change.createdAt (change c)) in
  let competitorName := competitorName c in
  let pageType := PageType_name (pageType c) in
  let url := url c in
  let type := Change.changeType (change c) in
  let field := match Change.field (change c) with
               | Some f => f
               | None => js "N/A"
               end in
  let summary := match Change.changeSummary (change c) with
                 | Some s => s
                 | None => []
                 end in
  let simple :=
    js "[" ++ dateStr ++ js "] " ++ quoted "Competitor" competitorName
    ++ js " | " ++ quoted "PageType" pageType
    ++ js " | " ++ quoted "ChangeType" (ChangeType_name type)
    ++ js " | " ++ quoted "Field" field
    ++ js " | " ++ quoted "URL" url
    ++ js " | " ++ quoted "Summary" summary in
  match type with
  | PRICE =>
      let oldPricingPreview :=
        truncateForPrompt (Change.oldValue (change c))
                          MAX_PRICING_JSON_LENGTH in
      let newPricingPreview :=
        truncateForPrompt (Change.newValue (change c))
                          MAX_PRICING_JSON_LENGTH in
      simple ++ js " | OldPricingJson=" ++ oldPricingPreview
      ++ js " | NewPricingJson=" ++ newPricingPreview
  | _ => simple
  end.

(** [buildChangesPrompt] *)
Definition buildChangesPrompt (changes : list ChangeWithPage) : jsstring :=
  match changes with
  | [] => js "Aucun changement détecté sur la période. / No changes detected during the period."
  | _ =>
      let sliced := firstn maxLines changes in
      let lines := map changeLine sliced in
      join [10%N] lines
  end.

End ReportPrompt.

(* ================================================================== *)
(** * Part XIV. Vocabulary of the properties                            *)
(* ================================================================== *)

Import Scraping ScrapeRoute JsDate.

(** ** The matcher *)

(** The text between two states of one run of the matcher. *)
Definition consumed (s s' : mstate) (x : jsstring) : Prop :=
  m_rest s = x ++ m_rest s' /\ m_pos s' = m_pos s + List.length x.

(** A pattern without capture groups leaves the captures as they are. *)
Fixpoint no_group (r : regex) : bool :=
  match r with
  | Seq a b | Alt a b => no_group a && no_group b
  | Group _ _ => false
  | _ => true
  end.

(** Equality up to the case of the Basic Latin letters. *)
Definition ci_eq (x l : jsstring) : Prop := map upper_char x = map upper_char l.

(** ** The price pattern *)

Definition currency_tokens : list jsstring :=
  [js "€"; js "eur"; js "euro"; js "$"; js "usd"].

(** [tok] is one of the currency tokens, whatever the case of its letters. *)
Definition is_token (tok : jsstring) : Prop :=
  exists l, In l currency_tokens /\ ci_eq tok l.

Definition euro_token (tok : jsstring) : Prop :=
  ci_eq tok (js "€") \/ ci_eq tok (js "eur") \/ ci_eq tok (js "euro").

Definition dollar_token (tok : jsstring) : Prop :=
  ci_eq tok (js "$") \/ ci_eq tok (js "usd").

(** The two shapes of a match of the price pattern: an amount followed by
    a currency token (groups 1 and 2), or a dollar sign followed by an
    amount (groups 3 and 4). *)
Inductive price_match (m : MatchResult) : Prop :=
| amount_then_currency (a tok : jsstring) :
    group m 1 = Some a -> a <> [] ->
    group m 2 = Some tok -> is_token tok -> price_match m
| dollar_then_amount (d a : jsstring) :
    group m 1 = None ->
    group m 3 = Some d -> d <> [] ->
    group m 4 = Some a -> a <> [] -> price_match m.

(** The code [c] is the one of the token the match captured: EUR for a
    euro token, USD for a dollar token and for the dollar sign before
    the amount. *)
Definition code_of_match (m : MatchResult) (c : jsstring) : Prop :=
  (exists tok, group m 2 = Some tok /\ euro_token tok /\ c = js "EUR")
  \/ (exists tok, group m 2 = Some tok /\ dollar_token tok /\ c = js "USD")
  \/ (group m 1 = None /\ c = js "USD").

(** The item the loop pushes for a line whose match gives the amount text
    [a] and the currency [c]. *)
Definition item_of (line a : jsstring) (c : option jsstring) : PricingItem :=
  {| label := Some (slice0 120 line);
     amount := Some (StringToNumber (replace_str (js ",") (js ".") a));
     currency := c;
     rawLine := line |}.



(** A product block of the structured pass, and a page of [n] blocks. *)
Definition product_block : jsstring :=
  js "<article data-sku=" ++ [dquote] ++ js "ST-HEAD-X100" ++ [dquote]
  ++ js "><h2 class=" ++ [dquote] ++ js "product-name" ++ [dquote]
  ++ js ">Casque X100</h2><p class=" ++ [dquote] ++ js "product-price"
  ++ [dquote] ++ js " data-price=" ++ [dquote] ++ js "79.90" ++ [dquote]
  ++ js ">79,90 €</p></article>".

Definition product_page (n : nat) : jsstring :=
  List.concat (repeat product_block n).

(** The Number written as the decimal literal [digits]e[scale]. *)
Definition decimal (digits : N) (scale : Z) : number :=
  round_decimal digits scale.

(** The item that the structured pass reads in [product_block]. *)
Definition product_item : Scraping.PricingItem :=
  {| sku := js "ST-HEAD-X100"; name := js "Casque X100";
     price := decimal 799 (-1); Scraping.currency := js "EUR";
     availability := None |}.

(** ** The text of a JSON value *)

Definition hex_val (c : char) : N :=
  if (c <? 58)%N then (c - 48)%N else (c - 87)%N.

(** Reads an escaped string body up to its closing quote: the string and
    the text after the quote. *)
Fixpoint unquote_body (s : jsstring) : option (jsstring * jsstring) :=
  match s with
  | [] => None
  | c :: t =>
      if (c =? 34)%N then Some ([], t)
      else if (c =? 92)%N then
        match t with
        | e :: t1 =>
            if (e =? 117)%N then
              match t1 with
              | h1 :: h2 :: h3 :: h4 :: t2 =>
                  match unquote_body t2 with
                  | Some (v, r) =>
                      Some ((4096 * hex_val h1 + 256 * hex_val h2
                             + 16 * hex_val h3 + hex_val h4)%N :: v, r)
                  | None => None
                  end
              | _ => None
              end
            else
              match unquote_body t1 with
              | Some (v, r) =>
                  Some ((if (e =? 98)%N then 8 else if (e =? 116)%N then 9
                         else if (e =? 110)%N then 10
                         else if (e =? 102)%N then 12
                         else if (e =? 114)%N then 13 else e)%N :: v, r)
              | None => None
              end
        | [] => None
        end
      else
        match unquote_body t with
        | Some (v, r) => Some (c :: v, r)
        | None => None
        end
  end.

(** The code units of the text of a finite Number: digits, the point, the
    exponent mark and the signs. *)
Definition is_number_char (c : char) : bool :=
  (is_digit c || (c =? 46) || (c =? 101) || (c =? 43) || (c =? 45))%N.

(** The amounts that a price can be: finite, not negative, in the
    canonical representation of binary64. *)
Definition amount_ok (x : number) : bool :=
  match x with
  | S754_zero s => negb s
  | S754_finite s m e => negb s && valid_binary prec emax x
  | _ => false
  end.

(** What [Number::toString] guarantees and the proofs below use: distinct
    amounts have distinct texts, made of number characters only. *)
Class NumberText (rt : Runtime) : Prop := {
  NumberToString_inj : forall x y,
    amount_ok x = true -> amount_ok y = true ->
    NumberToString x = NumberToString y -> x = y;
  NumberToString_chars : forall x,
    amount_ok x = true -> forallb is_number_char (NumberToString x) = true
}.

Definition amount_json (o : option number) : json :=
  match o with Some x => JNum x | None => JNull end.

Definition amount_field_ok (o : option number) : Prop :=
  match o with Some x => amount_ok x = true | None => True end.

(** The items whose amount, if any, is a finite non-negative Number. *)
Definition item_ok (it : PricingItem) : Prop := amount_field_ok (amount it).

(** ** A run of the capture route *)

(** The page a request designates, with its key. *)
Definition page_of_request (rawPageId : jsstring) (db : Db.t)
  : option (Z * MonitoredPage.t) :=
  match parsePageId rawPageId with
  | Some id =>
      match Db.key id with
      | Some k => match Db.findMonitoredPage db k with
                  | Some p => Some (k, p)
                  | None => None
                  end
      | None => None
      end
  | None => None
  end.

(** The fetch of the run fails: the network fails or the status is not
    in the 2xx range. *)
Definition fetch_failed (o : FetchOutcome) : Prop :=
  match o with
  | FetchRejected => True
  | FetchResponse status _ => response_ok status = false
  end.

(** The text and the pricing the run stores for a fetched page. *)
Definition new_text (html : jsstring) : jsstring := cleanHtmlToText html.

Definition new_items (html : jsstring) : list PricingItem :=
  extractPricingFromText (Some (new_text html)).

Definition new_pricing (html : jsstring) : option json :=
  if Nat.ltb 0 (List.length (new_items html))
  then Some (pricing_json (new_items html)) else None.

Definition text_changed (oldText newText : jsstring) : bool :=
  negb (str_eqb oldText newText)
  && (Z.ltb 20 (Z.abs (Z.of_nat (List.length newText)
                       - Z.of_nat (List.length oldText)))
      || Nat.eqb (List.length newText) 0).

Section Vocabulary.
Context {rt : Runtime}.

Definition price_changed (oldPricing newPricing : json) : bool :=
  negb (str_eqb (stringify oldPricing) (stringify newPricing))
  && (truthy oldPricing || truthy newPricing).

(** The local time zone has a fixed offset from UTC. *)
Definition fixed_offset : Prop :=
  exists tz, forall t b, LocalTZA t b = tz.

(** The request gives the date [t] in [field]: a non-empty text that
    [Date.parse] reads as the time value [t]. *)
Definition given (field : option jsstring) (t : Z) : Prop :=
  exists text, ReportsRoute.truthy_string field = Some text
               /\ Date_parse text = Some t.

End Vocabulary.

(** The changes a run appends to the table. *)
Definition created (db db' : Db.t) : list Change.t :=
  skipn (List.length (Db.changes db)) (Db.changes db').

(** ** The period of a report *)

(** A date field of the request body is absent (or empty). *)
Definition absent (field : option jsstring) : Prop :=
  ReportsRoute.truthy_string field = None.

(** The time values of Date. *)
Definition in_range (t : Z) : Prop := (Z.abs t <= 8640000000000000)%Z.

(** Seven days, in milliseconds. *)
Definition week : Z := (7 * msPerDay)%Z.

(** ** A run-time for the closed examples

    The local time zone is UTC; the date parser knows the dates of the
    examples; a Number is written as its significand and exponent in
    binary, a text that differs whenever the Number does. *)

Fixpoint binary_digits (p : positive) : jsstring :=
  match p with
  | xH => [49%N]
  | xO q => 48%N :: binary_digits q
  | xI q => 49%N :: binary_digits q
  end.

Definition exponent_text (e : Z) : jsstring :=
  match e with
  | Z0 => [48%N]
  | Zpos p => 43%N :: binary_digits p
  | Zneg p => 45%N :: binary_digits p
  end.

Definition binary_text (x : number) : jsstring :=
  match x with
  | S754_zero _ => [48%N]
  | S754_finite s m e =>
      (if s then [45%N] else []) ++ binary_digits m ++ 101%N :: exponent_text e
  | S754_infinity s => (if s then [45%N] else []) ++ js "Infinity"
  | S754_nan => js "NaN"
  end.

Definition example_dates (s : jsstring) : option Z :=
  if str_eqb s (js "2025-11-02T00:00:00.000Z") then Some 1762041600000%Z
  else if str_eqb s (js "2025-11-30T12:00:00.000Z") then Some 1764504000000%Z
  else None.

Definition example_runtime : Runtime :=
  {| NumberToString := binary_text;
     Date_parse := example_dates;
     LocalTZA := fun _ _ => 0%Z;
     JSON_parse := fun _ => None |}.




(** ** Closed examples *)

Module Example.

Local Open Scope Z_scope.

Definition project : Project.t :=
  {| Project.id := 1; Project.name := js "Veille tarifs";
     Project.description := None |}.

Definition competitor : Competitor.t :=
  {| Competitor.id := 1; Competitor.projectId := 1;
     Competitor.name := js "Acme" |}.

Definition page : MonitoredPage.t :=
  {| MonitoredPage.id := 1; MonitoredPage.competitorId := 1;
     MonitoredPage.url := js "https://acme.example/pricing";
     MonitoredPage.pageType := PRICING |}.

(** A database with the page and no capture yet. *)
Definition db0 : Db.t :=
  {| Db.projects := [project]; Db.competitors := [competitor];
     Db.monitoredPages := [page]; Db.snapshots := []; Db.changes := [];
     Db.reports := []; Db.snapshotSeq := 1; Db.changeSeq := 1;
     Db.reportSeq := 1 |}.

Definition usd_item : ScrapeRoute.PricingItem :=
  {| ScrapeRoute.label := Some (js "$54.90");
     ScrapeRoute.amount := Some (round_decimal 549 (-1));
     ScrapeRoute.currency := Some (js "USD");
     ScrapeRoute.rawLine := js "$54.90" |}.

Definition eur_item : ScrapeRoute.PricingItem :=
  {| ScrapeRoute.label := Some (js "84,90 €");
     ScrapeRoute.amount := Some (round_decimal 849 (-1));
     ScrapeRoute.currency := Some (js "EUR");
     ScrapeRoute.rawLine := js "84,90 €" |}.

(** A prior capture of the page, with the dollar price first. *)
Definition prior : Snapshot.t :=
  {| Snapshot.id := 1; Snapshot.monitoredPageId := 1;
     Snapshot.capturedAt := 1762041600000;
     Snapshot.rawHtml := Some (js "<p>$54.90</p><p>84,90 €</p>");
     Snapshot.extractedText := Some (js "$54.90
84,90 €");
     Snapshot.extractedPricing :=
       Some (ScrapeRoute.pricing_json [usd_item; eur_item]);
     Snapshot.createdAt := 1762041600000 |}.

Definition db1 : Db.t :=
  {| Db.projects := [project]; Db.competitors := [competitor];
     Db.monitoredPages := [page]; Db.snapshots := [prior]; Db.changes := [];
     Db.reports := []; Db.snapshotSeq := 2; Db.changeSeq := 1;
     Db.reportSeq := 1 |}.

(** The page now lists the euro price first, and more text. *)
Definition html : jsstring :=
  js "<html><body><h1>Tarifs</h1><p>84,90 €</p><p>$54.90</p><p>Sans engagement</p></body></html>".

Definition online : ScrapeRoute.World :=
  {| ScrapeRoute.fetch := fun _ => FetchResponse 200%nat html;
     ScrapeRoute.now := 1762128000000; ScrapeRoute.dbNow := 1762128000000 |}.

Definition unavailable : ScrapeRoute.World :=
  {| ScrapeRoute.fetch := fun _ => FetchResponse 503%nat [];
     ScrapeRoute.now := 1762128000000; ScrapeRoute.dbNow := 1762128000000 |}.

(** A change of the page, for the reports. *)
Definition change : Change.t :=
  {| Change.id := 1; Change.monitoredPageId := 1;
     Change.oldSnapshotId := Some 1; Change.newSnapshotId := Some 2;
     Change.changeType := PRICE; Change.field := Some (js "pricing");
     Change.oldValue := None; Change.newValue := None;
     Change.changeSummary := None; Change.createdAt := 1762128000000 |}.

Definition db2 : Db.t :=
  {| Db.projects := [project]; Db.competitors := [competitor];
     Db.monitoredPages := [page]; Db.snapshots := [prior];
     Db.changes := [change]; Db.reports := [];
     Db.snapshotSeq := 3; Db.changeSeq := 2; Db.reportSeq := 1 |}.

(** A server without credential for the synthesis. *)
Definition no_credential : ReportsRoute.World :=
  {| ReportsRoute.OPENAI_API_KEY := None;
     ReportsRoute.clock := fun _ => 1762300000000;
     ReportsRoute.completion := ReportsRoute.CompletionThrew |}.

Definition start_only : ReportsRoute.RequestBody :=
  {| ReportsRoute.periodStart := Some (js "2025-11-02T00:00:00.000Z");
     ReportsRoute.periodEnd := None; ReportsRoute.useAi := None |}.




End Example.

(** ** The normalized text *)

(** [x] occurs in [s] as a run of consecutive code units. *)
Definition occurs (x s : jsstring) : Prop :=
  exists pre post, s = pre ++ x ++ post.

(** A markup tag as [tagRegex] reads it: a [<], one or more code units
    other than [>], and a [>]. *)
Definition is_tag (x : jsstring) : Prop :=
  exists inner, x = js "<" ++ inner ++ js ">"
                /\ inner <> [] /\ ~ In 62%N inner.

(** The first code unit of a text, if any, is not white space. *)
Definition no_leading_space (s : jsstring) : Prop :=
  match s with c :: _ => is_space c = false | [] => True end.

Definition no_trailing_space (s : jsstring) : Prop :=
  no_leading_space (rev s).

(** Every [<] of [s] is followed at once by [>] or by no [>] at all. *)
Fixpoint tagless (s : jsstring) : bool :=
  match s with
  | c :: t =>
      (if (c =? 60)%N
       then match t with
            | d :: _ => (d =? 62)%N || negb (existsb (N.eqb 62) t)
            | [] => true
            end
       else true) && tagless t
  | [] => true
  end.

(** [o] is [s] with some non-empty runs of code units of [ok] replaced by
    [by_]. *)
Inductive replaced (ok : char -> bool) (by_ : jsstring)
  : jsstring -> jsstring -> Prop :=
| replaced_nil : replaced ok by_ [] []
| replaced_keep c s o :
    replaced ok by_ s o -> replaced ok by_ (c :: s) (c :: o)
| replaced_run x s o :
    x <> [] -> forallb ok x = true ->
    replaced ok by_ s o -> replaced ok by_ (x ++ s) (by_ ++ o).

(** The number of leading code units of [s] that are in [q], and the
    texts in which no run of code units of [q] is longer than [k]. *)
Definition lead (q : char -> bool) (s : jsstring) : nat :=
  List.length (fst (span q s)).

Fixpoint runs_le (q : char -> bool) (k : nat) (s : jsstring) : bool :=
  match s with
  | _ :: t => Nat.leb (lead q s) k && runs_le q k t
  | [] => true
  end.

(** ** Numbers and prices *)

(** The sign bit of a Number. *)
Definition negative (x : number) : bool :=
  match x with
  | S754_zero s | S754_infinity s | S754_finite s _ _ => s
  | S754_nan => false
  end.

(** The code units that [parsePriceFromString] keeps: the digits, the
    point and the comma. *)
Definition is_price_char (c : char) : bool :=
  is_digit c || char_eqb c 46%N || char_eqb c 44%N.

(** ** The rows of a capture run *)

(** The tables a capture run does not write. *)
Definition same_catalog (db db' : Db.t) : Prop :=
  Db.projects db' = Db.projects db
  /\ Db.competitors db' = Db.competitors db
  /\ Db.monitoredPages db' = Db.monitoredPages db
  /\ Db.reports db' = Db.reports db.

(** A stored text of at most [n] code units. *)
Definition stored_within (n : nat) (v : option jsstring) : Prop :=
  exists s, v = Some s /\ List.length s <= n.

(** A change of the run for page [k] in world [w], between the prior
    capture [prev] and the new capture [snap]. *)
Definition change_of_run (k : Z) (prev snap : Snapshot.t) (w : World)
    (c : Change.t) : Prop :=
  Change.monitoredPageId c = k
  /\ Change.oldSnapshotId c = Some (Snapshot.id prev)
  /\ Change.newSnapshotId c = Some (Snapshot.id snap)
  /\ Change.createdAt c = dbNow w
  /\ stored_within 2000 (Change.oldValue c)
  /\ stored_within 2000 (Change.newValue c).

(** The captures of page [k] were all taken before time [t]. *)
Definition captured_before (db : Db.t) (k t : Z) : Prop :=
  forall s, In s (Db.snapshots db) -> Snapshot.monitoredPageId s = k ->
            (Snapshot.capturedAt s < t)%Z.

(** ** Lists of rows *)

(** Each element of [l] is related to the next one. *)
Fixpoint sorted_by {A : Type} (R : A -> A -> Prop) (l : list A) : Prop :=
  match l with
  | a :: t => match t with
              | b :: _ => R a b
              | [] => True
              end /\ sorted_by R t
  | [] => True
  end.

(** The changes of page [k]. *)
Definition changes_of_page (db : Db.t) (k : Z) : list Change.t :=
  filter (fun c => Z.eqb (Change.monitoredPageId c) k) (Db.changes db).

(** The project a request designates, with its key. *)
Definition project_of_request (rawId : jsstring) (db : Db.t)
  : option (Z * Project.t) :=
  match ReportsRoute.parseProjectId rawId with
  | Some id =>
      match Db.key id with
      | Some k => match Db.findProject db k with
                  | Some p => Some (k, p)
                  | None => None
                  end
      | None => None
      end
  | None => None
  end.

(** The change [c] refers to the capture of key [i]. *)
Definition refers_to_capture (c : Change.t) (i : Z) : Prop :=
  Change.oldSnapshotId c = Some i \/ Change.newSnapshotId c = Some i.



(** ** Requests for reports *)

(** The synthesis of the run gives no result: the call throws, the
    completion has no content, or its content is not the text of a JSON
    value other than [null]. *)
Definition synthesis_fails {rt : Runtime} (w : ReportsRoute.World) : Prop :=
  ReportsRoute.completion w = ReportsRoute.CompletionThrew
  \/ exists content,
       ReportsRoute.completion w = ReportsRoute.CompletionContent content
       /\ (ReportsRoute.truthy_string content = None
           \/ exists text,
                ReportsRoute.truthy_string content = Some text
                /\ (JSON_parse text = None \/ JSON_parse text = Some JNull)).

(** The tables a report request does not write. *)
Definition same_captures (db db' : Db.t) : Prop :=
  Db.projects db' = Db.projects db
  /\ Db.competitors db' = Db.competitors db
  /\ Db.monitoredPages db' = Db.monitoredPages db
  /\ Db.snapshots db' = Db.snapshots db
  /\ Db.changes db' = Db.changes db.

(** The highlight object the synthesis is asked for, as a JSON value. *)
Definition highlight_json (h : ReportsPage.Highlight) : json :=
  JObj [(js "title", JStr (ReportsPage.title h));
        (js "detail", JStr (ReportsPage.detail h));
        (js "competitor", JStr (ReportsPage.competitor h));
        (js "changeType", JStr (ReportsPage.changeType h));
        (js "impact", JStr (ReportsPage.impact h))].

Module Fixture.

Local Open Scope Z_scope.

(** A server with a credential whose synthesis service is down. *)
Definition service_down : ReportsRoute.World :=
  {| ReportsRoute.OPENAI_API_KEY := Some (js "sk-example");
     ReportsRoute.clock := fun _ => 1762300000000;
     ReportsRoute.completion := ReportsRoute.CompletionThrew |}.

(** A request for the week that ends on 30 November 2025. *)
Definition end_only : ReportsRoute.RequestBody :=
  {| ReportsRoute.periodStart := None;
     ReportsRoute.periodEnd := Some (js "2025-11-30T12:00:00.000Z");
     ReportsRoute.useAi := None |}.

(** A request that asks for no synthesis. *)
Definition without_ai : ReportsRoute.RequestBody :=
  {| ReportsRoute.periodStart := Some (js "2025-11-02T00:00:00.000Z");
     ReportsRoute.periodEnd := None;
     ReportsRoute.useAi := Some false |}.

Definition highlight : ReportsPage.Highlight :=
  {| ReportsPage.title := js "Hausse du plan de base";
     ReportsPage.detail := js "Le plan de base passe de 49 € à 59 €.";
     ReportsPage.competitor := js "Acme";
     ReportsPage.changeType := js "PRICE";
     ReportsPage.impact := js "HIGH" |}.

End Fixture.

(** A change of the prompt without its old and new values. *)
Definition without_values (c : ReportPrompt.ChangeWithPage)
  : ReportPrompt.ChangeWithPage :=
  let ch := ReportPrompt.change c in
  {| ReportPrompt.change :=
       {| Change.id := Change.id ch;
          Change.monitoredPageId := Change.monitoredPageId ch;
          Change.oldSnapshotId := Change.oldSnapshotId ch;
          Change.newSnapshotId := Change.newSnapshotId ch;
          Change.changeType := Change.changeType ch;
          Change.field := Change.field ch;
          Change.oldValue := None;
          Change.newValue := None;
          Change.changeSummary := Change.changeSummary ch;
          Change.createdAt := Change.createdAt ch |};
     ReportPrompt.url := ReportPrompt.url c;
     ReportPrompt.pageType := ReportPrompt.pageType c;
     ReportPrompt.competitorName := ReportPrompt.competitorName c |}.

(** A change of the prompt without the values of which the prompt makes
    no use: the old and the new value of a change that is not a PRICE
    change. *)
Definition without_unused_values (c : ReportPrompt.ChangeWithPage)
  : ReportPrompt.ChangeWithPage :=
  match Change.changeType (ReportPrompt.change c) with
  | PRICE => c
  | _ => without_values c
  end.

(** A TEXT change of the example page, as the query hands it over. *)
Definition text_change_with_page : ReportPrompt.ChangeWithPage :=
  {| ReportPrompt.change :=
       {| Change.id := 2%Z; Change.monitoredPageId := 1%Z;
          Change.oldSnapshotId := Some 1%Z; Change.newSnapshotId := Some 2%Z;
          Change.changeType := TEXT; Change.field := Some (js "content");
          Change.oldValue := Some (js "Tarifs");
          Change.newValue := Some (js "Tarifs 2026");
          Change.changeSummary := None;
          Change.createdAt := 1762128000000%Z |};
     ReportPrompt.url := js "https://acme.example/pricing";
     ReportPrompt.pageType := PRICING;
     ReportPrompt.competitorName := js "Acme" |}.

(** A PRICE change of the same page. *)
Definition price_change_with_page : ReportPrompt.ChangeWithPage :=
  {| ReportPrompt.change :=
       {| Change.id := 3%Z; Change.monitoredPageId := 1%Z;
          Change.oldSnapshotId := Some 1%Z; Change.newSnapshotId := Some 2%Z;
          Change.changeType := PRICE; Change.field := Some (js "pricing");
          Change.oldValue := Some (js "[]");
          Change.newValue := None;
          Change.changeSummary := None;
          Change.createdAt := 1762128000000%Z |};
     ReportPrompt.url := js "https://acme.example/pricing";
     ReportPrompt.pageType := PRICING;
     ReportPrompt.competitorName := js "Acme" |}.

(* ================================================================== *)
(** * Part XV. Properties                                               *)
(* ================================================================== *)

(** ** Strings *)

Lemma str_eqb_eq (a b : jsstring) : str_eqb a b = true <-> a = b.
Proof.
  revert b. induction a as [|x a IH]; intros [|y b]; cbn; split;
    try discriminate; auto.
  - intro H. apply andb_true_iff in H. destruct H as [H1 H2].
    apply N.eqb_eq in H1. apply IH in H2. congruence.
  - intro H. injection H as -> ->. apply andb_true_iff. split.
    + apply N.eqb_refl.
    + apply IH. reflexivity.
Qed.

Lemma str_eqb_neq (a b : jsstring) : str_eqb a b = false <-> a <> b.
Proof.
  rewrite <- str_eqb_eq. destruct (str_eqb a b); split; congruence.
Qed.

Lemma char_eqb_eq a b : char_eqb a b = true <-> a = b.
Proof. apply N.eqb_eq. Qed.

(** ** Facts about the matcher *)

Lemma rep_atom_sound ok greedy : forall rest min max prev pos caps s',
  In s' (rep_atom ok min max greedy prev rest pos caps) ->
  exists x, rest = x ++ m_rest s' /\ m_pos s' = pos + List.length x
            /\ forallb ok x = true /\ min <= List.length x
            /\ m_caps s' = caps.
Proof.
  induction rest as [|c t IH]; intros min max prev pos caps s' Hin.
  - cbn [rep_atom] in Hin.
    assert (Hh : In s' (match min with O => [MState prev [] pos caps] | S _ => [] end)).
    { destruct max as [[|k]|]; destruct greedy; cbn in Hin;
        try rewrite app_nil_r in Hin; exact Hin. }
    destruct min; [|contradiction]. destruct Hh as [<-|[]].
    exists []. cbn. repeat split; auto.
  - cbn [rep_atom] in Hin.
    set (here := match min with O => [MState prev (c :: t) pos caps] | S _ => [] end) in *.
    set (more := match max with Some O => [] | _ => if ok c then rep_atom ok (pred min) (option_map pred max) greedy (Some c) t (S pos) caps else [] end) in *.
    assert (Hor : In s' here \/ In s' more).
    { destruct greedy; apply in_app_or in Hin; tauto. }
    destruct Hor as [Hh|Hm].
    + subst here. destruct min; [|contradiction]. destruct Hh as [<-|[]].
      exists []. cbn. repeat split; auto.
    + subst more.
      assert (Hm' : ok c = true /\ In s' (rep_atom ok (pred min) (option_map pred max) greedy (Some c) t (S pos) caps)).
      { destruct max as [[|k]|]; try contradiction;
          destruct (ok c); try contradiction; auto. }
      destruct Hm' as [Hc Hm']. apply IH in Hm'.
      destruct Hm' as [x [E [P [F [L C]]]]].
      exists (c :: x). cbn [app List.length forallb]. rewrite Hc, <- E.
      repeat split; auto; lia.
Qed.

Lemma rep_atom_complete ok greedy : forall x rest' min max prev pos caps,
  forallb ok x = true -> min <= List.length x ->
  match max with Some k => List.length x <= k | None => True end ->
  exists s', In s' (rep_atom ok min max greedy prev (x ++ rest') pos caps)
             /\ m_rest s' = rest' /\ m_pos s' = pos + List.length x
             /\ m_caps s' = caps.
Proof.
  induction x as [|c x IH]; intros rest' min max prev pos caps Hok Hmin Hmax.
  - cbn [List.length] in Hmin. assert (min = 0) by lia. subst min.
    exists (MState prev rest' pos caps). cbn [app List.length m_rest m_pos m_caps].
    split; [|repeat split; lia].
    destruct rest'; cbn [rep_atom]; destruct greedy; apply in_or_app; cbn; auto.
  - cbn [forallb] in Hok. apply andb_true_iff in Hok. destruct Hok as [Hc Hx].
    cbn [List.length] in Hmin, Hmax.
    destruct (IH rest' (pred min) (option_map pred max) (Some c) (S pos) caps Hx)
      as [s' [Hin [R [P C]]]]; [lia| destruct max as [k|]; cbn; [lia|exact I] |].
    exists s'. split; [|repeat split; auto; cbn [List.length]; lia].
    cbn [app rep_atom]. rewrite Hc.
    assert (Hmore : In s' (match max with
                           | Some 0 => []
                           | _ => rep_atom ok (pred min) (option_map pred max)
                                    greedy (Some c) (x ++ rest') (S pos) caps
                           end)).
    { destruct max as [[|k]|]; auto. lia. }
    destruct greedy; apply in_or_app; auto.
Qed.

Lemma consumed_refl s : consumed s s [].
Proof. split; cbn; auto. Qed.

Lemma consumed_trans s1 s2 s3 x y :
  consumed s1 s2 x -> consumed s2 s3 y -> consumed s1 s3 (x ++ y).
Proof.
  intros [A B] [C D]. split.
  - rewrite A, C, app_assoc. reflexivity.
  - rewrite D, B, length_app. lia.
Qed.

Lemma ms_consumed ic r : forall s s',
  In s' (ms ic r s) -> exists x, consumed s s' x.
Proof.
  induction r; intros s s' Hin; cbn [ms] in Hin.
  - destruct Hin as [<-|[]]. exists []. apply consumed_refl.
  - destruct (m_rest s) as [|c t] eqn:E; [contradiction|].
    destruct (atom_match ic a c); [|contradiction].
    destruct Hin as [<-|[]]. exists [c]. split; cbn; auto. lia.
  - apply in_flat_map in Hin. destruct Hin as [s1 [H1 H2]].
    apply IHr1 in H1. apply IHr2 in H2.
    destruct H1 as [x Hx], H2 as [y Hy]. exists (x ++ y).
    eapply consumed_trans; eauto.
  - apply in_app_or in Hin. destruct Hin; eauto.
  - apply rep_atom_sound in Hin. destruct Hin as [x [E [P _]]].
    exists x. split; auto.
  - apply in_map_iff in Hin. destruct Hin as [s1 [<- H1]].
    apply IHr in H1. destruct H1 as [x [A B]]. exists x. split; auto.
  - destruct (is_word_boundary s); [|contradiction].
    destruct Hin as [<-|[]]. exists []. apply consumed_refl.
Qed.

Lemma ms_no_group ic r : no_group r = true -> forall s s',
  In s' (ms ic r s) -> m_caps s' = m_caps s.
Proof.
  induction r; intros Hng s s' Hin; cbn [ms no_group] in *.
  - destruct Hin as [<-|[]]. reflexivity.
  - destruct (m_rest s) as [|c t]; [contradiction|].
    destruct (atom_match ic a c); [|contradiction].
    destruct Hin as [<-|[]]. reflexivity.
  - apply andb_true_iff in Hng. destruct Hng as [N1 N2].
    apply in_flat_map in Hin. destruct Hin as [s1 [H1 H2]].
    rewrite (IHr2 N2 _ _ H2). apply (IHr1 N1 _ _ H1).
  - apply andb_true_iff in Hng. destruct Hng as [N1 N2].
    apply in_app_or in Hin. destruct Hin; auto.
  - apply rep_atom_sound in Hin. destruct Hin as [x [_ [_ [_ [_ C]]]]]. exact C.
  - discriminate.
  - destruct (is_word_boundary s); [|contradiction].
    destruct Hin as [<-|[]]. reflexivity.
Qed.

Lemma ms_lit_sound : forall l s s',
  In s' (ms true (lit l) s) ->
  exists x, consumed s s' x /\ ci_eq x l /\ m_caps s' = m_caps s.
Proof.
  assert (Hchr : forall c s s', In s' (ms true (chr c) s) ->
            exists x, consumed s s' x /\ ci_eq x [c] /\ m_caps s' = m_caps s).
  { intros c s s' Hin. cbn [ms chr] in Hin.
    destruct (m_rest s) as [|d t] eqn:E; [contradiction|].
    cbn [atom_match] in Hin.
    destruct (char_eqb (upper_char c) (upper_char d)) eqn:Hc; [|contradiction].
    destruct Hin as [<-|[]]. exists [d]. apply char_eqb_eq in Hc.
    repeat split; cbn; auto; try lia. unfold ci_eq. cbn. congruence. }
  induction l as [|c l IH]; intros s s' Hin.
  - cbn in Hin. destruct Hin as [<-|[]]. exists [].
    repeat split; cbn; auto.
  - destruct l as [|c' l'].
    + apply Hchr. exact Hin.
    + change (lit (c :: c' :: l')) with (Seq (chr c) (lit (c' :: l'))) in Hin.
      cbn [ms] in Hin. apply in_flat_map in Hin. destruct Hin as [s1 [H1 H2]].
      apply Hchr in H1. apply IH in H2.
      destruct H1 as [x [Cx [Ex Kx]]], H2 as [y [Cy [Ey Ky]]].
      exists (x ++ y). split; [eapply consumed_trans; eauto|]. split.
      * unfold ci_eq in *. rewrite map_app, Ex, Ey. reflexivity.
      * congruence.
Qed.


Lemma in_ms_seq ic a b s s' :
  In s' (ms ic (Seq a b) s) <-> exists s1, In s1 (ms ic a s) /\ In s' (ms ic b s1).
Proof. cbn [ms]. apply in_flat_map. Qed.

Lemma in_ms_alt ic a b s s' :
  In s' (ms ic (Alt a b) s) <-> In s' (ms ic a s) \/ In s' (ms ic b s).
Proof. cbn [ms]. apply in_app_iff. Qed.

Lemma in_ms_group ic i r s s' :
  In s' (ms ic (Group i r) s) <->
  exists s1, In s1 (ms ic r s)
             /\ s' = MState (m_prev s1) (m_rest s1) (m_pos s1)
                            ((i, (m_pos s, m_pos s1)) :: m_caps s1).
Proof.
  cbn [ms]. rewrite in_map_iff. split; intros [s1 [A B]]; exists s1; auto.
Qed.

Lemma in_ms_rep ic a min max g s s' :
  In s' (ms ic (Rep min max g a) s) ->
  exists x, consumed s s' x /\ forallb (atom_match ic a) x = true
            /\ min <= List.length x /\ m_caps s' = m_caps s.
Proof.
  cbn [ms]. intro H. apply rep_atom_sound in H.
  destruct H as [x [E [P [F [L C]]]]]. exists x. repeat split; auto.
Qed.

Lemma ms_rep_complete ic a min max g s x rest' :
  m_rest s = x ++ rest' -> forallb (atom_match ic a) x = true ->
  min <= List.length x ->
  match max with Some k => List.length x <= k | None => True end ->
  exists s', In s' (ms ic (Rep min max g a) s) /\ m_rest s' = rest'
             /\ m_pos s' = m_pos s + List.length x /\ m_caps s' = m_caps s.
Proof.
  intros E F L M. cbn [ms]. rewrite E. apply rep_atom_complete; auto.
Qed.

Lemma substring_spec rest pos u v r :
  rest = u ++ v ++ r ->
  substring rest pos (pos + List.length u)
            (pos + List.length u + List.length v) = v.
Proof.
  intros ->. unfold substring.
  replace (pos + List.length u - pos) with (List.length u) by lia.
  replace (pos + List.length u + List.length v - (pos + List.length u))
    with (List.length v) by lia.
  rewrite skipn_app, skipn_all, Nat.sub_diag. cbn [skipn app].
  rewrite firstn_app, firstn_all, Nat.sub_diag. cbn [firstn].
  apply app_nil_r.
Qed.

Lemma search_sound re : forall rest prev pos m,
  search re prev rest pos = Some m ->
  exists pre rest' prev',
    rest = pre ++ rest'
    /\ match_at re prev' rest' (pos + List.length pre) = Some m.
Proof.
  induction rest as [|c t IH]; intros prev pos m H; cbn [search] in H.
  - destruct (match_at re prev [] pos) eqn:E; [|discriminate].
    injection H as <-. exists [], [], prev. cbn. rewrite Nat.add_0_r. auto.
  - destruct (match_at re prev (c :: t) pos) eqn:E.
    + injection H as <-. exists [], (c :: t), prev. cbn.
      rewrite Nat.add_0_r. auto.
    + apply IH in H. destruct H as [pre [rest' [prev' [A B]]]].
      exists (c :: pre), rest', prev'. cbn [app List.length]. rewrite A.
      split; [reflexivity|]. rewrite <- B. f_equal. lia.
Qed.


Lemma match_at_inv re prev rest pos m :
  match_at re prev rest pos = Some m ->
  exists s', In s' (ms (ignoreCase re) (source re) (MState prev rest pos []))
    /\ m = {| index := pos; endIndex := m_pos s';
              matched := substring rest pos pos (m_pos s');
              captures :=
                map (fun c => (fst c,
                               substring rest pos (fst (snd c)) (snd (snd c))))
                    (m_caps s') |}.
Proof.
  unfold match_at. destruct (ms _ _ _) as [|s' l] eqn:E; [discriminate|].
  intro H. injection H as <-. exists s'. split; [left; reflexivity|reflexivity].
Qed.

Lemma match_at_complete re prev rest pos s' :
  In s' (ms (ignoreCase re) (source re) (MState prev rest pos [])) ->
  match_at re prev rest pos <> None.
Proof.
  unfold match_at. destruct (ms _ _ _); [contradiction|discriminate].
Qed.

Lemma match_unfold line re :
  global re = false -> match_ line re = search re None line 0.
Proof.
  intro G. unfold match_, exec. rewrite G. cbn [Nat.ltb Nat.leb char_before skipn].
  reflexivity.
Qed.

Lemma ci_eq_length x l : ci_eq x l -> List.length x = List.length l.
Proof.
  unfold ci_eq. intro E. apply (f_equal (@List.length _)) in E.
  rewrite !length_map in E. exact E.
Qed.

(** ** The price pattern *)

Lemma ms_token_sound s s' :
  In s' (ms true currencyPattern s) ->
  exists x, consumed s s' x /\ is_token x /\ m_caps s' = m_caps s.
Proof.
  unfold currencyPattern. cbn [alts]. intro H.
  repeat (apply in_ms_alt in H; destruct H as [H|H]);
    apply ms_lit_sound in H; destruct H as [x [C [E K]]];
    exists x; (split; [exact C|split; [|exact K]]);
    eexists; (split; [|exact E]); cbn; auto 10.
Qed.


Lemma ms_amount_sound s s' :
  In s' (ms true amountPattern s) ->
  exists x, consumed s s' x /\ x <> [] /\ m_caps s' = m_caps s.
Proof.
  unfold amountPattern. cbn [seqs]. intro H.
  apply in_ms_seq in H. destruct H as [s1 [H1 H]].
  apply in_ms_seq in H. destruct H as [s2 [H2 H3]].
  apply in_ms_rep in H1. destruct H1 as [x1 [C1 [_ [L1 K1]]]].
  apply in_ms_rep in H2. destruct H2 as [x2 [C2 [_ [_ K2]]]].
  apply in_ms_rep in H3. destruct H3 as [x3 [C3 [_ [_ K3]]]].
  exists (x1 ++ x2 ++ x3). split.
  - eapply consumed_trans; [exact C1|]. eapply consumed_trans; eauto.
  - split; [|congruence]. destruct x1; [cbn in L1; lia|discriminate].
Qed.


Lemma priceRegex_sound line m :
  match_ line priceRegex = Some m -> price_match m.
Proof.
  rewrite match_unfold by reflexivity. intro H.
  apply search_sound in H. destruct H as [pre [rest [prev [_ H]]]].
  apply match_at_inv in H. destruct H as [s' [Hin ->]].
  set (pos := 0 + List.length pre) in *. clearbody pos.
  set (s0 := MState prev rest pos []) in *.
  change (ignoreCase priceRegex) with true in Hin.
  change (source priceRegex) with
    (Alt (Seq (Group 1 amountPattern) (Seq (star space) (Group 2 currencyPattern)))
         (Seq (Group 3 (lit (js "$"))) (Seq (star space) (Group 4 amountPattern))))
    in Hin.
  apply in_ms_alt in Hin. destruct Hin as [Hin|Hin].
  - apply in_ms_seq in Hin. destruct Hin as [s1 [H1 Hin]].
    apply in_ms_seq in Hin. destruct Hin as [s2 [H2 H3]].
    apply in_ms_group in H1. destruct H1 as [s1a [H1 E1]].
    apply ms_amount_sound in H1. destruct H1 as [xa [Ca [Na Ka]]].
    apply in_ms_rep in H2. destruct H2 as [w [Cw [_ [_ Kw]]]].
    apply in_ms_group in H3. destruct H3 as [s3 [H3 E3]].
    apply ms_token_sound in H3. destruct H3 as [xt [Ct [Tt Kt]]].
    assert (Cw1 : consumed s1a s2 w).
    { destruct Cw as [A B]. subst s1. cbn in *. split; auto. }
    assert (Kw1 : m_caps s2 = [(1, (pos, m_pos s1a))]).
    { rewrite Kw. subst s1. cbn. rewrite Ka. reflexivity. }
    destruct Ca as [Ra Pa], Cw1 as [Rw Pw], Ct as [Rt Pt].
    cbn [m_rest m_pos s0] in Ra, Pa.
    apply amount_then_currency with (a := xa) (tok := xt); auto.
    + subst s'. cbn [group captures assoc m_caps map fst snd Nat.eqb].
      rewrite Kt, Kw1. cbn [map fst snd assoc Nat.eqb].
      f_equal. rewrite Pa.
      replace pos with (pos + List.length (@nil char)) at 2 by (cbn; lia).
      replace (pos + List.length xa)
        with (pos + List.length (@nil char) + List.length xa) by (cbn; lia).
      apply substring_spec with (r := m_rest s1a). cbn. exact Ra.
    + subst s'. cbn [group captures assoc m_caps map fst snd Nat.eqb].
      f_equal. rewrite Pt, Pw, Pa.
      replace (pos + List.length xa + List.length w)
        with (pos + List.length (xa ++ w)) by (rewrite length_app; lia).
      apply substring_spec with (r := m_rest s3).
      rewrite Ra, Rw, Rt, <- app_assoc. reflexivity.
  - apply in_ms_seq in Hin. destruct Hin as [s1 [H1 Hin]].
    apply in_ms_seq in Hin. destruct Hin as [s2 [H2 H3]].
    apply in_ms_group in H1. destruct H1 as [s1a [H1 E1]].
    apply ms_lit_sound in H1. destruct H1 as [xd [Cd [Ed Kd]]].
    apply in_ms_rep in H2. destruct H2 as [w [Cw [_ [_ Kw]]]].
    apply in_ms_group in H3. destruct H3 as [s3 [H3 E3]].
    apply ms_amount_sound in H3. destruct H3 as [xa [Ca [Na Ka]]].
    assert (Cw1 : consumed s1a s2 w).
    { destruct Cw as [A B]. subst s1. cbn in *. split; auto. }
    assert (Kw1 : m_caps s2 = [(3, (pos, m_pos s1a))]).
    { rewrite Kw. subst s1. cbn. rewrite Kd. reflexivity. }
    destruct Cd as [Rd Pd], Cw1 as [Rw Pw], Ca as [Ra Pa].
    cbn [m_rest m_pos s0] in Rd, Pd.
    apply dollar_then_amount with (d := xd) (a := xa); auto.
    + subst s'. cbn [group captures assoc m_caps map fst snd Nat.eqb].
      rewrite Ka, Kw1. reflexivity.
    + subst s'. cbn [group captures assoc m_caps map fst snd Nat.eqb].
      rewrite Ka, Kw1. cbn [map fst snd assoc Nat.eqb].
      f_equal. rewrite Pd.
      replace pos with (pos + List.length (@nil char)) at 2 by (cbn; lia).
      replace (pos + List.length xd)
        with (pos + List.length (@nil char) + List.length xd) by (cbn; lia).
      apply substring_spec with (r := m_rest s1a). cbn. exact Rd.
    + unfold ci_eq in Ed. destruct xd; [discriminate|discriminate].
    + subst s'. cbn [group captures assoc m_caps map fst snd Nat.eqb].
      f_equal. rewrite Pa, Pw, Pd.
      replace (pos + List.length xd + List.length w)
        with (pos + List.length (xd ++ w)) by (rewrite length_app; lia).
      apply substring_spec with (r := m_rest s3).
      rewrite Rd, Rw, Ra, <- app_assoc. reflexivity.
Qed.

Lemma truthy_capture_some m i v :
  group m i = Some v -> v <> [] -> truthy_capture m i = Some v.
Proof.
  intros E N. unfold truthy_capture. rewrite E. destruct v; congruence.
Qed.

Lemma truthy_capture_none m i :
  group m i = None -> truthy_capture m i = None.
Proof. intro E. unfold truthy_capture. rewrite E. reflexivity. Qed.

Lemma is_token_nonempty tok : is_token tok -> tok <> [].
Proof.
  intros [l [Hl E]] ->. unfold ci_eq in E. cbn [map] in E.
  cbn [currency_tokens In] in Hl.
  repeat (destruct Hl as [<-|Hl]; [discriminate|]). contradiction.
Qed.

Lemma code_of_match_codes m c :
  code_of_match m c -> c = js "EUR" \/ c = js "USD".
Proof. intros [[t [_ [_ H]]]|[[t [_ [_ H]]]|[_ H]]]; auto. Qed.

Lemma currency_of_token tok :
  is_token tok ->
  let cur := toUpperCase tok in
  (euro_token tok
   /\ (if str_eqb cur (js "€") || str_eqb cur (js "EURO")
          || str_eqb cur (js "EUR")
       then js "EUR"
       else if str_eqb cur (js "$") || str_eqb cur (js "USD")
       then js "USD" else cur) = js "EUR")
  \/ (dollar_token tok
      /\ (if str_eqb cur (js "€") || str_eqb cur (js "EURO")
             || str_eqb cur (js "EUR")
          then js "EUR"
          else if str_eqb cur (js "$") || str_eqb cur (js "USD")
          then js "USD" else cur) = js "USD").
Proof.
  intros [l [Hl E]]. cbv zeta. unfold toUpperCase.
  unfold euro_token, dollar_token.
  cbn [currency_tokens In] in Hl.
  destruct Hl as [<-|[<-|[<-|[<-|[<-|[]]]]]]; pose proof E as E';
    unfold ci_eq in E'; rewrite E';
    [left|left|left|right|right]; (split; [tauto|reflexivity]).
Qed.

Lemma amount_and_currency_code m :
  price_match m ->
  exists a c, amount_and_currency m = (Some a, Some c) /\ a <> []
              /\ code_of_match m c.
Proof.
  intros [a tok G1 Na G2 Ht | d a G1 G3 Nd G4 Na]; unfold amount_and_currency.
  - rewrite (truthy_capture_some m 1 a G1 Na).
    rewrite (truthy_capture_some m 2 tok G2 (is_token_nonempty tok Ht)).
    exists a. destruct (currency_of_token tok Ht) as [[Ht' ->]|[Ht' ->]];
      eexists; (split; [reflexivity|split; [exact Na|]]).
    + left. eauto.
    + right. left. eauto.
  - rewrite (truthy_capture_none m 1 G1).
    rewrite (truthy_capture_some m 3 d G3 Nd), (truthy_capture_some m 4 a G4 Na).
    exists a, (js "USD"). repeat split; auto. right. right. auto.
Qed.

Lemma price_loop_items : forall lines items it,
  In it (price_loop lines items) ->
  In it items
  \/ exists line m a c,
       In line lines /\ match_ line priceRegex = Some m
       /\ amount_and_currency m = (Some a, c)
       /\ isFinite (StringToNumber (replace_str (js ",") (js ".") a)) = true
       /\ it = item_of line a c.
Proof.
  induction lines as [|line rest IH]; intros items it Hin;
    cbn [price_loop] in Hin.
  - auto.
  - destruct (Nat.leb MAX_ITEMS (List.length items)); [auto|].
    assert (Hrest : forall items', In it (price_loop rest items') ->
              (In it items' -> In it items \/
                 exists line0 m a c, In line0 (line :: rest)
                   /\ match_ line0 priceRegex = Some m
                   /\ amount_and_currency m = (Some a, c)
                   /\ isFinite (StringToNumber (replace_str (js ",") (js ".") a)) = true
                   /\ it = item_of line0 a c) ->
              In it items \/
                 exists line0 m a c, In line0 (line :: rest)
                   /\ match_ line0 priceRegex = Some m
                   /\ amount_and_currency m = (Some a, c)
                   /\ isFinite (StringToNumber (replace_str (js ",") (js ".") a)) = true
                   /\ it = item_of line0 a c).
    { intros items' H K. apply IH in H. destruct H as [H|H]; [auto|].
      right. destruct H as [l0 [m [a [c [A B]]]]]. exists l0, m, a, c.
      split; [right; exact A|exact B]. }
    destruct (match_ line priceRegex) as [m|] eqn:Em; [|apply (Hrest items); auto].
    destruct (amount_and_currency m) as [[a|] c] eqn:Ea; [|apply (Hrest items); auto].
    destruct (isFinite (StringToNumber (replace_str (js ",") (js ".") a))) eqn:Ef;
      cbn [negb] in Hin; [|apply (Hrest items); auto].
    apply Hrest in Hin; [exact Hin|]. intro H. apply in_app_or in H.
    destruct H as [H|[<-|[]]]; [auto|]. right.
    exists line, m, a, c. repeat split; auto. left; reflexivity.
Qed.


(** ** The loop of the structured pass ends *)

(** A match of the article pattern is not empty and lies in the text. *)
Lemma exec_article_advances html lastIndex m :
  exec articleRegex html lastIndex = Some m ->
  lastIndex < endIndex m <= List.length html.
Proof.
  unfold exec. cbn [global articleRegex].
  destruct (Nat.ltb (List.length html) lastIndex) eqn:Hlt; [discriminate|].
  apply Nat.ltb_ge in Hlt. intro H.
  apply search_sound in H. destruct H as [pre [rest [prev [Hs H]]]].
  apply match_at_inv in H. destruct H as [s' [Hin ->]]. cbn [endIndex].
  change (source articleRegex) with
    (Seq (lit (js "<article"))
         (seqs [WordB; star (none_of (js ">"));
                lit (js "data-sku=" ++ [dquote]);
                Group 1 (plus (none_of [dquote])); lit [dquote];
                star (none_of (js ">")); lit (js ">");
                Group 2 (lazy_star any); lit (js "</article>")])) in Hin.
  change (ignoreCase articleRegex) with true in Hin.
  apply in_ms_seq in Hin. destruct Hin as [s1 [H1 H2]].
  apply ms_lit_sound in H1. destruct H1 as [x [[Rx Px] [Ex _]]].
  apply ms_consumed in H2. destruct H2 as [y [Ry Py]].
  apply ci_eq_length in Ex. cbn [m_rest m_pos] in Rx, Px.
  assert (Hlen : List.length (skipn lastIndex html)
                 = List.length pre + List.length x + List.length y
                   + List.length (m_rest s')).
  { rewrite Hs, Rx, Ry, !length_app. lia. }
  rewrite length_skipn in Hlen.
  change (List.length (js "<article")) with 8 in Ex. lia.
Qed.

Lemma extract_loop_fuel : forall fuel html lastIndex items,
  List.length html < lastIndex + fuel ->
  extract_loop (S fuel) html lastIndex items
  = extract_loop fuel html lastIndex items.
Proof.
  induction fuel as [|fuel IH]; intros html lastIndex items Hf.
  - cbn [extract_loop].
    destruct (exec articleRegex html lastIndex) as [m|] eqn:E; [|reflexivity].
    apply exec_article_advances in E. lia.
  - change (extract_loop (S (S fuel)) html lastIndex items)
      with (match exec articleRegex html lastIndex with
            | None => items
            | Some articleMatch =>
                extract_loop (S fuel) html (endIndex articleMatch)
                  (match articleItem articleMatch with
                   | Some it => items ++ [it]
                   | None => items
                   end)
            end).
    change (extract_loop (S fuel) html lastIndex items)
      with (match exec articleRegex html lastIndex with
            | None => items
            | Some articleMatch =>
                extract_loop fuel html (endIndex articleMatch)
                  (match articleItem articleMatch with
                   | Some it => items ++ [it]
                   | None => items
                   end)
            end).
    destruct (exec articleRegex html lastIndex) as [m|] eqn:E; [|reflexivity].
    apply exec_article_advances in E. apply IH. lia.
Qed.

(** With more iterations allowed than [extractPricingFromHtml] allows,
    the loop returns the same items: its bound is never what ends it. *)
Lemma extractPricingFromHtml_fuel html extra :
  extract_loop (extra + S (List.length html)) html 0 []
  = extractPricingFromHtml html.
Proof.
  unfold extractPricingFromHtml. induction extra as [|extra IH]; [reflexivity|].
  cbn [Nat.add]. rewrite extract_loop_fuel by lia. exact IH.
Qed.

(** ** [JSON.stringify] separates values *)

Lemma hex_val_digit n : (n < 16)%N -> hex_val (hex_digit n) = n.
Proof.
  intro H. unfold hex_val, hex_digit.
  destruct (n <? 10)%N eqn:E.
  - apply N.ltb_lt in E.
    replace (48 + n <? 58)%N with true by (symmetry; apply N.ltb_lt; lia). lia.
  - apply N.ltb_ge in E.
    replace (87 + n <? 58)%N with false by (symmetry; apply N.ltb_ge; lia). lia.
Qed.

Lemma unquote_unicode_escape c v r s :
  (c < 65536)%N -> unquote_body s = Some (v, r) ->
  unquote_body (unicode_escape c ++ s) = Some (c :: v, r).
Proof.
  intros Hc Hs. unfold unicode_escape.
  cbn [app unquote_body]. cbn [N.eqb Pos.eqb]. rewrite Hs.
  rewrite !hex_val_digit by (apply N.mod_lt; discriminate).
  do 2 f_equal. f_equal.
  assert (E := N.div_mod c 16 ltac:(discriminate)).
  assert (E1 := N.div_mod (c / 16) 16 ltac:(discriminate)).
  assert (E2 := N.div_mod (c / 16 / 16) 16 ltac:(discriminate)).
  assert (L := N.mod_lt c 16 ltac:(discriminate)).
  assert (L1 := N.mod_lt (c / 16) 16 ltac:(discriminate)).
  assert (L2 := N.mod_lt (c / 16 / 16) 16 ltac:(discriminate)).
  assert (D1 : (c / 256 = c / 16 / 16)%N) by (rewrite N.Div0.div_div; reflexivity).
  assert (D2 : (c / 4096 = c / 16 / 16 / 16)%N) by (rewrite !N.Div0.div_div; reflexivity).
  assert (L3 : (c / 16 / 16 / 16 < 16)%N).
  { rewrite <- D2. apply N.Div0.div_lt_upper_bound. lia. }
  rewrite D1, D2. rewrite (N.mod_small (c / 16 / 16 / 16) 16 L3). lia.
Qed.

Lemma unquote_literal c v r s :
  c <> 34%N -> c <> 92%N -> unquote_body s = Some (v, r) ->
  unquote_body (c :: s) = Some (c :: v, r).
Proof.
  intros H1 H2 Hs. cbn [unquote_body].
  apply N.eqb_neq in H1, H2. rewrite H1, H2, Hs. reflexivity.
Qed.

Lemma unquote_escape_char c v r s :
  unquote_body s = Some (v, r) ->
  unquote_body (escape_char c ++ s) = Some (c :: v, r).
Proof.
  intro Hs. unfold escape_char.
  repeat match goal with
         | |- context [(c =? ?k)%N] =>
             destruct (N.eqb_spec c k);
             [subst c; cbn [app unquote_body N.eqb Pos.eqb]; rewrite Hs;
              reflexivity|]
         end.
  destruct (c <? 32)%N eqn:E.
  - apply N.ltb_lt in E. apply unquote_unicode_escape; [lia|exact Hs].
  - cbn [app]. apply unquote_literal; auto.
Qed.

Lemma unquote_quote_body : forall n s r,
  List.length s <= n ->
  unquote_body (quote_body s ++ 34%N :: r) = Some (s, r).
Proof.
  induction n as [|n IH]; intros s r Hn.
  - destruct s; [reflexivity|cbn in Hn; lia].
  - destruct s as [|c t]; [reflexivity|]. cbn [List.length] in Hn.
    cbn [quote_body].
    destruct (is_high_surrogate c) eqn:Hh.
    + unfold is_high_surrogate in Hh. apply andb_true_iff in Hh.
      destruct Hh as [Ha Hb]. apply N.leb_le in Ha, Hb.
      destruct t as [|d t'].
      * rewrite <- (app_nil_r (unicode_escape c)), <- app_assoc.
        apply unquote_unicode_escape; [lia|reflexivity].
      * destruct (is_low_surrogate d) eqn:Hl.
        -- unfold is_low_surrogate in Hl. apply andb_true_iff in Hl.
           destruct Hl as [Hc Hd]. apply N.leb_le in Hc, Hd.
           cbn [app List.length] in *.
           apply unquote_literal; [lia|lia|].
           apply unquote_literal; [lia|lia|].
           apply IH. lia.
        -- rewrite <- app_assoc. apply unquote_unicode_escape; [lia|].
           apply IH. lia.
    + destruct (is_low_surrogate c) eqn:Hl.
      * unfold is_low_surrogate in Hl. apply andb_true_iff in Hl.
        destruct Hl as [Hc Hd]. apply N.leb_le in Hc, Hd.
        rewrite <- app_assoc. apply unquote_unicode_escape; [lia|].
        apply IH. lia.
      * rewrite <- app_assoc. apply unquote_escape_char. apply IH. lia.
Qed.

(** Two quoted strings followed by any texts are equal only if the
    strings and the texts are. *)
Lemma QuoteJSONString_inj a b r1 r2 :
  QuoteJSONString a ++ r1 = QuoteJSONString b ++ r2 -> a = b /\ r1 = r2.
Proof.
  unfold QuoteJSONString. intro H. cbn [app] in H. injection H as H.
  rewrite <- !app_assoc in H. cbn [app] in H.
  assert (Ha := unquote_quote_body (List.length a) a r1 (le_n _)).
  assert (Hb := unquote_quote_body (List.length b) b r2 (le_n _)).
  pose proof (eq_trans (eq_sym Ha) (eq_trans (f_equal unquote_body H) Hb)) as E.
  injection E as -> ->. auto.
Qed.

Lemma amount_ok_finite x : amount_ok x = true -> isFinite x = true.
Proof. destruct x; cbn; auto. Qed.

Lemma span_number_text (a b r1 r2 : jsstring) (c1 c2 : char) :
  forallb is_number_char a = true -> forallb is_number_char b = true ->
  is_number_char c1 = false -> is_number_char c2 = false ->
  a ++ c1 :: r1 = b ++ c2 :: r2 -> a = b /\ c1 :: r1 = c2 :: r2.
Proof.
  revert b. induction a as [|x a IH]; intros b Ha Hb H1 H2 E.
  - destruct b as [|y b]; [auto|]. cbn in E, Hb. injection E as -> _.
    apply andb_true_iff in Hb. destruct Hb as [Hb _]. congruence.
  - destruct b as [|y b].
    + cbn in E, Ha. injection E as -> _.
      apply andb_true_iff in Ha. destruct Ha as [Ha _]. congruence.
    + cbn in E, Ha, Hb. injection E as -> E.
      apply andb_true_iff in Ha, Hb. destruct Ha as [_ Ha], Hb as [_ Hb].
      destruct (IH b Ha Hb H1 H2 E) as [-> R]. auto.
Qed.

Section PricingText.
Context {rt : Runtime} {nt : NumberText rt}.

Lemma string_field_inj o1 o2 r1 r2 :
  stringify (json_of_string o1) ++ r1 = stringify (json_of_string o2) ++ r2 ->
  o1 = o2 /\ r1 = r2.
Proof.
  destruct o1 as [a|], o2 as [b|]; cbn [json_of_string stringify]; intro H.
  - apply QuoteJSONString_inj in H. destruct H as [-> ->]. auto.
  - discriminate H.
  - discriminate H.
  - cbn in H. injection H as ->. auto.
Qed.

Lemma amount_field_inj o1 o2 r1 r2 :
  amount_field_ok o1 -> amount_field_ok o2 ->
  stringify (amount_json o1) ++ 44%N :: r1
  = stringify (amount_json o2) ++ 44%N :: r2 ->
  o1 = o2 /\ r1 = r2.
Proof.
  assert (Hnull : forall x r r', amount_ok x = true ->
            NumberToString x ++ 44%N :: r = js "null" ++ 44%N :: r' -> False).
  { intros x r r' Hx E. pose proof (NumberToString_chars x Hx) as Hc.
    destruct (NumberToString x) as [|c t]; [discriminate E|].
    cbn in E. injection E as -> _. cbn in Hc. discriminate Hc. }
  destruct o1 as [x|], o2 as [y|]; cbn [amount_field_ok amount_json stringify];
    intros Hx Hy H.
  - rewrite (amount_ok_finite x Hx), (amount_ok_finite y Hy) in H.
    apply span_number_text in H;
      try (apply NumberToString_chars; assumption); try reflexivity.
    destruct H as [E R]. injection R as ->.
    rewrite (NumberToString_inj x y Hx Hy E). auto.
  - rewrite (amount_ok_finite x Hx) in H. exfalso. eapply Hnull; eauto.
  - rewrite (amount_ok_finite y Hy) in H. exfalso. eapply Hnull; eauto.
  - cbn in H. injection H as ->. auto.
Qed.

Lemma stringify_item it :
  stringify (item_json it)
  = js "{" ++ QuoteJSONString (js "label") ++ js ":"
    ++ stringify (json_of_string (label it)) ++ js ","
    ++ QuoteJSONString (js "amount") ++ js ":"
    ++ stringify (amount_json (amount it)) ++ js ","
    ++ QuoteJSONString (js "currency") ++ js ":"
    ++ stringify (json_of_string (currency it)) ++ js ","
    ++ QuoteJSONString (js "rawLine") ++ js ":"
    ++ QuoteJSONString (rawLine it) ++ js "}".
Proof.
  unfold item_json. cbn [stringify map join].
  rewrite <- !app_assoc. reflexivity.
Qed.

Lemma amount_field_inj' o1 o2 r1 r2 :
  amount_field_ok o1 -> amount_field_ok o2 ->
  stringify (amount_json o1) ++ js "," ++ r1
  = stringify (amount_json o2) ++ js "," ++ r2 ->
  o1 = o2 /\ r1 = r2.
Proof. apply amount_field_inj. Qed.

Lemma item_text_inj a b r1 r2 :
  item_ok a -> item_ok b ->
  stringify (item_json a) ++ r1 = stringify (item_json b) ++ r2 ->
  a = b /\ r1 = r2.
Proof.
  intros Ha Hb H. rewrite !stringify_item in H.
  rewrite <- !app_assoc in H.
  do 3 apply app_inv_head in H.
  apply string_field_inj in H. destruct H as [El H].
  do 3 apply app_inv_head in H.
  apply amount_field_inj' in H; auto. destruct H as [Ea H].
  do 2 apply app_inv_head in H.
  apply string_field_inj in H. destruct H as [Ec H].
  do 3 apply app_inv_head in H.
  apply QuoteJSONString_inj in H. destruct H as [Er H].
  apply app_inv_head in H.
  destruct a, b. cbn in *. subst. auto.
Qed.

Lemma item_text_head it :
  exists t, stringify (item_json it) = 123%N :: t.
Proof. rewrite stringify_item. eexists. reflexivity. Qed.

Lemma join_items_inj : forall l1 l2 r1 r2,
  Forall item_ok l1 -> Forall item_ok l2 ->
  join (js ",") (map stringify (map item_json l1)) ++ js "]" ++ r1
  = join (js ",") (map stringify (map item_json l2)) ++ js "]" ++ r2 ->
  l1 = l2 /\ r1 = r2.
Proof.
  induction l1 as [|a t1 IH]; intros l2 r1 r2 H1 H2 E.
  - destruct l2 as [|b t2].
    + cbn in E. injection E as ->. auto.
    + exfalso. destruct (item_text_head b) as [t Hb].
      cbn [map join] in E. destruct (map stringify (map item_json t2));
        rewrite Hb in E; discriminate E.
  - destruct l2 as [|b t2].
    + exfalso. destruct (item_text_head a) as [t Ha].
      cbn [map join] in E. destruct (map stringify (map item_json t1));
        rewrite Ha in E; discriminate E.
    + inversion H1 as [|? ? Ha H1']. inversion H2 as [|? ? Hb H2']. subst.
      assert (J : forall (x : PricingItem) t r,
                join (js ",") (map stringify (map item_json (x :: t))) ++ js "]" ++ r
                = stringify (item_json x)
                  ++ match t with
                     | [] => js "]" ++ r
                     | _ => js "," ++ join (js ",") (map stringify (map item_json t))
                            ++ js "]" ++ r
                     end).
      { intros x t r. destruct t as [|y t]; [reflexivity|].
        cbn [map join]. rewrite <- !app_assoc. reflexivity. }
      rewrite !J in E. apply item_text_inj in E; auto.
      destruct E as [-> E].
      destruct t1 as [|a1 t1], t2 as [|b1 t2].
      * injection E as ->. auto.
      * discriminate E.
      * discriminate E.
      * apply app_inv_head in E. apply IH in E; auto.
        destruct E as [-> ->]. auto.
Qed.

(** Two lists of items with the same serialization are the same list:
    the comparison of serialized pricing lists is a comparison of the
    lists, order included. *)
Lemma pricing_text_inj l1 l2 :
  Forall item_ok l1 -> Forall item_ok l2 ->
  stringify (pricing_json l1) = stringify (pricing_json l2) -> l1 = l2.
Proof.
  intros H1 H2 E. unfold pricing_json in E. cbn [stringify] in E.
  apply app_inv_head in E.
  assert (E' : join (js ",") (map stringify (map item_json l1)) ++ js "]" ++ []
               = join (js ",") (map stringify (map item_json l2)) ++ js "]" ++ []).
  { rewrite !app_nil_r. exact E. }
  apply join_items_inj in E'; auto. tauto.
Qed.

End PricingText.

(** ** The example run-time *)

Lemma binary_digits_inj : forall p q r1 r2,
  binary_digits p ++ 101%N :: r1 = binary_digits q ++ 101%N :: r2 ->
  p = q /\ r1 = r2.
Proof.
  induction p as [p IH|p IH|]; intros [q|q|] r1 r2 E; cbn in E;
    try discriminate E;
    try (injection E as E; apply IH in E; destruct E as [-> ->]; auto);
    try (injection E as E; destruct p; discriminate E);
    try (injection E as E; destruct q; discriminate E).
  injection E as ->. auto.
Qed.

Lemma binary_digits_inj' p q : binary_digits p = binary_digits q -> p = q.
Proof.
  intro E.
  assert (E' : binary_digits p ++ 101%N :: [] = binary_digits q ++ 101%N :: [])
    by (rewrite E; reflexivity).
  apply binary_digits_inj in E'. tauto.
Qed.

Lemma exponent_text_inj e1 e2 : exponent_text e1 = exponent_text e2 -> e1 = e2.
Proof.
  destruct e1 as [|p|p], e2 as [|q|q]; cbn; intro E; try discriminate E; auto;
    try (injection E as E; apply binary_digits_inj' in E; congruence);
    try (injection E as E; destruct p; discriminate E);
    try (injection E as E; destruct q; discriminate E).
Qed.

Lemma example_number_text : NumberText example_runtime.
Proof.
  split.
  - intros x y Hx Hy E. cbn [NumberToString example_runtime] in E.
    destruct x as [sx| | |sx mx ex], y as [sy| | |sy my ey]; try discriminate;
      cbn [amount_ok] in Hx, Hy.
    + destruct sx, sy; try discriminate. reflexivity.
    + exfalso. apply andb_true_iff in Hy. destruct Hy as [Hy _].
      destruct sy; [discriminate|]. cbn in E.
      destruct my; cbn in E; try discriminate E;
        injection E as E; destruct my; discriminate E.
    + exfalso. apply andb_true_iff in Hx. destruct Hx as [Hx _].
      destruct sx; [discriminate|]. cbn in E.
      destruct mx; cbn in E; try discriminate E;
        injection E as E; destruct mx; discriminate E.
    + apply andb_true_iff in Hx, Hy. destruct Hx as [Hx _], Hy as [Hy _].
      destruct sx, sy; try discriminate. cbn [binary_text app] in E.
      apply binary_digits_inj in E. destruct E as [-> E].
      apply exponent_text_inj in E. subst. reflexivity.
  - intros x Hx. cbn [NumberToString example_runtime].
    destruct x as [s| | |s m e]; try discriminate; [reflexivity|].
    cbn [amount_ok] in Hx. apply andb_true_iff in Hx. destruct Hx as [Hx _].
    destruct s; [discriminate|]. cbn [binary_text app].
    rewrite forallb_app. apply andb_true_iff. split.
    + clear. induction m; cbn; auto.
    + cbn [forallb]. apply andb_true_iff. split; [reflexivity|].
      destruct e as [|p|p]; cbn; auto; clear; induction p; cbn; auto.
Qed.

Lemma example_fixed_offset : @fixed_offset example_runtime.
Proof. exists 0%Z. reflexivity. Qed.

(** ** Dates *)

Section Dates.
Context {rt : Runtime}.

Local Open Scope Z_scope.

Lemma month_date_of_day t :
  0 <= MonthFromTime t <= 11
  /\ month_start (MonthFromTime t) (InLeapYear t) + DateFromTime t - 1
     = DayWithinYear t.
Proof.
  unfold DateFromTime, MonthFromTime.
  repeat match goal with
         | |- context [if ?c then _ else _] => destruct c
         end; cbn [month_start]; lia.
Qed.

Lemma MakeDay_of_time t n :
  MakeDay (YearFromTime t) (MonthFromTime t) (DateFromTime t + n) = Day t + n.
Proof.
  destruct (month_date_of_day t) as [Hm Hd]. unfold MakeDay.
  rewrite (Z.div_small (MonthFromTime t) 12) by lia.
  rewrite (Z.mod_small (MonthFromTime t) 12) by lia.
  rewrite Z.add_0_r. fold (InLeapYear t).
  unfold DayWithinYear in Hd. lia.
Qed.

Lemma MakeDate_of_time t n :
  MakeDate (Day t + n) (TimeWithinDay t) = t + n * msPerDay.
Proof.
  unfold MakeDate, Day, TimeWithinDay.
  pose proof (Z.div_mod t msPerDay ltac:(discriminate)). lia.
Qed.

(** Setting the day of the month to the current one plus [n] moves the
    local time by [n] days. *)
Lemma setDate_getDate t n :
  setDate (Some t) (option_map (fun d => d + n) (getDate (Some t)))
  = TimeClip (UTC (LocalTime t + n * msPerDay)).
Proof.
  cbn [getDate option_map setDate].
  rewrite MakeDay_of_time, MakeDate_of_time. reflexivity.
Qed.

Lemma setDate_getDate_fixed t n :
  fixed_offset -> in_range (t + n * msPerDay) ->
  setDate (Some t) (option_map (fun d => d + n) (getDate (Some t)))
  = Some (t + n * msPerDay).
Proof.
  intros [tz Htz] Hr. rewrite setDate_getDate. unfold UTC, LocalTime.
  rewrite !Htz. replace (t + tz + n * msPerDay - tz) with (t + n * msPerDay) by lia.
  unfold TimeClip. unfold in_range in Hr.
  apply Z.leb_le in Hr. rewrite Hr. reflexivity.
Qed.

End Dates.

(** ** Bounds of the normalizer and of the extraction passes *)

Lemma slice0_length (n : nat) (s : jsstring) : List.length (slice0 n s) <= n.
Proof. unfold slice0. apply firstn_le_length. Qed.

Lemma cleanHtmlToText_length (html : jsstring) :
  List.length (cleanHtmlToText html) <= maxLength.
Proof.
  unfold cleanHtmlToText.
  match goal with |- context [Nat.ltb ?a ?b] => destruct (Nat.ltb a b) eqn:E end.
  - apply slice0_length.
  - apply Nat.ltb_ge in E. exact E.
Qed.

Lemma price_loop_length (lines : list jsstring) :
  forall items, List.length items <= MAX_ITEMS ->
  List.length (price_loop lines items) <= MAX_ITEMS.
Proof.
  induction lines as [|line rest IH]; intros items Hit; cbn [price_loop].
  - exact Hit.
  - destruct (Nat.leb MAX_ITEMS (List.length items)) eqn:Hfull.
    + exact Hit.
    + apply Nat.leb_gt in Hfull.
      destruct (match_ line priceRegex) as [m|]; [|now apply IH].
      destruct (amount_and_currency m) as [[a|] c]; [|now apply IH].
      destruct (negb _); [now apply IH|].
      apply IH. rewrite length_app. cbn [List.length]. lia.
Qed.

Lemma extractPricingFromText_length (text : option jsstring) :
  List.length (extractPricingFromText text) <= 50.
Proof.
  unfold extractPricingFromText.
  destruct text as [[|c t]|]; cbn [List.length]; try lia.
  apply (price_loop_length _ []). cbn [List.length]. lia.
Qed.

(** ** Pages of product blocks *)

(** The first way the article pattern matches a text that starts with a
    product block: it ends with the block, whatever follows. *)
Lemma article_ms_block prev rest pos :
  hd_error (ms true (source articleRegex)
              (MState prev (product_block ++ rest) pos []))
  = Some (MState (Some 62%N) rest (139 + pos)
            [(2, (33 + pos, 129 + pos)); (1, (19 + pos, 31 + pos))]).
Proof. vm_compute. reflexivity. Qed.

Lemma match_at_block prev rest pos :
  exists m,
    match_at articleRegex prev (product_block ++ rest) pos = Some m
    /\ endIndex m = List.length product_block + pos
    /\ articleItem m = Some product_item.
Proof.
  unfold match_at. pose proof (article_ms_block prev rest pos) as H.
  change (ignoreCase articleRegex) with true.
  destruct (ms true _ _) as [|s' l]; [discriminate|].
  cbn [hd_error] in H.
  assert (Hs : s' = MState (Some 62%N) rest (139 + pos)
                      [(2, (33 + pos, 129 + pos)); (1, (19 + pos, 31 + pos))])
    by congruence.
  rewrite Hs. clear H Hs.
  eexists. split; [reflexivity|]. split; [reflexivity|].
  cbn [m_pos m_caps map fst snd]. unfold substring.
  replace (129 + pos - (33 + pos)) with 96 by lia.
  replace (33 + pos - pos) with 33 by lia.
  replace (31 + pos - (19 + pos)) with 12 by lia.
  replace (19 + pos - pos) with 19 by lia.
  replace (139 + pos - pos) with 139 by lia.
  replace (pos - pos) with 0 by lia.
  vm_compute. reflexivity.
Qed.

Lemma search_hit re prev rest pos m :
  match_at re prev rest pos = Some m -> search re prev rest pos = Some m.
Proof. intro H. destruct rest; cbn [search]; rewrite H; reflexivity. Qed.

Lemma exec_article_block pre rest :
  exists m,
    exec articleRegex (pre ++ product_block ++ rest) (List.length pre) = Some m
    /\ endIndex m = List.length (pre ++ product_block)
    /\ articleItem m = Some product_item.
Proof.
  destruct (match_at_block (char_before (pre ++ product_block ++ rest)
                                        (List.length pre))
              rest (List.length pre)) as [m [Hm [He Hi]]].
  exists m. unfold exec. cbn [global articleRegex].
  replace (Nat.ltb _ _) with false
    by (symmetry; apply Nat.ltb_ge; rewrite length_app; lia).
  rewrite skipn_app, skipn_all, Nat.sub_diag. cbn [skipn app].
  split; [apply search_hit; exact Hm|].
  split; [rewrite He, length_app; lia|exact Hi].
Qed.

Lemma exec_article_end pre :
  exec articleRegex (pre ++ []) (List.length pre) = None.
Proof.
  unfold exec. cbn [global articleRegex].
  replace (Nat.ltb _ _) with false
    by (symmetry; apply Nat.ltb_ge; rewrite length_app; cbn; lia).
  rewrite skipn_app, skipn_all, Nat.sub_diag. reflexivity.
Qed.

Lemma extract_loop_product_page : forall n fuel pre items,
  n < fuel ->
  extract_loop fuel (pre ++ product_page n) (List.length pre) items
  = items ++ repeat product_item n.
Proof.
  induction n as [|n IH]; intros fuel pre items Hf;
    (destruct fuel as [|fuel]; [lia|]); cbn [extract_loop].
  - change (product_page 0) with (@nil char).
    rewrite exec_article_end. symmetry. apply app_nil_r.
  - change (product_page (S n)) with (product_block ++ product_page n).
    destruct (exec_article_block pre (product_page n)) as [m [Hm [He Hi]]].
    rewrite Hm, Hi, He, app_assoc. rewrite IH by lia.
    rewrite <- app_assoc. reflexivity.
Qed.

(** A page of [n] product blocks gives [n] items, one per block. *)
Lemma extractPricingFromHtml_product_page n :
  extractPricingFromHtml (product_page n) = repeat product_item n.
Proof.
  unfold extractPricingFromHtml.
  apply (extract_loop_product_page n _ [] []).
  assert (H : forall k, k <= List.length (product_page k)).
  { induction k as [|k IHk]; [apply Nat.le_0_l|].
    change (product_page (S k)) with (product_block ++ product_page k).
    rewrite length_app. change (List.length product_block) with 139. lia. }
  specialize (H n). lia.
Qed.

(** C3 (amended): for every input the normalized text has at most 15,000
    code units and the loose pass returns at most 50 items; the
    structured pass is not capped: for every [n], a page of [n] product
    blocks gives [n] items. *)
Theorem C3_truncation_bounds :
  (forall html, List.length (cleanHtmlToText html) <= 15000)
  /\ (forall text, List.length (extractPricingFromText text) <= 50)
  /\ (forall n, List.length (extractPricingFromHtml (product_page n)) = n).
Proof.
  split; [|split].
  - intro html. apply cleanHtmlToText_length.
  - apply extractPricingFromText_length.
  - intro n. rewrite extractPricingFromHtml_product_page.
    apply repeat_length.
Qed.

(** C3 as stated fails: the structured pass returns more than 50 items
    for a page of 51 product blocks. *)
Lemma C3_structured_pass_unbounded :
  ~ (forall html,
       List.length (cleanHtmlToText html) <= 15000
       /\ List.length (extractPricingFromHtml html) <= 50
       /\ List.length (extractPricingFromText (Some (cleanHtmlToText html)))
          <= 50).
Proof.
  intro H. specialize (H (product_page 51)).
  destruct H as [_ [H _]].
  assert (E : List.length (extractPricingFromHtml (product_page 51)) = 51)
    by (vm_compute; reflexivity).
  rewrite E in H. lia.
Qed.

(** ** The loose pass *)

(** The literal 84.9 is the Number 5974306380683674 * 2^-46, which lies
    within half a unit in the last place of 849/10. *)
Lemma decimal_84_9 :
  decimal 849 (-1) = S754_finite false 5974306380683674 (-46)
  /\ (2 * Z.abs (5974306380683674 * 10 - 849 * 2 ^ 46) <= 10)%Z.
Proof. split; [vm_compute; reflexivity|vm_compute; discriminate]. Qed.

(** C8: the line [84,90 €] yields amount 84.9 in EUR, the line [$54.90]
    yields amount 54.9 in USD, and the line [119.00] yields no item.  The
    amounts are given as binary64 values: 5974306380683674 * 2^-46 and
    7726488110707507 * 2^-47, each within half a unit in the last place
    of 849/10 and of 549/10, so each is the Number that the literal 84.9
    or 54.9 denotes. *)
Theorem C8_price_parsing_examples :
  extractPricingFromText (Some (js "84,90 €"))
  = [ {| label := Some (js "84,90 €");
         amount := Some (S754_finite false 5974306380683674 (-46));
         currency := Some (js "EUR");
         rawLine := js "84,90 €" |} ]
  /\ (2 * Z.abs (5974306380683674 * 10 - 849 * 2 ^ 46) <= 10)%Z
  /\ extractPricingFromText (Some (js "$54.90"))
     = [ {| label := Some (js "$54.90");
            amount := Some (S754_finite false 7726488110707507 (-47));
            currency := Some (js "USD");
            rawLine := js "$54.90" |} ]
  /\ (2 * Z.abs (7726488110707507 * 10 - 549 * 2 ^ 47) <= 10)%Z
  /\ extractPricingFromText (Some (js "119.00")) = [].
Proof.
  split; [vm_compute; reflexivity|].
  split; [vm_compute; discriminate|].
  split; [vm_compute; reflexivity|].
  split; [vm_compute; discriminate|].
  vm_compute. reflexivity.
Qed.

(** C10: every item of the loose pass has a finite amount, the currency
    EUR or USD, a raw line that is a non-empty trimmed line of the text,
    and for label the first 120 code units of that line. *)
Theorem C10_loose_pass_items (text : option jsstring) (it : PricingItem) :
  In it (extractPricingFromText text) ->
  (exists x, amount it = Some x /\ isFinite x = true)
  /\ (currency it = Some (js "EUR") \/ currency it = Some (js "USD"))
  /\ (exists t raw, text = Some t /\ In raw (split t lineBreakRegex)
                    /\ rawLine it = trim raw)
  /\ rawLine it <> []
  /\ label it = Some (slice0 120 (rawLine it)).
Proof.
  intro Hin. unfold extractPricingFromText in Hin.
  destruct text as [t|]; [|contradiction].
  assert (Hl : In it (price_loop (text_lines t) [])).
  { destruct t; [contradiction|exact Hin]. }
  clear Hin. apply price_loop_items in Hl. destruct Hl as [[]|Hl].
  destruct Hl as [line [m [a [c [Hline [Hm [Ha [Hf ->]]]]]]]].
  cbn [item_of amount currency rawLine label].
  destruct (amount_and_currency_code m (priceRegex_sound _ _ Hm))
    as [a' [c' [Ha' [_ Hc]]]].
  apply code_of_match_codes in Hc.
  rewrite Ha in Ha'. injection Ha' as -> ->.
  unfold text_lines in Hline. apply filter_In in Hline.
  destruct Hline as [Hmap Hlen]. apply in_map_iff in Hmap.
  destruct Hmap as [raw [<- Hraw]].
  split; [eauto|]. split; [destruct Hc as [->| ->]; auto|].
  split; [exists t, raw; auto|]. split; [|reflexivity].
  intro E. rewrite E in Hlen. discriminate.
Qed.

Lemma C10_witness :
  currency Example.eur_item = Some (js "EUR")
  \/ currency Example.eur_item = Some (js "USD").
Proof.
  apply (C10_loose_pass_items (Some (js "84,90 €")) Example.eur_item).
  vm_compute. left. reflexivity.
Defined.




(** ** The capture route *)

Lemma text_changed_iff oldText newText :
  text_changed oldText newText = true <->
  oldText <> newText
  /\ (20 < Z.abs (Z.of_nat (List.length newText)
                  - Z.of_nat (List.length oldText)) \/ newText = [])%Z.
Proof.
  unfold text_changed. rewrite andb_true_iff, orb_true_iff, negb_true_iff.
  rewrite str_eqb_neq, Z.ltb_lt, Nat.eqb_eq.
  split; intros [A [B|B]]; split; auto.
  - right. destruct newText; [reflexivity|discriminate].
  - right. subst. reflexivity.
Qed.

Lemma created_app db db' l :
  Db.changes db' = Db.changes db ++ l -> created db db' = l.
Proof.
  intro E. unfold created. rewrite E, skipn_app, skipn_all, Nat.sub_diag.
  reflexivity.
Qed.

Lemma fetch_cases (o : FetchOutcome) :
  fetch_failed o
  \/ exists code html, o = FetchResponse code html /\ response_ok code = true.
Proof.
  destruct o as [|code html]; cbn; auto.
  destruct (response_ok code) eqn:E; eauto.
Qed.

Section ScrapeRun.
Context {rt : Runtime}.

Lemma price_changed_iff oldPricing newPricing :
  price_changed oldPricing newPricing = true <->
  stringify oldPricing <> stringify newPricing
  /\ (truthy oldPricing = true \/ truthy newPricing = true).
Proof.
  unfold price_changed. rewrite andb_true_iff, orb_true_iff, negb_true_iff.
  rewrite str_eqb_neq. tauto.
Qed.

Lemma scrape_run_fetch_failed rawPageId w db k page :
  page_of_request rawPageId db = Some (k, page) ->
  fetch_failed (fetch w (MonitoredPage.url page)) ->
  POST rawPageId w db = (serverError, db).
Proof.
  unfold page_of_request, POST. intros Hp Hf.
  destruct (parsePageId rawPageId) as [id|]; [|discriminate].
  destruct (Db.key id) as [k'|]; [|discriminate].
  destruct (Db.findMonitoredPage db k') as [p|]; [|discriminate].
  injection Hp as -> ->.
  destruct (fetch w (MonitoredPage.url page)) as [|status body];
    cbn [scrapePage]; [reflexivity|].
  cbn [fetch_failed] in Hf. rewrite Hf. reflexivity.
Qed.

Lemma scrape_run_no_page rawPageId w db :
  page_of_request rawPageId db = None -> snd (POST rawPageId w db) = db.
Proof.
  unfold page_of_request, POST. intro H.
  destruct (parsePageId rawPageId) as [id|]; [|reflexivity].
  destruct (Db.key id) as [k|]; [|reflexivity].
  destruct (Db.findMonitoredPage db k) as [p|]; [discriminate|reflexivity].
Qed.

Lemma scrape_run_success rawPageId w db k page code html :
  page_of_request rawPageId db = Some (k, page) ->
  fetch w (MonitoredPage.url page) = FetchResponse code html ->
  response_ok code = true ->
  exists snap db1 resp db',
    Db.createSnapshot db k (Some html) (Some (new_text html)) (now w)
                      (new_pricing html) (dbNow w) = (snap, db1)
    /\ POST rawPageId w db = (resp, db')
    /\ status resp = 201
    /\ Db.snapshots db' = Db.snapshots db ++ [snap]
    /\ match Db.findFirstSnapshot db k with
       | None =>
           Db.changes db' = Db.changes db
           /\ exists msg, body resp = Created snap None false msg
       | Some prev =>
           let oldText := or_empty (Snapshot.extractedText prev) in
           let oldPricing := or_null (Snapshot.extractedPricing prev) in
           let newPricing := or_null (new_pricing html) in
           exists textChanges priceChanges,
             Db.changes db' = Db.changes db ++ textChanges ++ priceChanges
             /\ (if text_changed oldText (new_text html)
                 then exists c, textChanges = [c]
                                /\ Change.changeType c = TEXT
                                /\ Change.oldSnapshotId c = Some (Snapshot.id prev)
                                /\ Change.newSnapshotId c = Some (Snapshot.id snap)
                 else textChanges = [])
             /\ (if price_changed oldPricing newPricing
                 then exists c, priceChanges = [c]
                                /\ Change.changeType c = PRICE
                                /\ Change.oldSnapshotId c = Some (Snapshot.id prev)
                                /\ Change.newSnapshotId c = Some (Snapshot.id snap)
                 else priceChanges = [])
             /\ exists change msg,
                  body resp = Created snap change
                                (text_changed oldText (new_text html)
                                 || price_changed oldPricing newPricing) msg
                  /\ (change = None <->
                      textChanges = [] /\ priceChanges = [])
       end.
Proof.
  unfold page_of_request, POST. intros Hp Hf Hok.
  destruct (parsePageId rawPageId) as [id|]; [|discriminate].
  destruct (Db.key id) as [k'|]; [|discriminate].
  destruct (Db.findMonitoredPage db k') as [p|]; [|discriminate].
  injection Hp as -> ->.
  rewrite Hf. cbn [scrapePage]. rewrite Hok. cbn [negb].
  cbn [Scraping.rawHtml Scraping.extractedText].
  fold (new_text html). fold (new_items html). fold (new_pricing html).
  unfold Db.createSnapshot.
  set (snap := {| Snapshot.id := Db.snapshotSeq db |}).
  set (db1 := {| Db.projects := Db.projects db |}).
  destruct (Db.findFirstSnapshot db k) as [prev|].
  - cbv zeta. change MIN_LENGTH_DELTA with 20%Z.
    fold (text_changed (or_empty (Snapshot.extractedText prev)) (new_text html)).
    change (Snapshot.extractedPricing snap) with (new_pricing html).
    fold (price_changed (or_null (Snapshot.extractedPricing prev))
                        (or_null (new_pricing html))).
    destruct (text_changed _ _); destruct (price_changed _ _);
      unfold Db.createChange; cbv iota beta zeta;
      do 4 eexists; (split; [reflexivity|]); (split; [reflexivity|]);
      (split; [reflexivity|]); (split; [reflexivity|]);
      cbn [Db.changes db1].
    + eexists [_], [_]. rewrite <- app_assoc. cbn [app].
      repeat split; eauto.
      eexists _, _. split; [reflexivity|]. split; [discriminate|].
      intros [A _]. discriminate A.
    + eexists [_], []. rewrite app_nil_r.
      repeat split; eauto.
      eexists _, _. split; [reflexivity|]. split; [discriminate|].
      intros [A _]. discriminate A.
    + eexists [], [_]. cbn [app].
      repeat split; eauto.
      eexists _, _. split; [reflexivity|]. split; [discriminate|].
      intros [_ A]. discriminate A.
    + eexists [], []. rewrite app_nil_r.
      repeat split; eauto.
      eexists _, _. split; [reflexivity|]. split; auto.
  - do 4 eexists. repeat split; eauto. eexists. reflexivity.
Qed.

(** The changes a run with a prior capture creates: a TEXT change exactly
    when [text_changed] holds and a PRICE change exactly when
    [price_changed] holds, each referring to both captures. *)
Lemma scrape_run_created rawPageId w db k page code html prev :
  page_of_request rawPageId db = Some (k, page) ->
  fetch w (MonitoredPage.url page) = FetchResponse code html ->
  response_ok code = true ->
  Db.findFirstSnapshot db k = Some prev ->
  let db' := snd (POST rawPageId w db) in
  let oldText := or_empty (Snapshot.extractedText prev) in
  let oldPricing := or_null (Snapshot.extractedPricing prev) in
  let newPricing := or_null (new_pricing html) in
  ((exists c, In c (created db db') /\ Change.changeType c = TEXT)
   <-> text_changed oldText (new_text html) = true)
  /\ ((exists c, In c (created db db') /\ Change.changeType c = PRICE)
      <-> price_changed oldPricing newPricing = true)
  /\ Forall (fun c => Change.oldSnapshotId c <> None
                      /\ Change.newSnapshotId c <> None) (created db db').
Proof.
  intros Hp Hf Hok Hprev dbr oldText oldPricing newPricing. subst dbr.
  destruct (scrape_run_success rawPageId w db k page code html Hp Hf Hok)
    as [snap [db1 [resp [db' [_ [E [_ [_ H]]]]]]]].
  rewrite E. cbn [snd]. rewrite Hprev in H. cbv zeta in H.
  fold oldText oldPricing newPricing in H.
  destruct H as [tc [pc [Ec [Ht [Hpc _]]]]].
  rewrite (created_app db db' _ Ec).
  assert (Htc : (exists c, In c tc /\ Change.changeType c = TEXT)
                <-> text_changed oldText (new_text html) = true).
  { destruct (text_changed _ _).
    - destruct Ht as [c [-> [T _]]]. split; [reflexivity|].
      intros _. exists c. cbn; auto.
    - subst tc. split; [intros [c [[] _]]|discriminate]. }
  assert (Hpc' : (exists c, In c pc /\ Change.changeType c = PRICE)
                 <-> price_changed oldPricing newPricing = true).
  { destruct (price_changed _ _).
    - destruct Hpc as [c [-> [T _]]]. split; [reflexivity|].
      intros _. exists c. cbn; auto.
    - subst pc. split; [intros [c [[] _]]|discriminate]. }
  assert (Ttc : Forall (fun c => Change.changeType c = TEXT
                                 /\ Change.oldSnapshotId c <> None
                                 /\ Change.newSnapshotId c <> None) tc).
  { destruct (text_changed _ _).
    - destruct Ht as [c [-> [T [O N]]]]. repeat constructor; congruence.
    - subst tc. constructor. }
  assert (Tpc : Forall (fun c => Change.changeType c = PRICE
                                 /\ Change.oldSnapshotId c <> None
                                 /\ Change.newSnapshotId c <> None) pc).
  { destruct (price_changed _ _).
    - destruct Hpc as [c [-> [T [O N]]]]. repeat constructor; congruence.
    - subst pc. constructor. }
  rewrite Forall_forall in Ttc, Tpc.
  split; [|split].
  - rewrite <- Htc. split; intros [c [Hin Hc]]; exists c; split; auto.
    + apply in_app_or in Hin. destruct Hin as [Hin|Hin]; [exact Hin|].
      apply Tpc in Hin. destruct Hin as [Hin _]. congruence.
    + apply in_or_app. auto.
  - rewrite <- Hpc'. split; intros [c [Hin Hc]]; exists c; split; auto.
    + apply in_app_or in Hin. destruct Hin as [Hin|Hin]; [|exact Hin].
      apply Ttc in Hin. destruct Hin as [Hin _]. congruence.
    + apply in_or_app. auto.
  - apply Forall_forall. intros c Hin. apply in_app_or in Hin.
    destruct Hin as [Hin|Hin]; [apply Ttc in Hin|apply Tpc in Hin]; tauto.
Qed.

(** Every change a run creates refers to an old and a new capture. *)
Lemma POST_changes_refer_to_captures rawPageId w db :
  Forall (fun c => Change.oldSnapshotId c <> None
                   /\ Change.newSnapshotId c <> None)
         (created db (snd (POST rawPageId w db))).
Proof.
  assert (Hnil : created db db = []).
  { unfold created. apply skipn_all. }
  destruct (page_of_request rawPageId db) as [[k page]|] eqn:Hp;
    [|rewrite scrape_run_no_page, Hnil by exact Hp; constructor].
  destruct (fetch_cases (fetch w (MonitoredPage.url page)))
    as [Hf|[code [html [Hf Hok]]]].
  - rewrite (scrape_run_fetch_failed rawPageId w db k page Hp Hf). cbn [snd].
    rewrite Hnil. constructor.
  - destruct (Db.findFirstSnapshot db k) as [prev|] eqn:Hprev.
    + apply (scrape_run_created rawPageId w db k page code html prev Hp Hf Hok Hprev).
    + destruct (scrape_run_success rawPageId w db k page code html Hp Hf Hok)
        as [snap [db1 [resp [db' [_ [E [_ [_ H]]]]]]]].
      rewrite Hprev in H. destruct H as [H _]. rewrite E. cbn [snd].
      unfold created. rewrite H, skipn_all. constructor.
Qed.

(** C1: on a run for a page with a prior capture, a TEXT change is
    created if and only if the new normalized text differs from the prior
    text and the lengths differ by more than 20 or the new text is empty;
    with different, non-empty new content, a difference of exactly 20
    creates none and a difference of 21 or more creates one. *)
Theorem C1_text_change_threshold rawPageId w db k page code html prev :
  page_of_request rawPageId db = Some (k, page) ->
  fetch w (MonitoredPage.url page) = FetchResponse code html ->
  response_ok code = true ->
  Db.findFirstSnapshot db k = Some prev ->
  let oldText := or_empty (Snapshot.extractedText prev) in
  let newText := cleanHtmlToText html in
  let lengthDelta :=
    Z.abs (Z.of_nat (List.length newText) - Z.of_nat (List.length oldText)) in
  let text_change :=
    exists c, In c (created db (snd (POST rawPageId w db)))
              /\ Change.changeType c = TEXT in
  (text_change <->
   oldText <> newText /\ (20 < lengthDelta \/ newText = [])%Z)
  /\ (oldText <> newText -> lengthDelta = 20%Z -> newText <> [] ->
      ~ text_change)
  /\ (oldText <> newText -> (21 <= lengthDelta)%Z -> text_change).
Proof.
  intros Hp Hf Hok Hprev oldText newText lengthDelta text_change.
  destruct (scrape_run_created rawPageId w db k page code html prev Hp Hf Hok Hprev)
    as [Ht _].
  rewrite text_changed_iff in Ht. fold oldText in Ht.
  change (new_text html) with newText in Ht.
  fold lengthDelta in Ht. fold text_change in Ht.
  split; [exact Ht|]. split.
  - intros Hd H20 Hne Hc. apply Ht in Hc. destruct Hc as [_ [Hc|Hc]];
      [lia|contradiction].
  - intros Hd H21. apply Ht. split; [exact Hd|left; lia].
Qed.

(** C9: a run for a page without prior capture persists exactly one new
    capture and no change, and answers hasChange = false with a null
    change; and every change that any run creates refers to an old and to
    a new capture. *)
Theorem C9_first_capture_creates_no_change rawPageId w db k page code html :
  page_of_request rawPageId db = Some (k, page) ->
  fetch w (MonitoredPage.url page) = FetchResponse code html ->
  response_ok code = true ->
  Db.findFirstSnapshot db k = None ->
  (exists snap msg,
     Db.snapshots (snd (POST rawPageId w db)) = Db.snapshots db ++ [snap]
     /\ Db.changes (snd (POST rawPageId w db)) = Db.changes db
     /\ fst (POST rawPageId w db)
        = {| status := 201; body := Created snap None false msg |})
  /\ (forall rawPageId' w' db',
        Forall (fun c => Change.oldSnapshotId c <> None
                         /\ Change.newSnapshotId c <> None)
               (created db' (snd (POST rawPageId' w' db')))).
Proof.
  intros Hp Hf Hok Hprev. split; [|intros; apply POST_changes_refer_to_captures].
  destruct (scrape_run_success rawPageId w db k page code html Hp Hf Hok)
    as [snap [db1 [resp [db' [_ [E [St [Sn H]]]]]]]].
  rewrite Hprev in H. destruct H as [Hc [msg Hb]].
  rewrite E. cbn [fst snd]. exists snap, msg. repeat split; auto.
  destruct resp as [st bd]. cbn in St, Hb. subst. reflexivity.
Qed.

(** C5: when the fetch of the run fails, nothing is persisted (the
    database is left as it was: no capture and no change) and the answer
    is the error 500; a run whose fetch succeeds answers 201, also when it
    detects no change. *)
Theorem C5_fetch_failure_persists_nothing rawPageId w db k page :
  page_of_request rawPageId db = Some (k, page) ->
  fetch_failed (fetch w (MonitoredPage.url page)) ->
  snd (POST rawPageId w db) = db
  /\ (exists msg, fst (POST rawPageId w db)
                  = {| status := 500; body := Message msg |})
  /\ (forall w' code html,
        fetch w' (MonitoredPage.url page) = FetchResponse code html ->
        response_ok code = true ->
        exists snap change hasChange msg,
          fst (POST rawPageId w' db)
          = {| status := 201; body := Created snap change hasChange msg |}).
Proof.
  intros Hp Hf. rewrite (scrape_run_fetch_failed rawPageId w db k page Hp Hf).
  cbn [fst snd]. split; [reflexivity|]. split; [eexists; reflexivity|].
  intros w' code html Hf' Hok.
  destruct (scrape_run_success rawPageId w' db k page code html Hp Hf' Hok)
    as [snap [db1 [resp [db' [_ [E [St [_ H]]]]]]]].
  rewrite E. cbn [fst]. destruct resp as [st bd]. cbn in St, H. subst st.
  destruct (Db.findFirstSnapshot db k).
  - destruct H as [tc [pc [_ [_ [_ [change [msg [Hb _]]]]]]]].
    subst bd. eauto.
  - destruct H as [_ [msg Hb]]. subst bd. eauto.
Qed.

Lemma truthy_list_or_null v :
  (v = JNull \/ exists l, v = JArr l) -> (truthy v = true <-> v <> JNull).
Proof.
  intros [->|[l ->]]; cbn; split; try congruence; try discriminate; auto.
Qed.

Lemma new_pricing_cases html :
  (new_items html = [] /\ new_pricing html = None)
  \/ (exists it l, new_items html = it :: l
                   /\ new_pricing html = Some (pricing_json (it :: l))).
Proof.
  unfold new_pricing. destruct (new_items html) as [|it l]; cbn; eauto.
Qed.

Section Pricing.
Context {nt : NumberText rt}.

(** C2: on a run for a page with a prior capture whose pricing is a list
    or null, and whatever the text comparison gives, a PRICE change is
    created if and only if the serialized pricing values differ and one
    of them is not null (a stored list is never empty); two lists of the
    same items in a different order are treated as changed. *)
Theorem C2_price_change rawPageId w db k page code html prev :
  page_of_request rawPageId db = Some (k, page) ->
  fetch w (MonitoredPage.url page) = FetchResponse code html ->
  response_ok code = true ->
  Db.findFirstSnapshot db k = Some prev ->
  let oldPricing := or_null (Snapshot.extractedPricing prev) in
  let newPricing := or_null (new_pricing html) in
  let price_change :=
    exists c, In c (created db (snd (POST rawPageId w db)))
              /\ Change.changeType c = PRICE in
  (oldPricing = JNull \/ exists l, oldPricing = JArr l) ->
  (price_change <->
   stringify oldPricing <> stringify newPricing
   /\ (oldPricing <> JNull \/ newPricing <> JNull))
  /\ (newPricing = JNull
      \/ exists it l, newPricing = pricing_json (it :: l))
  /\ (forall items,
        oldPricing = pricing_json items -> Forall item_ok items ->
        Permutation items (new_items html) -> items <> new_items html ->
        price_change).
Proof.
  intros Hp Hf Hok Hprev oldPricing newPricing price_change Hold.
  destruct (scrape_run_created rawPageId w db k page code html prev Hp Hf Hok Hprev)
    as [_ [Hpc _]].
  rewrite price_changed_iff in Hpc.
  fold oldPricing newPricing price_change in Hpc.
  assert (Hnew : newPricing = JNull
                 \/ exists it l, newPricing = pricing_json (it :: l)).
  { subst newPricing. destruct (new_pricing_cases html)
      as [[_ ->]|[it [l [_ ->]]]]; cbn; eauto. }
  assert (Hnew' : newPricing = JNull \/ exists l, newPricing = JArr l).
  { destruct Hnew as [->|[it [l ->]]]; [auto|right]. eexists. reflexivity. }
  rewrite (truthy_list_or_null oldPricing Hold) in Hpc.
  rewrite (truthy_list_or_null newPricing Hnew') in Hpc.
  split; [exact Hpc|]. split; [exact Hnew|].
  intros items Eold Hok_items Hperm Hneq. apply Hpc.
  destruct (new_pricing_cases html) as [[E _]|[it [l [E En]]]].
  - exfalso. rewrite E in Hperm. apply Permutation_sym, Permutation_nil in Hperm.
    rewrite E in Hneq. contradiction.
  - assert (Enew : newPricing = pricing_json (new_items html)).
    { subst newPricing. rewrite En, E. reflexivity. }
    rewrite Eold, Enew. split.
    + intro Es. apply Hneq. apply pricing_text_inj; auto.
      eapply Permutation_Forall; eauto.
    + right. unfold pricing_json. discriminate.
Qed.

End Pricing.

End ScrapeRun.

(** ** The reports route *)

Import ReportsRoute.

Section Reports.
Context {rt : Runtime}.

Local Open Scope Z_scope.


(** The report a request creates once its project is found and its
    period is resolved to two valid dates. *)
Lemma report_created rawId body w db id pk project gte lte reads :
  parseProjectId rawId = Some id -> Db.key id = Some pk ->
  Db.findProject db pk = Some project ->
  resolvePeriod body w = Resolved (Some gte) (Some lte) reads ->
  exists report db',
    POST rawId (Some body) w db
    = ({| status := 201; body := Created report |}, db')
    /\ Db.reports db' = Db.reports db ++ [report]
    /\ Report.periodStart report = Some gte
    /\ Report.periodEnd report = Some lte
    /\ (let ai := if match useAi body with None => true | Some b => b end
                  then generateAiReport w (Db.findChanges db pk gte lte)
                  else None in
        Report.aiSummary report = option_map aiSummary ai
        /\ Report.highlights report = option_map highlights ai).
Proof.
  intros Hid Hk Hp Hr. unfold POST. rewrite Hid, Hr, Hk, Hp.
  destruct (match useAi body with None => true | Some b => b end).
  - destruct (generateAiReport w (Db.findChanges db pk gte lte)) as [r|];
      cbn; do 2 eexists; repeat split; reflexivity.
  - cbn; do 2 eexists; repeat split; reflexivity.
Qed.

Lemma generateAiReport_no_key w changes :
  truthy_string (OPENAI_API_KEY w) = None -> generateAiReport w changes = None.
Proof. intro H. unfold generateAiReport. rewrite H. reflexivity. Qed.

(** C6 (amended): without a synthesis credential, and whatever the
    changes of the window, the report is created, with a null summary
    and no highlights value (a null column, which the reports page reads
    as the empty list). *)
Theorem C6_report_without_credential
    rawId body w db id pk project gte lte reads :
  parseProjectId rawId = Some id -> Db.key id = Some pk ->
  Db.findProject db pk = Some project ->
  resolvePeriod body w = Resolved (Some gte) (Some lte) reads ->
  truthy_string (OPENAI_API_KEY w) = None ->
  exists report db',
    POST rawId (Some body) w db
    = ({| status := 201; body := Created report |}, db')
    /\ Db.reports db' = Db.reports db ++ [report]
    /\ Report.aiSummary report = None
    /\ Report.highlights report = None
    /\ ReportsPage.normalizeHighlights (Report.highlights report) = [].
Proof.
  intros Hid Hk Hp Hr Hkey.
  destruct (report_created rawId body w db id pk project gte lte reads Hid Hk Hp Hr)
    as [report [db' [E [R [_ [_ [A H]]]]]]].
  rewrite (generateAiReport_no_key w _ Hkey) in A, H.
  assert (A' : Report.aiSummary report = None)
    by (rewrite A; destruct (match useAi body with None => true | Some b => b end); reflexivity).
  assert (H' : Report.highlights report = None)
    by (rewrite H; destruct (match useAi body with None => true | Some b => b end); reflexivity).
  exists report, db'. rewrite H'. repeat split; auto.
Qed.

End Reports.

(** ** The properties on the closed examples *)

Lemma example_page_of_request :
  page_of_request (js "1") Example.db1 = Some (1%Z, Example.page).
Proof. vm_compute. reflexivity. Qed.

Lemma C1_witness :
  exists c,
    In c (created Example.db1
            (snd (@ScrapeRoute.POST example_runtime (js "1") Example.online
                    Example.db1)))
    /\ Change.changeType c = TEXT.
Proof.
  apply (@C1_text_change_threshold example_runtime (js "1") Example.online
           Example.db1 1%Z Example.page 200 Example.html Example.prior);
    try (vm_compute; reflexivity).
  - vm_compute. discriminate.
  - vm_compute. discriminate.
Defined.

Lemma C2_witness :
  exists c,
    In c (created Example.db1
            (snd (@ScrapeRoute.POST example_runtime (js "1") Example.online
                    Example.db1)))
    /\ Change.changeType c = PRICE.
Proof.
  apply (proj2 (proj2
           (@C2_price_change example_runtime example_number_text (js "1")
              Example.online Example.db1 1%Z Example.page 200 Example.html
              Example.prior example_page_of_request eq_refl eq_refl eq_refl
              (or_intror (ex_intro _ _ eq_refl))))
           [Example.usd_item; Example.eur_item]).
  - vm_compute; reflexivity.
  - repeat constructor.
  - replace (new_items Example.html) with [Example.eur_item; Example.usd_item]
      by (vm_compute; reflexivity).
    apply perm_swap.
  - vm_compute. discriminate.
Defined.

Lemma C5_witness :
  snd (@ScrapeRoute.POST example_runtime (js "1") Example.unavailable
         Example.db1) = Example.db1.
Proof.
  apply (@C5_fetch_failure_persists_nothing example_runtime (js "1")
           Example.unavailable Example.db1 1%Z Example.page);
    (vm_compute; reflexivity).
Defined.

Lemma C9_witness :
  exists snap msg,
    Db.snapshots (snd (@ScrapeRoute.POST example_runtime (js "1")
                         Example.online Example.db0))
    = Db.snapshots Example.db0 ++ [snap]
    /\ Db.changes (snd (@ScrapeRoute.POST example_runtime (js "1")
                          Example.online Example.db0))
       = Db.changes Example.db0
    /\ fst (@ScrapeRoute.POST example_runtime (js "1") Example.online
              Example.db0)
       = {| ScrapeRoute.status := 201;
            ScrapeRoute.body := ScrapeRoute.Created snap None false msg |}.
Proof.
  apply (@C9_first_capture_creates_no_change example_runtime (js "1")
           Example.online Example.db0 1%Z Example.page 200 Example.html);
    (vm_compute; reflexivity).
Defined.


Lemma C6_witness :
  exists report db',
    @ReportsRoute.POST example_runtime (js "1") (Some Example.start_only)
      Example.no_credential Example.db2
    = ({| ReportsRoute.status := 201;
          ReportsRoute.body := ReportsRoute.Created report |}, db')
    /\ Db.reports db' = Db.reports Example.db2 ++ [report]
    /\ Report.aiSummary report = None
    /\ Report.highlights report = None
    /\ ReportsPage.normalizeHighlights (Report.highlights report) = [].
Proof.
  apply (@C6_report_without_credential example_runtime (js "1")
           Example.start_only Example.no_credential Example.db2
           (StringToNumber (js "1")) 1%Z Example.project
           1762041600000%Z 1762646400000%Z 0);
    (vm_compute; reflexivity).
Defined.


(** C6 as stated fails: with a change in the window and no credential,
    the report is created with a null summary, and its highlights are
    not the empty array: no value is stored. *)
Lemma C6_highlights_are_null_not_empty_array :
  Db.findChanges Example.db2 1 1762041600000 1762646400000 = [Example.change]
  /\ exists report db',
       @ReportsRoute.POST example_runtime (js "1") (Some Example.start_only)
         Example.no_credential Example.db2
       = ({| ReportsRoute.status := 201;
             ReportsRoute.body := ReportsRoute.Created report |}, db')
       /\ Report.aiSummary report = None
       /\ Report.highlights report <> Some (JArr []).
Proof.
  split; [vm_compute; reflexivity|]. do 2 eexists.
  split; [vm_compute; reflexivity|]. split; [reflexivity|]. discriminate.
Qed.

(* ================================================================== *)
(** * Part XVI. Further properties                                      *)
(* ================================================================== *)

(** What the code guarantees beyond the statements above: the shape of
    the normalized text, the sign of the prices, the rows a request
    writes or deletes, the order and the extent of the lists served, and
    how the routes behave one after the other.  The writes of the
    database do not fail in the model: no property states what a run
    leaves behind after a write that fails. *)

(** ** Replacement *)

Lemma replace_from_chars (P : char -> Prop) re by_ :
  Forall P by_ ->
  forall rest live prev pos skip,
    Forall P rest -> Forall P (replace_from re by_ live prev rest pos skip).
Proof.
  intros Hby rest. induction rest as [|c t IH]; intros live prev pos skip Hr.
  - destruct skip; cbn [replace_from]; [|constructor].
    destruct (if live then match_at re prev [] pos else None).
    + rewrite app_nil_r. exact Hby.
    + constructor.
  - inversion Hr as [|? ? Hc Ht]; subst.
    destruct skip as [|k]; cbn [replace_from]; [|now apply IH].
    destruct (if live then match_at re prev (c :: t) pos else None) as [m|].
    + apply Forall_app. split; [exact Hby|].
      destruct (endIndex m - pos); [constructor; auto|]; now apply IH.
    + constructor; auto.
Qed.

Lemma replace_chars (P : char -> Prop) s re by_ :
  Forall P by_ -> Forall P s -> Forall P (replace s re by_).
Proof. intros. now apply replace_from_chars. Qed.

(** A global expression of one atom: every code unit the atom accepts is
    replaced. *)
Lemma replace_from_atom_global a ic by_ : forall s prev pos,
  replace_from {| source := Atom a; ignoreCase := ic; global := true |}
               by_ true prev s pos 0
  = flat_map (fun c => if atom_match ic a c then by_ else [c]) s.
Proof.
  induction s as [|c t IH]; intros prev pos; cbn [replace_from flat_map].
  - reflexivity.
  - unfold match_at. cbn [ms m_rest ignoreCase source m_pos m_caps].
    destruct (atom_match ic a c); cbn [endIndex global].
    + cbn [m_pos]. replace (S pos - pos) with 1 by lia. now rewrite IH.
    + now rewrite IH.
Qed.

Lemma replace_atom_global a ic by_ s :
  replace s {| source := Atom a; ignoreCase := ic; global := true |} by_
  = flat_map (fun c => if atom_match ic a c then by_ else [c]) s.
Proof. apply replace_from_atom_global. Qed.

Lemma flat_map_drop (p : char -> bool) s :
  flat_map (fun c => if p c then [] else [c]) s = filter (fun c => negb (p c)) s.
Proof.
  induction s as [|c t IH]; cbn; [reflexivity|].
  destruct (p c); cbn; now rewrite IH.
Qed.

(** ** Greedy repetition *)

Lemma rep_atom_greedy_hd ok : forall rest min prev pos caps,
  min <= List.length (fst (span ok rest)) ->
  exists prev' tl,
    rep_atom ok min None true prev rest pos caps
    = MState prev' (snd (span ok rest))
             (pos + List.length (fst (span ok rest))) caps :: tl.
Proof.
  induction rest as [|c t IH]; intros min prev pos caps Hmin.
  - cbn in *. destruct min; [|lia]. rewrite Nat.add_0_r. eauto.
  - cbn [rep_atom span option_map] in *. destruct (ok c) eqn:Hc.
    + destruct (span ok t) as [x r] eqn:Hs. cbn [fst snd List.length] in *.
      destruct (IH (pred min) (Some c) (S pos) caps) as [prev' [tl E]]; [lia|].
      rewrite E. replace (S pos + List.length x) with (pos + S (List.length x)) by lia.
      cbn [app]. eauto.
    + cbn [fst snd List.length] in *. destruct min; [|lia].
      rewrite Nat.add_0_r. cbn [app]. eauto.
Qed.

Lemma rep_atom_nil ok : forall rest min max g prev pos caps,
  List.length (fst (span ok rest)) < min ->
  rep_atom ok min max g prev rest pos caps = [].
Proof.
  induction rest as [|c t IH]; intros min max g prev pos caps Hmin.
  - cbn in *. destruct min; [lia|]. destruct max as [[|k]|]; destruct g; reflexivity.
  - cbn [rep_atom span option_map] in *. destruct (ok c) eqn:Hc.
    + destruct (span ok t) as [x r] eqn:Hs. cbn [fst List.length] in *.
      destruct min; [lia|].
      rewrite IH by (cbn; lia).
      destruct max as [[|k]|]; destruct g; reflexivity.
    + cbn [fst List.length] in *. destruct min; [lia|].
      destruct max as [[|k]|]; destruct g; reflexivity.
Qed.

Lemma span_app (p : char -> bool) s :
  s = fst (span p s) ++ snd (span p s).
Proof.
  induction s as [|c t IH]; cbn; [reflexivity|].
  destruct (p c); [|reflexivity].
  destruct (span p t); cbn in *. now rewrite IH at 1.
Qed.

Lemma span_fst_all (p : char -> bool) s : forallb p (fst (span p s)) = true.
Proof.
  induction s as [|c t IH]; cbn; [reflexivity|].
  destruct (p c) eqn:E; [|reflexivity].
  destruct (span p t); cbn in *. now rewrite E.
Qed.

Lemma span_snd_hd (p : char -> bool) s c r :
  snd (span p s) = c :: r -> p c = false.
Proof.
  induction s as [|d t IH]; cbn; [discriminate|].
  destruct (p d) eqn:E.
  - destruct (span p t); cbn in *. exact IH.
  - cbn. intros [= -> _]. exact E.
Qed.

(** The match of [a{min,}] at a position: the longest run of code units
    the atom accepts, when it has [min] of them. *)
Lemma match_at_rep a ic min g prev rest pos :
  let re := {| source := Rep min None true a; ignoreCase := ic; global := g |} in
  let n := List.length (fst (span (atom_match ic a) rest)) in
  (min <= n -> exists m, match_at re prev rest pos = Some m
                         /\ endIndex m = pos + n)
  /\ (n < min -> match_at re prev rest pos = None).
Proof.
  intros re n. unfold match_at, re. cbn [ms source ignoreCase m_prev m_rest m_pos m_caps].
  split; intro H.
  - destruct (rep_atom_greedy_hd (atom_match ic a) rest min prev pos [] H)
      as [prev' [tl E]].
    rewrite E. eexists. split; [reflexivity|]. reflexivity.
  - rewrite rep_atom_nil by exact H. reflexivity.
Qed.

Lemma span_lead_firstn (q : char -> bool) s :
  firstn (lead q s) s = fst (span q s) /\ skipn (lead q s) s = snd (span q s).
Proof.
  unfold lead. pose proof (span_app q s) as H.
  destruct (span q s) as [x r]. cbn [fst snd] in *. subst s.
  rewrite firstn_app, skipn_app, firstn_all, skipn_all, Nat.sub_diag.
  cbn. now rewrite app_nil_r.
Qed.

Lemma lead_cons q c t :
  lead q (c :: t) = if q c then S (lead q t) else 0.
Proof.
  unfold lead. cbn. destruct (q c); [|reflexivity].
  destruct (span q t); reflexivity.
Qed.

Lemma lead_nil q : lead q [] = 0.
Proof. reflexivity. Qed.

Lemma lead_app_le q a b : lead q a <= lead q (a ++ b).
Proof.
  induction a as [|c a IH]; cbn [app]; [rewrite lead_nil; lia|].
  rewrite !lead_cons. destruct (q c); lia.
Qed.

Lemma lead_all q x s :
  forallb q x = true -> lead q (x ++ s) = List.length x + lead q s.
Proof.
  induction x as [|c x IH]; cbn [app forallb List.length]; [reflexivity|].
  intro H. apply andb_true_iff in H. destruct H as [Hc Hx].
  rewrite lead_cons, Hc, IH by exact Hx. reflexivity.
Qed.

Lemma runs_le_app_r q k a b :
  runs_le q k (a ++ b) = true -> runs_le q k b = true.
Proof.
  induction a as [|c a IH]; cbn [app]; [auto|].
  cbn [runs_le]. intro H. apply andb_true_iff in H. now apply IH.
Qed.

Lemma runs_le_app_l q k a b :
  runs_le q k (a ++ b) = true -> runs_le q k a = true.
Proof.
  induction a as [|c a IH]; cbn [app]; [reflexivity|].
  cbn [runs_le]. intro H. apply andb_true_iff in H. destruct H as [H1 H2].
  apply andb_true_iff. split; [|now apply IH].
  apply Nat.leb_le. apply Nat.leb_le in H1.
  pose proof (lead_app_le q (c :: a) b). cbn [app] in *. lia.
Qed.

Lemma runs_le_occurs q k x s :
  forallb q x = true -> k < List.length x -> occurs x s ->
  runs_le q k s = false.
Proof.
  intros Hx Hk [pre [post ->]].
  destruct (runs_le q k (pre ++ x ++ post)) eqn:E; [|reflexivity].
  apply runs_le_app_r in E. destruct x as [|c x]; [cbn in Hk; lia|].
  cbn [app runs_le] in E. apply andb_true_iff in E. destruct E as [E _].
  apply Nat.leb_le in E.
  change (c :: x ++ post) with ((c :: x) ++ post) in E.
  rewrite lead_all in E by exact Hx. lia.
Qed.

(** ** Replacement of the runs of one atom *)

Section RepReplace.

Variables (a : atom) (ic : bool) (min : nat) (by_ : jsstring).
Hypothesis Hmin : 1 <= min.

Local Abbreviation ok := (atom_match ic a).
Local Abbreviation re :=
  {| source := Rep min None true a; ignoreCase := ic; global := true |}.

Lemma replace_from_rep_step rest prev pos :
  replace_from re by_ true prev rest pos 0 =
  match rest with
  | [] => []
  | c :: t =>
      if Nat.leb min (lead ok rest)
      then by_ ++ replace_from re by_ true (Some c) t (S pos) (lead ok t)
      else c :: replace_from re by_ true (Some c) t (S pos) 0
  end.
Proof.
  destruct (match_at_rep a ic min true prev rest pos) as [Hyes Hno].
  fold (lead ok rest) in Hyes, Hno.
  destruct rest as [|c t]; cbn [replace_from].
  - rewrite Hno by (rewrite lead_nil; lia). reflexivity.
  - destruct (Nat.leb min (lead ok (c :: t))) eqn:E.
    + apply Nat.leb_le in E. destruct (Hyes E) as [m [-> Hend]].
      rewrite Hend. rewrite lead_cons in *.
      destruct (ok c); [|lia].
      replace (pos + S (lead ok t) - pos) with (S (lead ok t)) by lia.
      reflexivity.
    + apply Nat.leb_gt in E. rewrite (Hno E). reflexivity.
Qed.

Lemma replace_from_rep_replaced : forall rest prev pos skip,
  replaced ok by_ (skipn skip rest)
           (replace_from re by_ true prev rest pos skip).
Proof.
  induction rest as [|c t IH]; intros prev pos skip.
  - destruct skip; [rewrite replace_from_rep_step|cbn]; constructor.
  - destruct skip as [|k]; [|cbn [replace_from skipn]; apply IH].
    rewrite replace_from_rep_step. cbn [skipn].
    destruct (Nat.leb min (lead ok (c :: t))) eqn:E.
    + apply Nat.leb_le in E. rewrite lead_cons in E.
      destruct (ok c) eqn:Hc; [|lia].
      destruct (span_lead_firstn ok t) as [Hf Hs].
      rewrite <- (firstn_skipn (lead ok t) t) at 1.
      change (c :: firstn (lead ok t) t ++ skipn (lead ok t) t)
        with ((c :: firstn (lead ok t) t) ++ skipn (lead ok t) t).
      apply replaced_run; [discriminate| |apply IH].
      cbn [forallb]. rewrite Hc, Hf. apply span_fst_all.
    + apply replaced_keep. apply (IH (Some c) (S pos) 0).
Qed.

Lemma runs_le_by k o :
  forallb ok by_ = true -> List.length by_ <= k ->
  lead ok o = 0 -> runs_le ok k o = true -> runs_le ok k (by_ ++ o) = true.
Proof.
  intros Hby Hlen Hlead Ho. induction by_ as [|b l IH]; [exact Ho|].
  cbn [app runs_le]. apply andb_true_iff. split.
  - apply Nat.leb_le. change (b :: l ++ o) with ((b :: l) ++ o).
    rewrite lead_all by exact Hby. lia.
  - cbn [forallb] in Hby. apply andb_true_iff in Hby.
    apply IH; [tauto|cbn in Hlen; lia].
Qed.

Lemma replace_from_rep_runs k :
  forallb ok by_ = true -> List.length by_ <= k -> min <= S k ->
  forall rest prev pos,
    (runs_le ok k (replace_from re by_ true prev rest pos 0) = true
     /\ lead ok (replace_from re by_ true prev rest pos 0) <= k
     /\ (lead ok rest < min ->
         lead ok (replace_from re by_ true prev rest pos 0) <= lead ok rest))
    /\ (runs_le ok k (replace_from re by_ true prev rest pos (lead ok rest))
        = true
        /\ lead ok (replace_from re by_ true prev rest pos (lead ok rest)) = 0).
Proof.
  intros Hby Hlen Hk. induction rest as [|c t IH]; intros prev pos.
  - rewrite lead_nil, replace_from_rep_step. cbn. repeat split; lia.
  - assert (H0 : runs_le ok k (replace_from re by_ true prev (c :: t) pos 0) = true
              /\ lead ok (replace_from re by_ true prev (c :: t) pos 0) <= k
              /\ (lead ok (c :: t) < min ->
                  lead ok (replace_from re by_ true prev (c :: t) pos 0)
                  <= lead ok (c :: t))).
    { rewrite replace_from_rep_step.
      destruct (Nat.leb min (lead ok (c :: t))) eqn:E.
      - apply Nat.leb_le in E.
        destruct (IH (Some c) (S pos)) as [_ [Hr Hl]].
        split; [now apply runs_le_by|]. split.
        + rewrite lead_all, Hl by exact Hby. lia.
        + lia.
      - apply Nat.leb_gt in E.
        destruct (IH (Some c) (S pos)) as [[Hr [Hl Hle]] _].
        rewrite lead_cons in E. rewrite !lead_cons.
        destruct (ok c) eqn:Hc.
        + assert (Hlt : lead ok t < min) by lia. specialize (Hle Hlt).
          split; [|lia]. cbn [runs_le]. rewrite lead_cons, Hc.
          apply andb_true_iff. split; [apply Nat.leb_le; lia|exact Hr].
        + split; [|lia]. cbn [runs_le]. rewrite lead_cons, Hc.
          apply andb_true_iff. split; [reflexivity|exact Hr]. }
    split; [exact H0|].
    rewrite lead_cons. destruct (ok c) eqn:Hc.
    + cbn [replace_from]. apply (IH (Some c) (S pos)).
    + destruct H0 as [Hr [_ Hle]]. rewrite lead_cons, Hc in Hle.
      split; [exact Hr|]. specialize (Hle ltac:(lia)). lia.
Qed.

Lemma replace_from_rep1_chars :
  min = 1 ->
  forall rest prev pos skip,
    Forall (fun c => ok c = false \/ In c by_)
           (replace_from re by_ true prev rest pos skip).
Proof.
  intro H1. induction rest as [|c t IH]; intros prev pos skip.
  - destruct skip; [rewrite replace_from_rep_step|cbn]; constructor.
  - destruct skip as [|k]; [|cbn [replace_from]; apply IH].
    rewrite replace_from_rep_step.
    destruct (Nat.leb min (lead ok (c :: t))) eqn:E.
    + apply Forall_app. split; [|apply IH].
      apply Forall_forall. auto.
    + apply Nat.leb_gt in E. rewrite lead_cons in E.
      constructor; [|apply IH]. destruct (ok c); [lia|auto].
Qed.

End RepReplace.

(** ** Texts with runs replaced *)

Lemma replaced_flat_map (ok : char -> bool) by_ s :
  replaced ok by_ s (flat_map (fun c => if ok c then by_ else [c]) s).
Proof.
  induction s as [|c t IH]; cbn [flat_map]; [constructor|].
  destruct (ok c) eqn:Hc.
  - apply (replaced_run ok by_ [c] t); [discriminate|cbn; now rewrite Hc|exact IH].
  - now apply replaced_keep.
Qed.

Lemma replaced_nil_inv ok by_ o : replaced ok by_ [] o -> o = [].
Proof.
  intro H. remember [] as s eqn:Es.
  destruct H as [|c s o H|x s o Hx Hok H]; [reflexivity|discriminate|].
  apply app_eq_nil in Es. destruct Es. contradiction.
Qed.

Lemma replaced_chars (P : char -> Prop) ok by_ s o :
  replaced ok by_ s o -> Forall P by_ -> Forall P s -> Forall P o.
Proof.
  intros H Hby. induction H as [|c s o H IH|x s o Hx Hok H IH]; intro Hs.
  - constructor.
  - inversion Hs; subst. constructor; auto.
  - apply Forall_app in Hs. apply Forall_app. split; [exact Hby|tauto].
Qed.

Lemma replaced_hd ok by_ c s o :
  ok c = false -> replaced ok by_ (c :: s) o ->
  exists o', o = c :: o' /\ replaced ok by_ s o'.
Proof.
  intros Hc H. inversion H as [|c' s' o' H' |x s' o' Hx Hok H' E]; subst.
  - eauto.
  - destruct x as [|d x]; [congruence|]. cbn in E. injection E as -> _.
    cbn in Hok. rewrite Hc in Hok. discriminate.
Qed.

Lemma runs_le_plain (q : char -> bool) k b o :
  forallb (fun c => negb (q c)) b = true ->
  runs_le q k o = true -> runs_le q k (b ++ o) = true.
Proof.
  intros Hb Ho. induction b as [|c l IH]; [exact Ho|].
  cbn [app runs_le]. cbn [forallb] in Hb.
  apply andb_true_iff in Hb. destruct Hb as [Hc Hl].
  apply andb_true_iff. split; [|now apply IH].
  rewrite lead_cons. destruct (q c); [discriminate|reflexivity].
Qed.

Lemma replaced_runs_le (q ok : char -> bool) k by_ s o :
  replaced ok by_ s o ->
  by_ <> [] -> forallb (fun c => negb (q c)) by_ = true ->
  runs_le q k s = true ->
  runs_le q k o = true /\ lead q o <= lead q s.
Proof.
  intros H Hne Hby.
  assert (Hlead : forall o', lead q (by_ ++ o') = 0).
  { intro o'. destruct by_ as [|b l]; [contradiction|].
    cbn [app]. rewrite lead_cons. cbn in Hby.
    destruct (q b); [discriminate|reflexivity]. }
  induction H as [|c s o H IH|x s o Hx Hok H IH]; intro Hs.
  - split; [reflexivity|lia].
  - cbn [runs_le] in Hs. apply andb_true_iff in Hs. destruct Hs as [H1 H2].
    destruct (IH H2) as [Hr Hl]. apply Nat.leb_le in H1.
    assert (Hc : lead q (c :: o) <= lead q (c :: s)).
    { rewrite !lead_cons. destruct (q c); lia. }
    split; [|exact Hc]. cbn [runs_le]. apply andb_true_iff.
    split; [apply Nat.leb_le; lia|exact Hr].
  - apply runs_le_app_r in Hs. destruct (IH Hs) as [Hr _].
    rewrite Hlead. split; [|lia]. now apply runs_le_plain.
Qed.

(** ** Texts without tags *)

Lemma tagless_app_r a b : tagless (a ++ b) = true -> tagless b = true.
Proof.
  induction a as [|c a IH]; cbn [app]; [auto|].
  cbn [tagless]. intro H. apply andb_true_iff in H. now apply IH.
Qed.

Lemma existsb_app_l (p : char -> bool) a b :
  existsb p a = true -> existsb p (a ++ b) = true.
Proof. intro H. rewrite existsb_app, H. reflexivity. Qed.

Lemma tagless_app_l a b : tagless (a ++ b) = true -> tagless a = true.
Proof.
  induction a as [|c a IH]; cbn [app]; [reflexivity|].
  cbn [tagless]. intro H. apply andb_true_iff in H. destruct H as [H1 H2].
  apply andb_true_iff. split; [|now apply IH].
  destruct (c =? 60)%N; [|reflexivity].
  destruct a as [|d a]; [reflexivity|]. cbn [app] in H1.
  apply orb_true_iff in H1. apply orb_true_iff.
  destruct H1 as [H1|H1]; [now left|right].
  apply negb_true_iff in H1. apply negb_true_iff.
  destruct (existsb (N.eqb 62) (d :: a)) eqn:E; [|reflexivity].
  apply (existsb_app_l _ _ b) in E. cbn [app] in E.
  exact (eq_trans (eq_sym E) H1).
Qed.

Lemma tagless_app_plain b o :
  ~ In 60%N b -> tagless o = true -> tagless (b ++ o) = true.
Proof.
  intros Hb Ho. induction b as [|c b IH]; [exact Ho|].
  cbn [app tagless]. apply andb_true_iff. split.
  - destruct (c =? 60)%N eqn:E; [|reflexivity].
    apply N.eqb_eq in E. subst. exfalso. apply Hb. now left.
  - apply IH. intro H. apply Hb. now right.
Qed.

Lemma existsb_false_Forall (x : char) s :
  existsb (N.eqb x) s = false <-> Forall (fun c => c <> x) s.
Proof.
  induction s as [|c t IH]; cbn [existsb].
  - split; [constructor|reflexivity].
  - rewrite orb_false_iff, IH, N.eqb_neq. split.
    + intros [A B]. constructor; [congruence|exact B].
    + intro H. inversion H; subst. split; [congruence|assumption].
Qed.

Lemma replaced_tagless ok by_ s o :
  replaced ok by_ s o ->
  ok 62%N = false -> ~ In 60%N by_ -> ~ In 62%N by_ ->
  tagless s = true -> tagless o = true.
Proof.
  intros H Hgt Hb60 Hb62.
  assert (Hby : Forall (fun c => c <> 62%N) by_).
  { apply Forall_forall. intros c Hc ->. contradiction. }
  induction H as [|c s o H IH|x s o Hx Hok H IH]; intro Hs.
  - reflexivity.
  - cbn [tagless] in Hs. apply andb_true_iff in Hs. destruct Hs as [H1 H2].
    cbn [tagless]. apply andb_true_iff. split; [|now apply IH].
    destruct (c =? 60)%N; [|reflexivity].
    destruct s as [|d s].
    + apply replaced_nil_inv in H. now subst.
    + destruct o as [|e o]; [reflexivity|].
      apply orb_true_iff in H1. apply orb_true_iff.
      destruct H1 as [H1|H1].
      * apply N.eqb_eq in H1. subst d.
        destruct (replaced_hd _ _ _ _ _ Hgt H) as [o' [E _]].
        injection E as -> _. now left.
      * right. apply negb_true_iff in H1. apply negb_true_iff.
        apply existsb_false_Forall. apply existsb_false_Forall in H1.
        now apply (replaced_chars _ _ _ _ _ H).
  - apply tagless_app_plain; [exact Hb60|]. apply IH.
    now apply tagless_app_r in Hs.
Qed.

Lemma tagless_occurs x s :
  is_tag x -> occurs x s -> tagless s = false.
Proof.
  intros [inner [-> [Hne Hin]]] [pre [post ->]].
  destruct (tagless _) eqn:E; [|reflexivity].
  apply tagless_app_r, tagless_app_l in E.
  destruct inner as [|d inner]; [contradiction|].
  change (js "<" ++ (d :: inner) ++ js ">")
    with (60%N :: d :: inner ++ [62%N]) in E.
  cbn [tagless] in E. apply andb_true_iff in E. destruct E as [E _].
  cbn [N.eqb Pos.eqb] in E. apply orb_true_iff in E. destruct E as [E|E].
  - apply N.eqb_eq in E. subst. exfalso. apply Hin. now left.
  - apply negb_true_iff in E.
    change (d :: inner ++ [62%N]) with ((d :: inner) ++ [62%N]) in E.
    rewrite existsb_app in E. cbn in E. rewrite orb_true_r in E. discriminate.
Qed.

(** ** The replacement of tags *)

Lemma tagRegex_source :
  source tagRegex
  = Seq (chr 60%N) (Seq (Rep 1 None true (none_of [62%N])) (chr 62%N)).
Proof. reflexivity. Qed.

Lemma tag_match_complete prev pos inner r :
  inner <> [] -> Forall (fun c => c <> 62%N) inner ->
  match_at tagRegex prev (60%N :: inner ++ 62%N :: r) pos <> None.
Proof.
  intros Hne Hin.
  set (s1 := MState (Some 60%N) (inner ++ 62%N :: r) (S pos) []).
  destruct (ms_rep_complete false (none_of [62%N]) 1 None true s1 inner
              (62%N :: r)) as [s2 [H2 [Hr _]]].
  - reflexivity.
  - apply forallb_forall. intros c Hc.
    rewrite Forall_forall in Hin. specialize (Hin c Hc).
    cbn. apply N.eqb_neq in Hin. unfold char_eqb. now rewrite Hin.
  - destruct inner; [contradiction|cbn; lia].
  - exact I.
  - apply (match_at_complete tagRegex prev _ pos
             (MState (Some 62%N) r (S (m_pos s2)) (m_caps s2))).
    rewrite tagRegex_source. cbn [ignoreCase tagRegex].
    apply in_ms_seq. exists s1. split; [cbn; left; reflexivity|].
    apply in_ms_seq. exists s2. split; [exact H2|].
    cbn [ms chr]. rewrite Hr. cbn. left. reflexivity.
Qed.

Lemma tag_match_start prev c t pos m :
  match_at tagRegex prev (c :: t) pos = Some m ->
  c = 60%N /\ pos < endIndex m.
Proof.
  intro H. apply match_at_inv in H. destruct H as [s' [Hs' ->]].
  rewrite tagRegex_source in Hs'. cbn [ignoreCase tagRegex] in Hs'.
  apply in_ms_seq in Hs'. destruct Hs' as [s1 [H1 H2]].
  cbn [ms chr m_rest atom_match m_pos m_caps] in H1.
  destruct (char_eqb 60%N c) eqn:Ec; [|contradiction].
  apply char_eqb_eq in Ec. destruct H1 as [<-|[]].
  apply ms_consumed in H2. destruct H2 as [x [_ Hp]].
  cbn [endIndex m_pos] in *. split; [congruence|lia].
Qed.

Lemma first_occurrence (x : char) t :
  existsb (N.eqb x) t = true ->
  exists inner r, t = inner ++ x :: r /\ Forall (fun c => c <> x) inner.
Proof.
  induction t as [|d t IH]; cbn [existsb]; [discriminate|].
  destruct (N.eqb x d) eqn:E.
  - apply N.eqb_eq in E. subst. intros _. exists [], t. split; [reflexivity|constructor].
  - cbn [orb]. intro H. destruct (IH H) as [inner [r [-> Hin]]].
    exists (d :: inner), r. split; [reflexivity|].
    constructor; [|exact Hin]. apply N.eqb_neq in E. congruence.
Qed.

Lemma replace_from_tag : forall rest prev pos skip,
  tagless (replace_from tagRegex (js " ") true prev rest pos skip) = true
  /\ (skip = 0 -> forall r, rest = 62%N :: r ->
      exists o, replace_from tagRegex (js " ") true prev rest pos skip
                = 62%N :: o).
Proof.
  induction rest as [|c t IH]; intros prev pos skip.
  - destruct skip; cbn [replace_from].
    + replace (match_at tagRegex prev [] pos) with (@None MatchResult)
        by reflexivity.
      split; [reflexivity|]. intros _ r H. discriminate.
    + split; [reflexivity|]. intros H. discriminate.
  - destruct skip as [|k]; cbn [replace_from];
      [|split; [apply IH|intro; discriminate]].
    destruct (match_at tagRegex prev (c :: t) pos) as [m|] eqn:Em.
    + destruct (tag_match_start _ _ _ _ _ Em) as [-> Hlt].
      destruct (endIndex m - pos) as [|n] eqn:Ed; [lia|].
      cbn [global tagRegex]. split.
      * change (js " ") with [32%N]. cbn [app tagless N.eqb Pos.eqb andb].
        apply IH.
      * intros _ r H. discriminate.
    + destruct (IH (Some c) (S pos) 0) as [Ht Hhd].
      assert (Hch : Forall (fun x => x <> 62%N) t ->
                    Forall (fun x => x <> 62%N)
                      (replace_from tagRegex (js " ") true (Some c) t (S pos) 0)).
      { apply replace_from_chars. repeat constructor. discriminate. }
      assert (Hnil : t = [] ->
                     replace_from tagRegex (js " ") true (Some c) t (S pos) 0 = []).
      { intros ->. reflexivity. }
      set (O1 := replace_from tagRegex (js " ") true (Some c) t (S pos) 0) in *.
      clearbody O1. split.
      * cbn [tagless]. apply andb_true_iff. split; [|exact Ht].
        destruct (c =? 60)%N eqn:Hc; [|reflexivity].
        apply N.eqb_eq in Hc. subst c.
        destruct t as [|d t']; [now rewrite Hnil|].
        destruct O1 as [|e o']; [reflexivity|].
        destruct (d =? 62)%N eqn:Hd.
        { apply N.eqb_eq in Hd. subst d.
          destruct (Hhd eq_refl t' eq_refl) as [o E].
          injection E as -> _. reflexivity. }
        apply orb_true_iff. right. apply negb_true_iff.
        apply existsb_false_Forall. apply Hch.
        apply existsb_false_Forall.
        destruct (existsb (N.eqb 62) (d :: t')) eqn:Ex; [|reflexivity].
        exfalso. destruct (first_occurrence _ _ Ex) as [inner [r [E Hin]]].
        assert (Hne : inner <> []).
        { intros ->. cbn in E. injection E as -> _. rewrite N.eqb_refl in Hd.
          discriminate. }
        rewrite E in Em. exact (tag_match_complete prev pos inner r Hne Hin Em).
      * intros _ r H. injection H as -> ->. eexists. reflexivity.
Qed.

(** ** Trimming *)

Lemma trimStart_suffix s : exists pre, s = pre ++ trimStart s.
Proof.
  induction s as [|c t [pre IH]]; [exists []; reflexivity|].
  cbn [trimStart]. destruct (is_space c).
  - exists (c :: pre). cbn. now rewrite <- IH.
  - exists []. reflexivity.
Qed.

Lemma trimStart_no_leading_space s : no_leading_space (trimStart s).
Proof.
  induction s as [|c t IH]; [exact I|].
  cbn [trimStart]. destruct (is_space c) eqn:E; [exact IH|exact E].
Qed.

Lemma trimEnd_prefix s : exists post, s = trimEnd s ++ post.
Proof.
  unfold trimEnd. destruct (trimStart_suffix (rev s)) as [pre E].
  exists (rev pre). rewrite <- rev_app_distr, <- E. now rewrite rev_involutive.
Qed.

Lemma trim_substring s : exists pre post, s = pre ++ trim s ++ post.
Proof.
  unfold trim. destruct (trimStart_suffix s) as [pre E].
  destruct (trimEnd_prefix (trimStart s)) as [post E'].
  exists pre, post. now rewrite <- E', <- E.
Qed.

Lemma trim_no_leading_space s : no_leading_space (trim s).
Proof.
  unfold trim. pose proof (trimStart_no_leading_space s) as H.
  destruct (trimEnd_prefix (trimStart s)) as [post E].
  destruct (trimEnd (trimStart s)) as [|c r]; [exact I|].
  rewrite E in H. exact H.
Qed.

Lemma trim_no_trailing_space s : no_trailing_space (trim s).
Proof.
  unfold no_trailing_space, trim, trimEnd. rewrite rev_involutive.
  apply trimStart_no_leading_space.
Qed.

(** ** The normalized text *)

Lemma cleanHtmlToText_substring html :
  exists s7 pre post,
    s7 = pre ++ cleanHtmlToText html ++ post
    /\ (cleanHtmlToText html = trim s7
        \/ List.length (cleanHtmlToText html) = maxLength)
    /\ no_leading_space (cleanHtmlToText html)
    /\ tagless s7 = true
    /\ runs_le (atom_match false (AChr LF)) 2 s7 = true
    /\ runs_le (atom_match false (one_of [32%N; TAB])) 1 s7 = true
    /\ Forall (fun c => c <> CR /\ c <> TAB) s7.
Proof.
  unfold cleanHtmlToText.
  set (s3 := replace (replace (replace html scriptRegex (js " ")) styleRegex
                        (js " ")) blockCloseRegex [LF]).
  set (s4 := replace s3 tagRegex (js " ")).
  set (s5 := replace s4 crRegex []).
  set (s6 := replace s5 newlinesRegex [LF; LF]).
  set (s7 := replace s6 blanksRegex (js " ")).
  exists s7.
  (* the tags *)
  assert (T4 : tagless s4 = true) by apply replace_from_tag.
  (* the carriage returns *)
  assert (E5 : s5 = flat_map (fun c => if atom_match false (AChr CR) c
                                       then [] else [c]) s4).
  { apply (replace_atom_global (AChr CR) false [] s4). }
  assert (R5 : replaced (atom_match false (AChr CR)) [] s4 s5).
  { rewrite E5. apply replaced_flat_map. }
  assert (T5 : tagless s5 = true).
  { apply (replaced_tagless _ _ _ _ R5); auto. }
  assert (C5 : Forall (fun c => c <> CR) s5).
  { rewrite E5, flat_map_drop. apply Forall_forall. intros c Hc.
    apply filter_In in Hc. destruct Hc as [_ Hc]. intros ->.
    discriminate. }
  (* the line feeds *)
  assert (R6 : replaced (atom_match false (AChr LF)) [LF; LF] s5 s6).
  { apply (replace_from_rep_replaced (AChr LF) false 3 [LF; LF]
             ltac:(lia) s5 None 0 0). }
  assert (T6 : tagless s6 = true).
  { apply (replaced_tagless _ _ _ _ R6); auto;
      cbn; intros [H|[H|[]]]; discriminate. }
  assert (L6 : runs_le (atom_match false (AChr LF)) 2 s6 = true).
  { apply (replace_from_rep_runs (AChr LF) false 3 [LF; LF] ltac:(lia) 2
             eq_refl ltac:(cbn; lia) ltac:(lia) s5 None 0). }
  assert (C6 : Forall (fun c => c <> CR) s6).
  { apply replace_chars; [repeat constructor; discriminate|exact C5]. }
  (* the blanks *)
  assert (R7 : replaced (atom_match false (one_of [32%N; TAB])) (js " ") s6 s7).
  { apply (replace_from_rep_replaced (one_of [32%N; TAB]) false 1 (js " ")
             ltac:(lia) s6 None 0 0). }
  assert (T7 : tagless s7 = true).
  { apply (replaced_tagless _ _ _ _ R7); auto;
      cbn; intros [H|[]]; discriminate. }
  assert (L7 : runs_le (atom_match false (AChr LF)) 2 s7 = true).
  { apply (replaced_runs_le _ _ 2 _ _ _ R7); [discriminate|reflexivity|exact L6]. }
  assert (B7 : runs_le (atom_match false (one_of [32%N; TAB])) 1 s7 = true).
  { apply (replace_from_rep_runs (one_of [32%N; TAB]) false 1 (js " ")
             ltac:(lia) 1 eq_refl ltac:(cbn; lia) ltac:(lia) s6 None 0). }
  assert (C7 : Forall (fun c => c <> CR /\ c <> TAB) s7).
  { assert (A : Forall (fun c => c <> CR) s7).
    { apply replace_chars; [repeat constructor; discriminate|exact C6]. }
    pose proof (replace_from_rep1_chars (one_of [32%N; TAB]) false 1 (js " ")
                  ltac:(lia) eq_refl s6 None 0 0) as B.
    fold (replace s6 blanksRegex (js " ")) in B. fold s7 in B.
    rewrite Forall_forall in *. intros c Hc. split; [now apply A|].
    intros ->. destruct (B _ Hc) as [H|[H|[]]]; discriminate. }
  destruct (trim_substring s7) as [pre [post E]].
  pose proof (trim_no_leading_space s7) as Hl.
  cbv zeta. destruct (Nat.ltb maxLength (List.length (trim s7))) eqn:Hlen.
  - exists pre, (skipn maxLength (trim s7) ++ post).
    apply Nat.ltb_lt in Hlen.
    split; [|split; [|split; [|repeat split; assumption]]].
    + unfold slice0. rewrite (app_assoc (firstn _ _)), firstn_skipn. exact E.
    + right. unfold slice0. rewrite length_firstn. lia.
    + unfold slice0. destruct (trim s7); [exact I|exact Hl].
  - exists pre, post. repeat split; auto.
Qed.

(** [cleanHtmlToText]: the normalized text has no carriage return and no
    tab, does not start with white space, and does not end with white
    space unless it was cut at 15,000 code units. *)
Theorem cleanHtmlToText_characters (html : jsstring) :
  ~ In CR (cleanHtmlToText html)
  /\ ~ In TAB (cleanHtmlToText html)
  /\ no_leading_space (cleanHtmlToText html)
  /\ (no_trailing_space (cleanHtmlToText html)
      \/ List.length (cleanHtmlToText html) = 15000).
Proof.
  destruct (cleanHtmlToText_substring html)
    as [s7 [pre [post [E [Ht [Hl [_ [_ [_ Hc]]]]]]]]].
  rewrite E in Hc. apply Forall_app in Hc. destruct Hc as [_ Hc].
  apply Forall_app in Hc. destruct Hc as [Hc _].
  rewrite Forall_forall in Hc.
  split; [intro H; now destruct (Hc _ H)|].
  split; [intro H; now destruct (Hc _ H)|].
  split; [exact Hl|].
  destruct Ht as [->|Ht]; [left; apply trim_no_trailing_space|right; exact Ht].
Qed.

Lemma cleanHtmlToText_characters_witness :
  ~ In CR (cleanHtmlToText (js "<p>a</p>")).
Proof. exact (proj1 (cleanHtmlToText_characters (js "<p>a</p>"))). Defined.

(** [cleanHtmlToText]: the normalized text never has two spaces in a row
    nor three line feeds in a row. *)
Theorem cleanHtmlToText_runs (html : jsstring) :
  ~ occurs (js "  ") (cleanHtmlToText html)
  /\ ~ occurs [LF; LF; LF] (cleanHtmlToText html).
Proof.
  destruct (cleanHtmlToText_substring html)
    as [s7 [pre [post [E [_ [_ [_ [Hn [Hb _]]]]]]]]].
  rewrite E in Hn, Hb.
  apply runs_le_app_r, runs_le_app_l in Hn.
  apply runs_le_app_r, runs_le_app_l in Hb.
  split; intro H.
  - apply (runs_le_occurs (atom_match false (one_of [32%N; TAB])) 1) in H;
      [congruence|reflexivity|cbn; lia].
  - apply (runs_le_occurs (atom_match false (AChr LF)) 2) in H;
      [congruence|reflexivity|cbn; lia].
Qed.

Lemma cleanHtmlToText_runs_witness :
  ~ occurs (js "  ") (cleanHtmlToText (js "a  <b>  </b>  c")).
Proof. exact (proj1 (cleanHtmlToText_runs (js "a  <b>  </b>  c"))). Defined.

(** [cleanHtmlToText]: no tag is left in the normalized text, that is, no
    [<] followed by one or more code units other than [>] and a [>]. *)
Theorem cleanHtmlToText_no_tag (html x : jsstring) :
  is_tag x -> ~ occurs x (cleanHtmlToText html).
Proof.
  intros Hx H.
  destruct (cleanHtmlToText_substring html)
    as [s7 [pre [post [E [_ [_ [Ht _]]]]]]].
  rewrite E in Ht. apply tagless_app_r, tagless_app_l in Ht.
  rewrite (tagless_occurs x _ Hx H) in Ht. discriminate.
Qed.

Lemma cleanHtmlToText_no_tag_witness :
  ~ occurs (js "<b>") (cleanHtmlToText (js "<p>a <b>bold</b> <<b>></p>")).
Proof.
  apply (cleanHtmlToText_no_tag (js "<p>a <b>bold</b> <<b>></p>") (js "<b>")).
  exists (js "b"). repeat split; [discriminate|].
  cbn. intros [H|[]]. discriminate.
Defined.

(** ** Numbers read from digits, points and commas *)

Lemma binary_round_aux_sign sx mx ex lx :
  binary_round_aux prec emax sx mx ex lx = NaN
  \/ negative (binary_round_aux prec emax sx mx ex lx) = sx.
Proof.
  unfold binary_round_aux.
  destruct (shr_fexp prec emax mx ex lx) as [mrs' e'].
  destruct (shr_fexp prec emax _ e' loc_Exact) as [mrs'' e''].
  destruct (shr_m mrs'') as [|m|m]; [right; reflexivity| |left; reflexivity].
  destruct (e'' <=? emax - prec)%Z; right; reflexivity.
Qed.

Lemma round_decimal_sign n scale :
  round_decimal n scale = NaN \/ negative (round_decimal n scale) = false.
Proof.
  unfold round_decimal. destruct n as [|p]; [right; reflexivity|].
  destruct scale as [|k|k].
  - unfold binary_normalize.
    destruct (Z.pos p * 10 ^ 0)%Z eqn:E; [right; reflexivity| |lia].
    unfold binary_round. destruct (shl_align _ _ _).
    apply binary_round_aux_sign.
  - unfold binary_normalize.
    destruct (Z.pos p * 10 ^ Z.pos k)%Z eqn:E; [right; reflexivity| |].
    + unfold binary_round. destruct (shl_align _ _ _).
      apply binary_round_aux_sign.
    + pose proof (Z.pow_pos_nonneg 10 (Z.pos k)). lia.
  - unfold SFdiv. destruct (SFdiv_core_binary _ _ _ _ _ _) as [[mz ez] lz].
    apply binary_round_aux_sign.
Qed.

Lemma is_price_char_cases c :
  is_price_char c = true ->
  ((48 <= c <= 57) \/ c = 46 \/ c = 44)%N.
Proof.
  unfold is_price_char, is_digit, char_eqb. intro H.
  apply orb_true_iff in H. destruct H as [H|H].
  - apply orb_true_iff in H. destruct H as [H|H].
    + apply andb_true_iff in H. destruct H as [A B].
      apply N.leb_le in A, B. auto.
    + apply N.eqb_eq in H. auto.
  - apply N.eqb_eq in H. auto.
Qed.

Lemma trim_chars (P : char -> Prop) s : Forall P s -> Forall P (trim s).
Proof.
  intro H. destruct (trim_substring s) as [pre [post E]].
  rewrite E in H. apply Forall_app in H. destruct H as [_ H].
  apply Forall_app in H. tauto.
Qed.

Lemma no_sign_split (c : char) (u : jsstring) :
  c <> 43%N -> c <> 45%N ->
  match c :: u with
  | 43%N :: v => (false, v)
  | 45%N :: v => (true, v)
  | _ => (false, c :: u)
  end = (false, c :: u).
Proof.
  intros H1 H2. destruct c as [|p]; [reflexivity|].
  do 6 (destruct p as [p|p|]; try reflexivity); congruence.
Qed.

Lemma parse_nondecimal_price_chars s :
  Forall (fun c => is_price_char c = true) s -> parse_nondecimal s = None.
Proof.
  intro H. unfold parse_nondecimal.
  destruct s as [|c [|x ds]]; [reflexivity| |].
  - destruct c as [|p]; [reflexivity|].
    do 6 (destruct p as [p|p|]; try reflexivity).
  - inversion H as [|? ? _ H']; subst. inversion H' as [|? ? Hx _]; subst.
    apply is_price_char_cases in Hx.
    assert (E : forall k, (58 <= k)%N -> (x =? k)%N = false).
    { intros k Hk. apply N.eqb_neq. lia. }
    rewrite !E by lia. cbn [orb].
    destruct c as [|p]; [reflexivity|].
    do 6 (destruct p as [p|p|]; try reflexivity).
Qed.

(** The Number of a text of digits, points and commas is not a Number,
    or has its sign bit clear. *)
Lemma StringToNumber_price_chars s :
  Forall (fun c => is_price_char c = true) s ->
  StringToNumber s = NaN \/ negative (StringToNumber s) = false.
Proof.
  intro H. unfold StringToNumber. apply (trim_chars _ _) in H.
  destruct (trim s) as [|c u] eqn:Et; [right; reflexivity|].
  rewrite (parse_nondecimal_price_chars _ H).
  inversion H as [|? ? Hc _]; subst. apply is_price_char_cases in Hc.
  rewrite no_sign_split by lia.
  replace (str_eqb (c :: u) (js "Infinity")) with false.
  2:{ symmetry. apply str_eqb_neq. intro E.
      change (js "Infinity") with (73%N :: js "nfinity") in E.
      injection E as -> _. lia. }
  destruct (parse_decimal (c :: u)) as [[m sc]|]; [|left; reflexivity].
  apply round_decimal_sign.
Qed.

Lemma Forall_skipn_list (P : char -> Prop) n s :
  Forall P s -> Forall P (skipn n s).
Proof.
  intro H. rewrite <- (firstn_skipn n s) in H.
  apply Forall_app in H. tauto.
Qed.

Lemma replace_str_chars (P : char -> Prop) pat by_ s :
  Forall P by_ -> Forall P s -> Forall P (replace_str pat by_ s).
Proof.
  intros Hby. induction s as [|c t IH]; intro Hs.
  - cbn [replace_str]. destruct (starts_with pat []); [|constructor].
    apply Forall_app. split; [exact Hby|]. now apply Forall_skipn_list.
  - cbn [replace_str]. destruct (starts_with pat (c :: t)).
    + apply Forall_app. split; [exact Hby|]. now apply Forall_skipn_list.
    + inversion Hs; subst. constructor; auto.
Qed.

Lemma price_text_cleaned raw :
  replace (replace raw spaceRegex []) nonPriceCharRegex []
  = filter is_price_char (filter (fun c => negb (is_space c)) raw).
Proof.
  unfold spaceRegex, nonPriceCharRegex.
  rewrite !replace_atom_global, !flat_map_drop.
  apply filter_ext. intro c. cbn [atom_match space].
  unfold is_price_char. now rewrite negb_involutive.
Qed.

Lemma cleaned_price_chars raw :
  Forall (fun c => is_price_char c = true)
    (replace_str (js ",") (js ".")
       (replace (replace raw spaceRegex []) nonPriceCharRegex [])).
Proof.
  apply replace_str_chars; [repeat constructor|].
  rewrite price_text_cleaned. apply Forall_forall. intros c Hc.
  apply filter_In in Hc. tauto.
Qed.

(** A price that is read is the finite Number of a text of digits,
    points and commas. *)
Lemma parsePriceFromString_value (raw : jsstring) (x : number) :
  parsePriceFromString raw = Some x ->
  isFinite x = true
  /\ exists s, Forall (fun c => is_price_char c = true) s
               /\ x = StringToNumber s.
Proof.
  unfold parsePriceFromString. cbv zeta.
  destruct (isFinite (StringToNumber _)) eqn:Hf; cbn [negb]; [|discriminate].
  intros [= <-]. split; [exact Hf|].
  eexists. split; [apply (cleaned_price_chars raw)|reflexivity].
Qed.

(** [parsePriceFromString]: a price that is read is a finite Number
    whose sign bit is clear: the sign of the text is dropped with the
    other code units that are not digits, points or commas. *)
Theorem parsePriceFromString_unsigned (raw : jsstring) (x : number) :
  parsePriceFromString raw = Some x ->
  isFinite x = true /\ negative x = false.
Proof.
  intro H. destruct (parsePriceFromString_value raw x H) as [Hf [s [Hs ->]]].
  split; [exact Hf|].
  destruct (StringToNumber_price_chars s Hs) as [E|E]; [|exact E].
  rewrite E in Hf. discriminate.
Qed.

Lemma parsePriceFromString_unsigned_witness :
  isFinite (decimal 799 (-1)) = true /\ negative (decimal 799 (-1)) = false.
Proof.
  apply (parsePriceFromString_unsigned (js "-79,90 €")).
  vm_compute. reflexivity.
Defined.

(** [parsePriceFromString]: a text without any digit, point or comma is
    read as the price 0, not as [null]. *)
Theorem parsePriceFromString_no_digit (raw : jsstring) :
  Forall (fun c => is_price_char c = false) raw ->
  parsePriceFromString raw = Some (S754_zero false).
Proof.
  intro H. unfold parsePriceFromString. cbv zeta.
  rewrite price_text_cleaned.
  replace (filter is_price_char (filter (fun c => negb (is_space c)) raw))
    with (@nil char); [reflexivity|].
  symmetry. induction raw as [|c t IH]; [reflexivity|].
  inversion H as [|? ? Hc Ht]; subst. cbn [filter].
  destruct (negb (is_space c)); cbn [filter]; [rewrite Hc|]; auto.
Qed.

Lemma parsePriceFromString_no_digit_witness :
  parsePriceFromString (js "Gratuit") = Some (S754_zero false).
Proof.
  apply parsePriceFromString_no_digit. repeat constructor.
Defined.

(** ** The structured pass *)

Lemma extract_loop_items : forall fuel html lastIndex items it,
  In it (extract_loop fuel html lastIndex items) ->
  In it items
  \/ exists j m, exec articleRegex html j = Some m /\ articleItem m = Some it.
Proof.
  induction fuel as [|fuel IH]; intros html lastIndex items it H;
    cbn [extract_loop] in H; [now left|].
  destruct (exec articleRegex html lastIndex) as [m|] eqn:Em; [|now left].
  apply IH in H. destruct H as [H|H]; [|now right].
  destruct (articleItem m) as [it'|] eqn:Ei; [|now left].
  apply in_app_or in H. destruct H as [H|[<-|[]]]; [now left|].
  right. eauto.
Qed.

Lemma articleRegex_source :
  source articleRegex
  = Seq (lit (js "<article"))
      (Seq WordB
        (Seq (star (none_of (js ">")))
          (Seq (lit (js "data-sku=" ++ [dquote]))
            (Seq (Group 1 (plus (none_of [dquote])))
              (Seq (lit [dquote])
                (Seq (star (none_of (js ">")))
                  (Seq (lit (js ">"))
                    (Seq (Group 2 (lazy_star any))
                         (lit (js "</article>")))))))))).
Proof. reflexivity. Qed.

Lemma no_group_lit l : no_group (lit l) = true.
Proof.
  induction l as [|c [|d t] IH]; try reflexivity.
  change (lit (c :: d :: t)) with (Seq (chr c) (lit (d :: t))).
  cbn [no_group]. rewrite IH. reflexivity.
Qed.

(** The first capture of an article match: the value of [data-sku]. *)
Lemma articleRegex_sku html lastIndex m :
  exec articleRegex html lastIndex = Some m ->
  exists v, group m 1 = Some v /\ v <> []
            /\ Forall (fun c => c <> dquote) v.
Proof.
  unfold exec. destruct (Nat.ltb _ _); [discriminate|]. intro H.
  apply search_sound in H. destruct H as [pre [rest [prev [_ H]]]].
  apply match_at_inv in H. destruct H as [s' [Hin ->]].
  set (pos := (if global articleRegex then lastIndex else 0)
              + List.length pre) in *.
  clearbody pos. set (s0 := MState prev rest pos []) in *.
  rewrite articleRegex_source in Hin.
  change (ignoreCase articleRegex) with true in Hin.
  apply in_ms_seq in Hin. destruct Hin as [s1 [H1 Hin]].
  apply in_ms_seq in Hin. destruct Hin as [s2 [H2 Hin]].
  apply in_ms_seq in Hin. destruct Hin as [s3 [H3 Hin]].
  apply in_ms_seq in Hin. destruct Hin as [s4 [H4 Hin]].
  apply in_ms_seq in Hin. destruct Hin as [s5 [H5 Hin]].
  apply in_ms_seq in Hin. destruct Hin as [s6 [H6 Hin]].
  apply in_ms_seq in Hin. destruct Hin as [s7 [H7 Hin]].
  apply in_ms_seq in Hin. destruct Hin as [s8 [H8 Hin]].
  apply in_ms_seq in Hin. destruct Hin as [s9 [H9 H10]].
  (* the text before the capture *)
  pose proof (ms_consumed _ _ _ _ H1) as [x1 C1].
  pose proof (ms_consumed _ _ _ _ H2) as [x2 C2].
  pose proof (ms_consumed _ _ _ _ H3) as [x3 C3].
  pose proof (ms_consumed _ _ _ _ H4) as [x4 C4].
  pose proof (consumed_trans _ _ _ _ _ C1
                (consumed_trans _ _ _ _ _ C2
                   (consumed_trans _ _ _ _ _ C3 C4))) as [R04 P04].
  assert (K4 : m_caps s4 = []).
  { rewrite (ms_no_group _ _ (no_group_lit _) _ _ H4).
    rewrite (ms_no_group true (star (none_of (js ">"))) eq_refl _ _ H3).
    rewrite (ms_no_group true WordB eq_refl _ _ H2).
    rewrite (ms_no_group _ _ (no_group_lit _) _ _ H1). reflexivity. }
  (* the capture *)
  apply in_ms_group in H5. destruct H5 as [sg [Hg E5]].
  apply in_ms_rep in Hg. destruct Hg as [v [[Rv Pv] [Hv [Lv Kv]]]].
  (* the captures after it *)
  assert (K8 : m_caps s8 = [(1, (m_pos s4, m_pos sg))]).
  { rewrite (ms_no_group _ _ (no_group_lit _) _ _ H8).
    rewrite (ms_no_group true (star (none_of (js ">"))) eq_refl _ _ H7).
    rewrite (ms_no_group _ _ (no_group_lit _) _ _ H6).
    subst s5. cbn [m_caps]. rewrite Kv, K4. reflexivity. }
  apply in_ms_group in H9. destruct H9 as [sh [Hh E9]].
  assert (Kh : m_caps sh = m_caps s8).
  { apply (ms_no_group true (lazy_star any) eq_refl _ _ Hh). }
  assert (K' : m_caps s' = [(2, (m_pos s8, m_pos sh));
                            (1, (m_pos s4, m_pos sg))]).
  { rewrite (ms_no_group _ _ (no_group_lit _) _ _ H10).
    subst s9. cbn [m_caps]. rewrite Kh, K8. reflexivity. }
  exists v. split; [|split].
  - cbn [group captures]. rewrite K'. cbn [map fst snd assoc Nat.eqb].
    f_equal. rewrite Pv, P04. cbn [m_pos s0].
    apply substring_spec with (r := m_rest sg).
    cbn [m_rest s0] in R04. rewrite R04, Rv. reflexivity.
  - destruct v; [cbn in Lv; lia|discriminate].
  - apply Forall_forall. intros c Hc.
    rewrite forallb_forall in Hv. specialize (Hv c Hc).
    cbn in Hv. intros ->. discriminate.
Qed.

Lemma articleItem_fields m it :
  articleItem m = Some it ->
  sku it = group_or_empty m 1
  /\ Scraping.currency it = js "EUR"
  /\ exists raw, parsePriceFromString raw = Some (price it).
Proof.
  unfold articleItem. cbv zeta.
  destruct (exec nameRegex _ 0) as [nm|]; [|discriminate].
  set (rawPrice := match truthy_group _ 1 with Some v => v | None => _ end).
  destruct (exec priceDataRegex _ 0); destruct (exec priceTextRegex _ 0);
    try discriminate;
    (destruct (parsePriceFromString rawPrice) as [p|] eqn:Ep; [|discriminate];
     intros [= <-]; cbn; eauto).
Qed.

(** [extractPricingFromHtml]: every item of the structured pass has the
    currency EUR, a finite price whose sign bit is clear, and for [sku] a
    non-empty text without double quote. *)
Theorem extractPricingFromHtml_items (html : jsstring)
    (it : Scraping.PricingItem) :
  In it (extractPricingFromHtml html) ->
  Scraping.currency it = js "EUR"
  /\ isFinite (price it) = true /\ negative (price it) = false
  /\ sku it <> [] /\ ~ In dquote (sku it).
Proof.
  intro H. apply extract_loop_items in H.
  destruct H as [[]|[j [m [Em Ei]]]].
  apply articleItem_fields in Ei. destruct Ei as [Es [Ec [raw Ep]]].
  destruct (parsePriceFromString_value _ _ Ep) as [Hf [s [Hs Ex]]].
  assert (Hn : negative (price it) = false).
  { rewrite Ex in *. destruct (StringToNumber_price_chars s Hs) as [E|E];
      [rewrite E in Hf; discriminate|exact E]. }
  destruct (articleRegex_sku _ _ _ Em) as [v [Ev [Hv Hq]]].
  unfold group_or_empty in Es. rewrite Ev in Es. rewrite Es.
  repeat split; auto.
  intro Hin. rewrite Forall_forall in Hq. now apply (Hq _ Hin).
Qed.

Lemma extractPricingFromHtml_items_witness :
  In product_item (extractPricingFromHtml product_block)
  /\ Scraping.currency product_item = js "EUR"
  /\ isFinite (price product_item) = true
  /\ negative (price product_item) = false
  /\ sku product_item <> [] /\ ~ In dquote (sku product_item).
Proof.
  assert (H : In product_item (extractPricingFromHtml product_block))
    by (vm_compute; left; reflexivity).
  split; [exact H|].
  exact (extractPricingFromHtml_items product_block product_item H).
Defined.

(** ** The amounts of the loose pass *)

Lemma ms_amount_chars s s' :
  In s' (ms true amountPattern s) ->
  exists x, consumed s s' x
            /\ Forall (fun c => is_price_char c = true) x
            /\ m_caps s' = m_caps s.
Proof.
  unfold amountPattern. cbn [seqs]. intro H.
  apply in_ms_seq in H. destruct H as [s1 [H1 H]].
  apply in_ms_seq in H. destruct H as [s2 [H2 H3]].
  apply in_ms_rep in H1. destruct H1 as [x1 [C1 [F1 [_ K1]]]].
  apply in_ms_rep in H2. destruct H2 as [x2 [C2 [F2 [_ K2]]]].
  apply in_ms_rep in H3. destruct H3 as [x3 [C3 [F3 [_ K3]]]].
  exists (x1 ++ x2 ++ x3). split; [|split; [|congruence]].
  - eapply consumed_trans; [exact C1|]. eapply consumed_trans; eauto.
  - rewrite forallb_forall in F1, F2, F3.
    rewrite !Forall_app, !Forall_forall. repeat split; intros c Hc.
    + specialize (F1 c Hc). cbn in F1. unfold is_price_char.
      now rewrite F1.
    + specialize (F2 c Hc). cbn in F2. unfold is_price_char.
      apply orb_true_iff in F2. destruct F2 as [F2|F2].
      * rewrite F2. now rewrite orb_true_r.
      * rewrite orb_false_r in F2. rewrite F2. now rewrite orb_true_r.
    + specialize (F3 c Hc). cbn in F3. unfold is_price_char.
      now rewrite F3.
Qed.

Lemma priceRegex_amount_text line m :
  match_ line priceRegex = Some m ->
  (exists a, group m 1 = Some a /\ group m 4 = None
             /\ Forall (fun c => is_price_char c = true) a)
  \/ (exists a, group m 1 = None /\ group m 4 = Some a
                /\ Forall (fun c => is_price_char c = true) a).
Proof.
  rewrite match_unfold by reflexivity. intro H.
  apply search_sound in H. destruct H as [pre [rest [prev [_ H]]]].
  apply match_at_inv in H. destruct H as [s' [Hin ->]].
  set (pos := 0 + List.length pre) in *. clearbody pos.
  set (s0 := MState prev rest pos []) in *.
  change (ignoreCase priceRegex) with true in Hin.
  change (source priceRegex) with
    (Alt (Seq (Group 1 amountPattern) (Seq (star space) (Group 2 currencyPattern)))
         (Seq (Group 3 (lit (js "$"))) (Seq (star space) (Group 4 amountPattern))))
    in Hin.
  apply in_ms_alt in Hin. destruct Hin as [Hin|Hin].
  - apply in_ms_seq in Hin. destruct Hin as [s1 [H1 Hin]].
    apply in_ms_seq in Hin. destruct Hin as [s2 [H2 H3]].
    apply in_ms_group in H1. destruct H1 as [s1a [H1 E1]].
    apply ms_amount_chars in H1. destruct H1 as [xa [Ca [Na Ka]]].
    apply in_ms_rep in H2. destruct H2 as [w [Cw [_ [_ Kw]]]].
    apply in_ms_group in H3. destruct H3 as [s3 [H3 E3]].
    apply ms_token_sound in H3. destruct H3 as [xt [Ct [Tt Kt]]].
    assert (Kw1 : m_caps s2 = [(1, (pos, m_pos s1a))]).
    { rewrite Kw. subst s1. cbn. rewrite Ka. reflexivity. }
    destruct Ca as [Ra Pa]. cbn [m_rest m_pos s0] in Ra, Pa.
    left. exists xa. split; [|split; [|exact Na]].
    + subst s'. cbn [group captures assoc m_caps map fst snd Nat.eqb].
      rewrite Kt, Kw1. cbn [map fst snd assoc Nat.eqb].
      f_equal. rewrite Pa.
      replace pos with (pos + List.length (@nil char)) at 2 by (cbn; lia).
      replace (pos + List.length xa)
        with (pos + List.length (@nil char) + List.length xa) by (cbn; lia).
      apply substring_spec with (r := m_rest s1a). cbn. exact Ra.
    + subst s'. cbn [group captures assoc m_caps map fst snd Nat.eqb].
      rewrite Kt, Kw1. reflexivity.
  - apply in_ms_seq in Hin. destruct Hin as [s1 [H1 Hin]].
    apply in_ms_seq in Hin. destruct Hin as [s2 [H2 H3]].
    apply in_ms_group in H1. destruct H1 as [s1a [H1 E1]].
    apply ms_lit_sound in H1. destruct H1 as [xd [Cd [Ed Kd]]].
    apply in_ms_rep in H2. destruct H2 as [w [Cw [_ [_ Kw]]]].
    apply in_ms_group in H3. destruct H3 as [s3 [H3 E3]].
    apply ms_amount_chars in H3. destruct H3 as [xa [Ca [Na Ka]]].
    assert (Cw1 : consumed s1a s2 w).
    { destruct Cw as [A B]. subst s1. cbn in *. split; auto. }
    assert (Kw1 : m_caps s2 = [(3, (pos, m_pos s1a))]).
    { rewrite Kw. subst s1. cbn. rewrite Kd. reflexivity. }
    destruct Cd as [Rd Pd], Cw1 as [Rw Pw], Ca as [Ra Pa].
    cbn [m_rest m_pos s0] in Rd, Pd.
    right. exists xa. split; [|split; [|exact Na]].
    + subst s'. cbn [group captures assoc m_caps map fst snd Nat.eqb].
      rewrite Ka, Kw1. reflexivity.
    + subst s'. cbn [group captures assoc m_caps map fst snd Nat.eqb].
      f_equal. rewrite Pa, Pw, Pd.
      replace (pos + List.length xd + List.length w)
        with (pos + List.length (xd ++ w)) by (rewrite length_app; lia).
      apply substring_spec with (r := m_rest s3).
      rewrite Rd, Rw, Ra, <- app_assoc. reflexivity.
Qed.

Lemma amount_text_chars line m a c :
  match_ line priceRegex = Some m ->
  amount_and_currency m = (Some a, c) ->
  Forall (fun c => is_price_char c = true) a.
Proof.
  intros Hm Ha. unfold amount_and_currency, truthy_capture in Ha.
  destruct (priceRegex_amount_text _ _ Hm) as [[x [E1 [E4 Hx]]]|[x [E1 [E4 Hx]]]];
    rewrite E1, E4 in Ha.
  - destruct x as [|d x]; [|destruct (group m 2) as [[|? ?]|]].
    + destruct (group m 3) as [[|? ?]|]; discriminate.
    + destruct (group m 3) as [[|? ?]|]; discriminate.
    + injection Ha as <- _. exact Hx.
    + destruct (group m 3) as [[|? ?]|]; discriminate.
  - destruct (group m 3) as [[|? ?]|]; try discriminate.
    destruct x as [|d x]; [discriminate|].
    injection Ha as <- _. exact Hx.
Qed.

(** [extractPricingFromText]: no item of the loose pass has a negative
    amount; a minus sign before the number is not part of the match. *)
Theorem extractPricingFromText_unsigned (text : option jsstring)
    (it : PricingItem) :
  In it (extractPricingFromText text) ->
  exists x, amount it = Some x /\ isFinite x = true /\ negative x = false.
Proof.
  intro Hin. unfold extractPricingFromText in Hin.
  destruct text as [t|]; [|contradiction].
  assert (Hl : In it (price_loop (text_lines t) [])).
  { destruct t; [contradiction|exact Hin]. }
  clear Hin. apply price_loop_items in Hl. destruct Hl as [[]|Hl].
  destruct Hl as [line [m [a [c [_ [Hm [Ha [Hf ->]]]]]]]].
  cbn [item_of amount]. eexists. split; [reflexivity|]. split; [exact Hf|].
  pose proof (amount_text_chars _ _ _ _ Hm Ha) as Hc.
  destruct (StringToNumber_price_chars
              (replace_str (js ",") (js ".") a)) as [E|E]; [| |exact E].
  - apply replace_str_chars; [repeat constructor|exact Hc].
  - rewrite E in Hf. discriminate.
Qed.

Lemma extractPricingFromText_unsigned_witness :
  exists x, amount (item_of (js "Remise : -15 €") (js "15") (Some (js "EUR")))
            = Some x
            /\ isFinite x = true /\ negative x = false.
Proof.
  apply (extractPricingFromText_unsigned (Some (js "Remise : -15 €"))).
  vm_compute. left. reflexivity.
Defined.

(** ** The rows of a capture run *)

Section ScrapeRows.
Context {rt : Runtime}.

Lemma slice0_stored n s : stored_within n (Some (slice0 n s)).
Proof. exists (slice0 n s). split; [reflexivity|apply slice0_length]. Qed.

Ltac run_row :=
  eexists; (split; [reflexivity|]); (split; [reflexivity|]);
  unfold change_of_run;
  cbn [Change.monitoredPageId Change.oldSnapshotId Change.newSnapshotId
       Change.createdAt Change.oldValue Change.newValue];
  change maxStoredLength with 2000;
  (split; [reflexivity|]); (split; [reflexivity|]);
  (split; [reflexivity|]); (split; [reflexivity|]);
  split; apply slice0_stored.

Ltac set_row kind name :=
  match goal with
  | |- context [?l ++ [?r]] =>
      lazymatch r with context [kind] => set (name := r) end
  end.

Lemma scrape_run_rows rawPageId w db k page code html :
  page_of_request rawPageId db = Some (k, page) ->
  fetch w (MonitoredPage.url page) = FetchResponse code html ->
  response_ok code = true ->
  exists snap tcs pcs msg db',
    ScrapeRoute.POST rawPageId w db
    = ({| ScrapeRoute.status := 201;
          ScrapeRoute.body :=
            ScrapeRoute.Created snap (hd_error (tcs ++ pcs))
              (match tcs ++ pcs with [] => false | _ => true end) msg |},
       db')
    /\ snap = fst (Db.createSnapshot db k (Some html) (Some (new_text html))
                     (now w) (new_pricing html) (dbNow w))
    /\ same_catalog db db'
    /\ Db.snapshots db' = Db.snapshots db ++ [snap]
    /\ Db.changes db' = Db.changes db ++ tcs ++ pcs
    /\ match Db.findFirstSnapshot db k with
       | None => tcs = [] /\ pcs = []
       | Some prev =>
           let oldText := or_empty (Snapshot.extractedText prev) in
           let oldPricing := or_null (Snapshot.extractedPricing prev) in
           let newPricing := or_null (new_pricing html) in
           (if text_changed oldText (new_text html)
            then exists c, tcs = [c] /\ Change.changeType c = TEXT
                           /\ change_of_run k prev snap w c
            else tcs = [])
           /\ (if price_changed oldPricing newPricing
               then exists c, pcs = [c] /\ Change.changeType c = PRICE
                              /\ change_of_run k prev snap w c
               else pcs = [])
       end.
Proof.
  unfold page_of_request, ScrapeRoute.POST. intros Hp Hf Hok.
  destruct (parsePageId rawPageId) as [id|]; [|discriminate].
  destruct (Db.key id) as [k'|]; [|discriminate].
  destruct (Db.findMonitoredPage db k') as [p|]; [|discriminate].
  injection Hp as -> ->.
  rewrite Hf. cbn [scrapePage]. rewrite Hok. cbn [negb].
  cbn [Scraping.rawHtml Scraping.extractedText].
  fold (new_text html). fold (new_items html). fold (new_pricing html).
  unfold Db.createSnapshot. cbn [fst].
  set (snap := {| Snapshot.id := Db.snapshotSeq db |}).
  set (db1 := {| Db.projects := Db.projects db |}).
  destruct (Db.findFirstSnapshot db k) as [prev|].
  - cbv zeta. change MIN_LENGTH_DELTA with 20%Z.
    fold (text_changed (or_empty (Snapshot.extractedText prev)) (new_text html)).
    change (Snapshot.extractedPricing snap) with (new_pricing html).
    fold (price_changed (or_null (Snapshot.extractedPricing prev))
                        (or_null (new_pricing html))).
    destruct (text_changed _ _); destruct (price_changed _ _);
      unfold Db.createChange; cbv iota beta zeta.
    + set_row TEXT row1. set_row PRICE row2.
      exists snap, [row1], [row2]. eexists _, _. split; [reflexivity|].
      split; [reflexivity|]. split; [repeat split|].
      split; [reflexivity|]. split; [cbn; rewrite <- app_assoc; reflexivity|].
      split; run_row.
    + set_row TEXT row1.
      exists snap, [row1], []. eexists _, _. split; [reflexivity|].
      split; [reflexivity|]. split; [repeat split|].
      split; [reflexivity|]. split; [reflexivity|].
      split; [|reflexivity]. run_row.
    + set_row PRICE row1.
      exists snap, [], [row1]. eexists _, _. split; [reflexivity|].
      split; [reflexivity|]. split; [repeat split|].
      split; [reflexivity|]. split; [reflexivity|].
      split; [reflexivity|]. run_row.
    + exists snap, [], []. eexists _, _. split; [reflexivity|].
      split; [reflexivity|]. split; [repeat split|].
      split; [reflexivity|]. split; [cbn; now rewrite app_nil_r|].
      split; reflexivity.
  - exists snap, [], []. eexists _, _. split; [reflexivity|].
    split; [reflexivity|]. split; [repeat split|].
    split; [reflexivity|]. split; [cbn; now rewrite app_nil_r|].
    split; reflexivity.
Qed.

End ScrapeRows.

Section ScrapeOutcomes.
Context {rt : Runtime}.

Lemma scrape_run_refused rawPageId w db :
  page_of_request rawPageId db = None ->
  exists st msg,
    ScrapeRoute.POST rawPageId w db
    = ({| ScrapeRoute.status := st;
          ScrapeRoute.body := ScrapeRoute.Message msg |}, db)
    /\ In st [400; 404; 500].
Proof.
  unfold page_of_request, ScrapeRoute.POST. intro H.
  destruct (parsePageId rawPageId) as [id|].
  - destruct (Db.key id) as [k|].
    + destruct (Db.findMonitoredPage db k) as [p|]; [discriminate|].
      eexists _, _. split; [reflexivity|]. cbn. auto.
    + eexists _, _. split; [reflexivity|]. cbn. auto.
  - eexists _, _. split; [reflexivity|]. cbn. auto.
Qed.

Lemma run_rows_length (b : bool) (P : Change.t -> Prop) (l : list Change.t) :
  (if b then exists c, l = [c] /\ P c else l = []) ->
  List.length l <= 1 /\ Forall P l.
Proof.
  destruct b.
  - intros [c [-> H]]. split; [cbn; lia|]. repeat constructor. exact H.
  - intros ->. split; [cbn; lia|constructor].
Qed.

Lemma latest_newer s : forall l best,
  (forall x, In x l -> (Snapshot.capturedAt x < Snapshot.capturedAt s)%Z) ->
  (forall b, best = Some b ->
             (Snapshot.capturedAt b < Snapshot.capturedAt s)%Z) ->
  Db.latest (l ++ [s]) best = Some s.
Proof.
  induction l as [|x l IH]; intros best Hl Hb; cbn [app Db.latest].
  - destruct best as [b|]; [|reflexivity].
    specialize (Hb b eq_refl). apply Z.ltb_lt in Hb. now rewrite Hb.
  - apply IH.
    + intros y Hy. apply Hl. now right.
    + intros b Eb. destruct best as [b0|].
      * destruct (Z.ltb _ _); injection Eb as <-; [apply Hl; now left|].
        now apply Hb.
      * injection Eb as <-. apply Hl. now left.
Qed.

Lemma findFirstSnapshot_new db db' k snap :
  Db.snapshots db' = Db.snapshots db ++ [snap] ->
  Snapshot.monitoredPageId snap = k ->
  captured_before db k (Snapshot.capturedAt snap) ->
  Db.findFirstSnapshot db' k = Some snap.
Proof.
  intros Es Ek Hb. unfold Db.findFirstSnapshot. rewrite Es, filter_app.
  cbn [filter]. rewrite Ek, Z.eqb_refl. apply latest_newer.
  - intros x Hx. apply filter_In in Hx. destruct Hx as [Hx Hk].
    apply Z.eqb_eq in Hk. now apply Hb.
  - discriminate.
Qed.

Lemma new_pricing_of_text html html' :
  new_text html = new_text html' -> new_pricing html = new_pricing html'.
Proof.
  intro E. unfold new_pricing, new_items. now rewrite E.
Qed.

Lemma text_changed_same s : text_changed s s = false.
Proof.
  unfold text_changed. replace (str_eqb s s) with true; [reflexivity|].
  symmetry. now apply str_eqb_eq.
Qed.

Lemma price_changed_same v : price_changed v v = false.
Proof.
  unfold price_changed.
  replace (str_eqb (stringify v) (stringify v)) with true; [reflexivity|].
  symmetry. now apply str_eqb_eq.
Qed.

End ScrapeOutcomes.

Section ScrapeProperties.
Context {rt : Runtime}.

(** [POST] of the capture route only appends rows: a run never writes
    the projects, the competitors, the pages or the reports, and never
    changes or removes a stored capture or change; it adds at most one
    capture and at most two changes, and changes only with a capture.
    The answer is 201, 400, 404 or 500: with 201 one capture was added,
    and with 400 or 404 the answer is a message and the database is left
    as it was.  Of an answer 500 only the bounds are stated: the writes
    of a run are not in a transaction, so a run that fails at a later
    write keeps the rows it has written. *)
Theorem scrape_POST_effect (rawPageId : jsstring) (w : ScrapeRoute.World)
    (db : Db.t) :
  let resp := fst (ScrapeRoute.POST rawPageId w db) in
  let db' := snd (ScrapeRoute.POST rawPageId w db) in
  same_catalog db db'
  /\ In (ScrapeRoute.status resp) [201; 400; 404; 500]
  /\ (exists snaps chs,
        Db.snapshots db' = Db.snapshots db ++ snaps
        /\ Db.changes db' = Db.changes db ++ chs
        /\ List.length snaps <= 1 /\ List.length chs <= 2
        /\ (chs <> [] -> snaps <> [])
        /\ (ScrapeRoute.status resp = 201 -> List.length snaps = 1))
  /\ (ScrapeRoute.status resp = 400 \/ ScrapeRoute.status resp = 404 ->
      (exists msg, ScrapeRoute.body resp = ScrapeRoute.Message msg)
      /\ db' = db).
Proof.
  cbv zeta.
  assert (Hsame : forall st : nat,
            In st [400; 404; 500] ->
            exists snaps chs : list _,
              Db.snapshots db = Db.snapshots db ++ snaps
              /\ Db.changes db = Db.changes db ++ chs
              /\ List.length snaps <= 1 /\ List.length chs <= 2
              /\ (chs <> [] -> snaps <> [])
              /\ (st = 201 -> List.length snaps = 1)).
  { intros st Hst. exists (@nil Snapshot.t), (@nil Change.t).
    rewrite !app_nil_r. repeat split; cbn; try lia; try congruence.
    intros ->. cbn in Hst. intuition discriminate. }
  destruct (page_of_request rawPageId db) as [[k page]|] eqn:Hp.
  - destruct (fetch_cases (fetch w (MonitoredPage.url page)))
      as [Hf|[code [html [Hf Hok]]]].
    + rewrite (scrape_run_fetch_failed rawPageId w db k page Hp Hf).
      cbn [fst snd ScrapeRoute.status ScrapeRoute.body].
      split; [repeat split|]. split; [cbn; auto|].
      split; [apply Hsame; cbn; auto|].
      intros [H|H]; discriminate.
    + destruct (scrape_run_rows rawPageId w db k page code html Hp Hf Hok)
        as [snap [tcs [pcs [msg [db' [E [_ [Hc [Hs [Hch Hr]]]]]]]]]].
      rewrite E. cbn [fst snd ScrapeRoute.status ScrapeRoute.body].
      split; [exact Hc|]. split; [cbn; auto|].
      split; [|intros [H|H]; discriminate].
      exists [snap], (tcs ++ pcs).
      split; [exact Hs|]. split; [exact Hch|].
      split; [cbn; lia|]. split; [|split; [discriminate|reflexivity]].
      rewrite length_app.
      destruct (Db.findFirstSnapshot db k) as [prev|].
      * destruct Hr as [Ht Hpc].
        apply run_rows_length in Ht. apply run_rows_length in Hpc. lia.
      * destruct Hr as [-> ->]. cbn. lia.
  - destruct (scrape_run_refused rawPageId w db Hp) as [st [msg [E Hst]]].
    rewrite E. cbn [fst snd ScrapeRoute.status ScrapeRoute.body].
    split; [repeat split|].
    split; [cbn in Hst |- *; intuition|].
    split; [apply Hsame; exact Hst|].
    intros _. split; [eexists; reflexivity|reflexivity].
Qed.

(** [POST] of the capture route: on a run for a page with a prior
    capture, the changes created are at most one TEXT change followed by
    at most one PRICE change; each belongs to the page, refers to the
    prior and to the new capture, is dated by the database clock and
    stores at most 2,000 code units of the old and of the new value. *)
Theorem scrape_POST_changes rawPageId w db k page code html prev :
  page_of_request rawPageId db = Some (k, page) ->
  fetch w (MonitoredPage.url page) = FetchResponse code html ->
  response_ok code = true ->
  Db.findFirstSnapshot db k = Some prev ->
  exists snap tcs pcs,
    Db.snapshots (snd (ScrapeRoute.POST rawPageId w db))
    = Db.snapshots db ++ [snap]
    /\ created db (snd (ScrapeRoute.POST rawPageId w db)) = tcs ++ pcs
    /\ List.length tcs <= 1 /\ List.length pcs <= 1
    /\ Forall (fun c => Change.changeType c = TEXT
                        /\ change_of_run k prev snap w c) tcs
    /\ Forall (fun c => Change.changeType c = PRICE
                        /\ change_of_run k prev snap w c) pcs.
Proof.
  intros Hp Hf Hok Hprev.
  destruct (scrape_run_rows rawPageId w db k page code html Hp Hf Hok)
    as [snap [tcs [pcs [msg [db' [E [_ [_ [Hs [Hch Hr]]]]]]]]]].
  rewrite E. cbn [snd]. rewrite Hprev in Hr. destruct Hr as [Ht Hpc].
  apply run_rows_length in Ht. apply run_rows_length in Hpc.
  exists snap, tcs, pcs. split; [exact Hs|].
  split; [apply created_app; exact Hch|]. tauto.
Qed.

(** [POST] of the capture route: the answer of a run that captured the
    page carries the new capture, [hasChange] is true exactly when the
    run created a change, and [change] is the first change created (the
    TEXT change when there are two), [null] when there is none. *)
Theorem scrape_POST_response rawPageId w db k page code html :
  page_of_request rawPageId db = Some (k, page) ->
  fetch w (MonitoredPage.url page) = FetchResponse code html ->
  response_ok code = true ->
  let db' := snd (ScrapeRoute.POST rawPageId w db) in
  exists snap msg,
    Db.snapshots db' = Db.snapshots db ++ [snap]
    /\ fst (ScrapeRoute.POST rawPageId w db)
       = {| ScrapeRoute.status := 201;
            ScrapeRoute.body :=
              ScrapeRoute.Created snap (hd_error (created db db'))
                (match created db db' with [] => false | _ => true end)
                msg |}.
Proof.
  intros Hp Hf Hok.
  destruct (scrape_run_rows rawPageId w db k page code html Hp Hf Hok)
    as [snap [tcs [pcs [msg [db' [E [_ [_ [Hs [Hch _]]]]]]]]]].
  rewrite E. cbn [fst snd]. exists snap, msg. split; [exact Hs|].
  rewrite (created_app db db' _ Hch). reflexivity.
Qed.

(** [POST] of the capture route: the capture stored by a run holds the
    fetched markup as it was received, the normalized text of that
    markup, and for pricing the items the loose pass reads in that
    normalized text ([null] when there is none); the items of the
    structured pass are not stored. *)
Theorem scrape_POST_snapshot rawPageId w db k page code html :
  page_of_request rawPageId db = Some (k, page) ->
  fetch w (MonitoredPage.url page) = FetchResponse code html ->
  response_ok code = true ->
  exists snap,
    Db.snapshots (snd (ScrapeRoute.POST rawPageId w db))
    = Db.snapshots db ++ [snap]
    /\ Snapshot.id snap = Db.snapshotSeq db
    /\ Snapshot.monitoredPageId snap = k
    /\ Snapshot.capturedAt snap = now w
    /\ Snapshot.rawHtml snap = Some html
    /\ Snapshot.extractedText snap = Some (cleanHtmlToText html)
    /\ Snapshot.extractedPricing snap
       = match extractPricingFromText (Some (cleanHtmlToText html)) with
         | [] => None
         | items => Some (pricing_json items)
         end.
Proof.
  intros Hp Hf Hok.
  destruct (scrape_run_rows rawPageId w db k page code html Hp Hf Hok)
    as [snap [tcs [pcs [msg [db' [E [Esnap [_ [Hs _]]]]]]]]].
  rewrite E. cbn [snd]. exists snap. split; [exact Hs|].
  subst snap. cbn [fst Db.createSnapshot Snapshot.id Snapshot.monitoredPageId
                   Snapshot.capturedAt Snapshot.rawHtml Snapshot.extractedText
                   Snapshot.extractedPricing].
  repeat split. unfold new_pricing, new_items, new_text.
  destruct (extractPricingFromText (Some (cleanHtmlToText html))); reflexivity.
Qed.

(** [POST] of the capture route: when a run has captured a page at a time
    later than its earlier captures, a following run that fetches markup
    with the same normalized text creates no change and answers
    [hasChange = false]. *)
Theorem scrape_POST_twice rawPageId w w' db k page code html code' html' :
  page_of_request rawPageId db = Some (k, page) ->
  fetch w (MonitoredPage.url page) = FetchResponse code html ->
  response_ok code = true ->
  captured_before db k (now w) ->
  fetch w' (MonitoredPage.url page) = FetchResponse code' html' ->
  response_ok code' = true ->
  cleanHtmlToText html' = cleanHtmlToText html ->
  let db1 := snd (ScrapeRoute.POST rawPageId w db) in
  created db1 (snd (ScrapeRoute.POST rawPageId w' db1)) = []
  /\ exists snap msg,
       fst (ScrapeRoute.POST rawPageId w' db1)
       = {| ScrapeRoute.status := 201;
            ScrapeRoute.body := ScrapeRoute.Created snap None false msg |}.
Proof.
  intros Hp Hf Hok Hb Hf' Hok' Etext.
  destruct (scrape_run_rows rawPageId w db k page code html Hp Hf Hok)
    as [snap [tcs [pcs [msg [db1 [E [Esnap [Hc [Hs _]]]]]]]]].
  rewrite E. cbn [snd].
  assert (Hp1 : page_of_request rawPageId db1 = Some (k, page)).
  { unfold page_of_request, Db.findMonitoredPage in *.
    destruct Hc as [_ [_ [-> _]]]. exact Hp. }
  assert (Hprev : Db.findFirstSnapshot db1 k = Some snap).
  { apply (findFirstSnapshot_new db db1 k snap Hs); subst snap; cbn; auto. }
  destruct (scrape_run_rows rawPageId w' db1 k page code' html' Hp1 Hf' Hok')
    as [snap' [tcs' [pcs' [msg' [db2 [E' [_ [_ [_ [Hch' Hr]]]]]]]]]].
  rewrite Hprev in Hr. cbv zeta in Hr.
  assert (Et : or_empty (Snapshot.extractedText snap) = new_text html')
    by (subst snap; cbn; unfold new_text; now rewrite Etext).
  assert (Epr : or_null (Snapshot.extractedPricing snap)
                = or_null (new_pricing html')).
  { subst snap. cbn. f_equal. apply new_pricing_of_text.
    unfold new_text. now rewrite Etext. }
  rewrite Et, Epr, text_changed_same, price_changed_same in Hr.
  destruct Hr as [-> ->].
  rewrite E'. cbn [fst snd]. split.
  - apply created_app. exact Hch'.
  - eexists _, _. reflexivity.
Qed.

End ScrapeProperties.

Lemma scrape_POST_changes_witness :
  exists snap tcs pcs,
    Db.snapshots (snd (@ScrapeRoute.POST example_runtime (js "1")
                         Example.online Example.db1))
    = Db.snapshots Example.db1 ++ [snap]
    /\ created Example.db1
         (snd (@ScrapeRoute.POST example_runtime (js "1") Example.online
                 Example.db1)) = tcs ++ pcs
    /\ List.length tcs <= 1 /\ List.length pcs <= 1
    /\ Forall (fun c => Change.changeType c = TEXT
                        /\ change_of_run 1%Z Example.prior snap
                             Example.online c) tcs
    /\ Forall (fun c => Change.changeType c = PRICE
                        /\ change_of_run 1%Z Example.prior snap
                             Example.online c) pcs.
Proof.
  apply (@scrape_POST_changes example_runtime (js "1") Example.online
           Example.db1 1%Z Example.page 200 Example.html Example.prior
           example_page_of_request eq_refl eq_refl).
  vm_compute. reflexivity.
Defined.

Lemma scrape_POST_response_witness :
  exists snap msg,
    Db.snapshots (snd (@ScrapeRoute.POST example_runtime (js "1")
                         Example.online Example.db1))
    = Db.snapshots Example.db1 ++ [snap]
    /\ fst (@ScrapeRoute.POST example_runtime (js "1") Example.online
              Example.db1)
       = {| ScrapeRoute.status := 201;
            ScrapeRoute.body :=
              ScrapeRoute.Created snap
                (hd_error
                   (created Example.db1
                      (snd (@ScrapeRoute.POST example_runtime (js "1")
                              Example.online Example.db1))))
                (match created Example.db1
                         (snd (@ScrapeRoute.POST example_runtime (js "1")
                                 Example.online Example.db1))
                 with [] => false | _ => true end)
                msg |}.
Proof.
  exact (@scrape_POST_response example_runtime (js "1") Example.online
           Example.db1 1%Z Example.page 200 Example.html
           example_page_of_request eq_refl eq_refl).
Defined.

Lemma scrape_POST_snapshot_witness :
  exists snap,
    Db.snapshots (snd (@ScrapeRoute.POST example_runtime (js "1")
                         Example.online Example.db1))
    = Db.snapshots Example.db1 ++ [snap]
    /\ Snapshot.id snap = Db.snapshotSeq Example.db1
    /\ Snapshot.monitoredPageId snap = 1%Z
    /\ Snapshot.capturedAt snap = now Example.online
    /\ Snapshot.rawHtml snap = Some Example.html
    /\ Snapshot.extractedText snap = Some (cleanHtmlToText Example.html)
    /\ Snapshot.extractedPricing snap
       = match extractPricingFromText (Some (cleanHtmlToText Example.html))
         with
         | [] => None
         | items => Some (pricing_json items)
         end.
Proof.
  exact (@scrape_POST_snapshot example_runtime (js "1") Example.online
           Example.db1 1%Z Example.page 200 Example.html
           example_page_of_request eq_refl eq_refl).
Defined.

Lemma scrape_POST_twice_witness :
  created (snd (@ScrapeRoute.POST example_runtime (js "1") Example.online
                  Example.db1))
    (snd (@ScrapeRoute.POST example_runtime (js "1") Example.online
            (snd (@ScrapeRoute.POST example_runtime (js "1") Example.online
                    Example.db1)))) = [].
Proof.
  apply (@scrape_POST_twice example_runtime (js "1") Example.online
           Example.online Example.db1 1%Z Example.page 200 Example.html
           200 Example.html example_page_of_request eq_refl eq_refl).
  - intros s [<-|[]] _. vm_compute. reflexivity.
  - reflexivity.
  - reflexivity.
  - reflexivity.
Defined.

(** ** Sorted lists of rows *)

Section InsertionSort.

Variables (A : Type) (before : A -> A -> bool) (ins : A -> list A -> list A).
Hypothesis ins_nil : forall x, ins x [] = [x].
Hypothesis ins_cons : forall x y t,
  ins x (y :: t) = if before x y then x :: y :: t else y :: ins x t.
Hypothesis before_asym : forall x y, before x y = true -> before y x = false.

Local Abbreviation R := (fun a b : A => before b a = false).

Lemma ins_perm x l : Permutation (x :: l) (ins x l).
Proof.
  induction l as [|y t IH]; [now rewrite ins_nil|].
  rewrite ins_cons. destruct (before x y); [reflexivity|].
  rewrite perm_swap. now constructor.
Qed.

Lemma sort_perm_acc l : forall acc,
  Permutation (l ++ acc) (fold_left (fun acc x => ins x acc) l acc).
Proof.
  induction l as [|x l IH]; intro acc; cbn [fold_left app]; [reflexivity|].
  rewrite <- IH. rewrite <- ins_perm. apply Permutation_middle.
Qed.

Lemma sort_perm l :
  Permutation l (fold_left (fun acc x => ins x acc) l []).
Proof. rewrite <- sort_perm_acc. now rewrite app_nil_r. Qed.

Lemma ins_sorted x l : sorted_by R l -> sorted_by R (ins x l).
Proof.
  induction l as [|y t IH]; intro H; [rewrite ins_nil; cbn; auto|].
  rewrite ins_cons. destruct (before x y) eqn:E.
  - cbn [sorted_by]. split; [now apply before_asym|exact H].
  - cbn [sorted_by] in H. destruct H as [Hy Ht]. specialize (IH Ht).
    cbn [sorted_by]. split; [|exact IH].
    destruct t as [|z t]; [rewrite ins_nil; exact E|].
    rewrite ins_cons. destruct (before x z); [exact E|exact Hy].
Qed.

Lemma sort_sorted_acc l : forall acc,
  sorted_by R acc -> sorted_by R (fold_left (fun acc x => ins x acc) l acc).
Proof.
  induction l as [|x l IH]; intros acc H; cbn [fold_left]; [exact H|].
  apply IH. now apply ins_sorted.
Qed.

Lemma sort_sorted l :
  sorted_by R (fold_left (fun acc x => ins x acc) l []).
Proof. apply sort_sorted_acc. exact I. Qed.

End InsertionSort.

Lemma sorted_by_app {A : Type} (R : A -> A -> Prop) :
  (forall a b c, R a b -> R b c -> R a c) ->
  forall l1 l2 x y,
    sorted_by R (l1 ++ l2) -> In x l1 -> In y l2 -> R x y.
Proof.
  intro Htr.
  assert (Hhd : forall l a y, sorted_by R (a :: l) -> In y l -> R a y).
  { induction l as [|b l IH]; intros a y H Hy; [contradiction|].
    cbn [sorted_by] in H. destruct H as [Hab Hl].
    destruct Hy as [<-|Hy]; [exact Hab|].
    apply (Htr a b y Hab). apply (IH b y); [exact Hl|exact Hy]. }
  induction l1 as [|a l1 IH]; intros l2 x y H Hx Hy; [contradiction|].
  cbn [app] in H. destruct Hx as [<-|Hx].
  - apply (Hhd (l1 ++ l2) a y H). apply in_or_app. now right.
  - cbn [sorted_by] in H. apply (IH l2 x y); tauto.
Qed.

Lemma sorted_by_firstn {A : Type} (R : A -> A -> Prop) n (l : list A) :
  sorted_by R l -> sorted_by R (firstn n l).
Proof.
  revert l. induction n as [|n IH]; intros l H; [exact I|].
  destruct l as [|a l]; [exact I|].
  cbn [firstn sorted_by] in *. destruct H as [Ha Hl].
  split; [|now apply IH].
  destruct l as [|b l]; [destruct n; exact I|].
  destruct n; [exact I|exact Ha].
Qed.

Lemma sorted_by_impl {A : Type} (R R' : A -> A -> Prop) (l : list A) :
  (forall a b, R a b -> R' a b) -> sorted_by R l -> sorted_by R' l.
Proof.
  intro H. induction l as [|a [|b l] IH]; cbn; auto.
  intros [H1 H2]. split; [now apply H|]. apply IH. exact H2.
Qed.

(** ** The query of the report route *)








(** ** The history of a page *)

Lemma changes_list_perm db k :
  Permutation (changes_of_page db k)
    (fold_left (fun acc c => ChangesRoute.insert_by_createdAt_desc c acc)
       (changes_of_page db k) []).
Proof.
  apply (sort_perm Change.t
           (fun c x => Z.ltb (Change.createdAt x) (Change.createdAt c))
           ChangesRoute.insert_by_createdAt_desc); reflexivity.
Qed.

Lemma changes_list_sorted db k :
  sorted_by (fun a b => (Change.createdAt b <= Change.createdAt a)%Z)
    (fold_left (fun acc c => ChangesRoute.insert_by_createdAt_desc c acc)
       (changes_of_page db k) []).
Proof.
  apply (sorted_by_impl
           (fun a b => Z.ltb (Change.createdAt a) (Change.createdAt b) = false)).
  - intros a b H. apply Z.ltb_ge in H. exact H.
  - apply (sort_sorted Change.t
             (fun c x => Z.ltb (Change.createdAt x) (Change.createdAt c))
             ChangesRoute.insert_by_createdAt_desc); try reflexivity.
    intros x y H. apply Z.ltb_lt in H. apply Z.ltb_ge. lia.
Qed.

Lemma changes_GET_found rawPageId db k page :
  page_of_request rawPageId db = Some (k, page) ->
  ChangesRoute.GET rawPageId db
  = {| ChangesRoute.status := 200;
       ChangesRoute.body :=
         ChangesRoute.Changes (ChangesRoute.findChanges db k) |}.
Proof.
  unfold page_of_request, ChangesRoute.GET.
  change (ChangesRoute.parsePageId rawPageId) with (parsePageId rawPageId).
  destruct (parsePageId rawPageId) as [id|]; [|discriminate].
  destruct (Db.key id) as [k'|]; [|discriminate].
  destruct (Db.findMonitoredPage db k') as [p|]; [|discriminate].
  intros [= -> ->]. reflexivity.
Qed.

Lemma changes_GET_refused rawPageId db :
  page_of_request rawPageId db = None ->
  exists st msg,
    ChangesRoute.GET rawPageId db
    = {| ChangesRoute.status := st;
         ChangesRoute.body := ChangesRoute.Message msg |}
    /\ In st [400; 404; 500].
Proof.
  unfold page_of_request, ChangesRoute.GET.
  change (ChangesRoute.parsePageId rawPageId) with (parsePageId rawPageId).
  destruct (parsePageId rawPageId) as [id|].
  - destruct (Db.key id) as [k'|].
    + destruct (Db.findMonitoredPage db k') as [p|]; [discriminate|].
      intros _. eexists _, _. split; [reflexivity|cbn; auto].
    + intros _. eexists _, _. split; [reflexivity|cbn; auto].
  - intros _. eexists _, _. split; [reflexivity|cbn; auto].
Qed.

Lemma findChanges_recent db k :
  exists rest,
    Permutation (changes_of_page db k) (ChangesRoute.findChanges db k ++ rest)
    /\ List.length (ChangesRoute.findChanges db k) <= 20
    /\ (rest <> [] -> List.length (ChangesRoute.findChanges db k) = 20)
    /\ sorted_by (fun a b => (Change.createdAt b <= Change.createdAt a)%Z)
                 (ChangesRoute.findChanges db k)
    /\ (forall c c', In c (ChangesRoute.findChanges db k) -> In c' rest ->
                     (Change.createdAt c' <= Change.createdAt c)%Z).
Proof.
  unfold ChangesRoute.findChanges. fold (changes_of_page db k).
  set (S := fold_left _ (changes_of_page db k) []).
  pose proof (changes_list_perm db k) as P. fold S in P.
  pose proof (changes_list_sorted db k) as Hs. fold S in Hs.
  exists (skipn 20 S). rewrite firstn_skipn.
  split; [exact P|]. split; [apply firstn_le_length|].
  split; [|split].
  - intro Hne. rewrite length_firstn. apply Nat.min_l.
    destruct (Nat.le_gt_cases 20 (List.length S)) as [H|H]; [exact H|].
    rewrite skipn_all2 in Hne by lia. contradiction.
  - now apply sorted_by_firstn.
  - intros c c' Hc Hc'.
    rewrite <- (firstn_skipn 20 S) in Hs.
    apply (sorted_by_app _ (fun a b c H1 H2 => Z.le_trans _ _ _ H2 H1)
             _ _ c c' Hs Hc Hc').
Qed.

(** [GET] of the history route: a request answered 200 returns at most
    20 changes, all of the requested page, the most recent first; every
    change of the page that is left out is not more recent than any
    change returned, and none is left out when the page has at most 20
    changes. *)
Theorem changes_GET_recent (rawPageId : jsstring) (db : Db.t)
    (l : list Change.t) :
  ChangesRoute.GET rawPageId db
  = {| ChangesRoute.status := 200;
       ChangesRoute.body := ChangesRoute.Changes l |} ->
  exists k page rest,
    page_of_request rawPageId db = Some (k, page)
    /\ Permutation (changes_of_page db k) (l ++ rest)
    /\ List.length l <= 20
    /\ (rest <> [] -> List.length l = 20)
    /\ sorted_by (fun a b => (Change.createdAt b <= Change.createdAt a)%Z) l
    /\ (forall c c', In c l -> In c' rest ->
                     (Change.createdAt c' <= Change.createdAt c)%Z).
Proof.
  intro H.
  destruct (page_of_request rawPageId db) as [[k page]|] eqn:Hp.
  - rewrite (changes_GET_found _ _ _ _ Hp) in H. injection H as <-.
    destruct (findChanges_recent db k) as [rest Hr].
    exists k, page, rest. split; [reflexivity|exact Hr].
  - destruct (changes_GET_refused _ _ Hp) as [st [msg [E _]]].
    rewrite E in H. discriminate.
Qed.

Lemma changes_GET_recent_witness :
  exists k page rest,
    page_of_request (js "1") Example.db2 = Some (k, page)
    /\ Permutation (changes_of_page Example.db2 k) ([Example.change] ++ rest)
    /\ List.length [Example.change] <= 20
    /\ (rest <> [] -> List.length [Example.change] = 20)
    /\ sorted_by (fun a b => (Change.createdAt b <= Change.createdAt a)%Z)
                 [Example.change]
    /\ (forall c c', In c [Example.change] -> In c' rest ->
                     (Change.createdAt c' <= Change.createdAt c)%Z).
Proof.
  apply (changes_GET_recent (js "1") Example.db2 [Example.change]).
  vm_compute. reflexivity.
Defined.

Section History.
Context {rt : Runtime}.

(** The capture route and the history route: after a run that captured
    the page, the history of the page is served with status 200, and it
    contains every change the run created when the page has at most 20
    changes. *)
Theorem changes_GET_after_scrape rawPageId w db k page code html :
  page_of_request rawPageId db = Some (k, page) ->
  fetch w (MonitoredPage.url page) = FetchResponse code html ->
  response_ok code = true ->
  let db' := snd (ScrapeRoute.POST rawPageId w db) in
  exists l,
    ChangesRoute.GET rawPageId db'
    = {| ChangesRoute.status := 200;
         ChangesRoute.body := ChangesRoute.Changes l |}
    /\ (List.length (changes_of_page db' k) <= 20 ->
        forall c, In c (created db db') -> In c l).
Proof.
  intros Hp Hf Hok.
  destruct (scrape_run_rows rawPageId w db k page code html Hp Hf Hok)
    as [snap [tcs [pcs [msg [db' [E [_ [Hc [_ [Hch Hr]]]]]]]]]].
  rewrite E. cbn [snd].
  assert (Hp' : page_of_request rawPageId db' = Some (k, page)).
  { unfold page_of_request, Db.findMonitoredPage in *.
    destruct Hc as [_ [_ [-> _]]]. exact Hp. }
  exists (ChangesRoute.findChanges db' k).
  split; [apply (changes_GET_found _ _ _ _ Hp')|].
  intros Hlen c Hin. rewrite (created_app db db' _ Hch) in Hin.
  assert (Hk : Change.monitoredPageId c = k).
  { destruct (Db.findFirstSnapshot db k) as [prev|].
    - destruct Hr as [Ht Hpc].
      apply run_rows_length in Ht. apply run_rows_length in Hpc.
      destruct Ht as [_ Ht], Hpc as [_ Hpc].
      rewrite Forall_forall in Ht, Hpc.
      apply in_app_or in Hin.
      destruct Hin as [Hin|Hin]; [apply Ht in Hin|apply Hpc in Hin];
        destruct Hin as [_ [Hin _]]; exact Hin.
    - destruct Hr as [-> ->]. contradiction. }
  assert (Hpage : In c (changes_of_page db' k)).
  { unfold changes_of_page. apply filter_In. split.
    - rewrite Hch. apply in_or_app. now right.
    - apply Z.eqb_eq. exact Hk. }
  destruct (findChanges_recent db' k) as [rest [P [_ [Hfull _]]]].
  apply (Permutation_in _ P) in Hpage. apply in_app_or in Hpage.
  destruct Hpage as [H|H]; [exact H|].
  assert (Hne : rest <> []) by (intros ->; contradiction).
  specialize (Hfull Hne). apply Permutation_length in P.
  rewrite length_app in P. destruct rest; [contradiction|].
  cbn [List.length] in P. lia.
Qed.

End History.

Lemma changes_GET_after_scrape_witness :
  exists l,
    ChangesRoute.GET (js "1")
      (snd (@ScrapeRoute.POST example_runtime (js "1") Example.online
              Example.db1))
    = {| ChangesRoute.status := 200;
         ChangesRoute.body := ChangesRoute.Changes l |}
    /\ (List.length
          (changes_of_page
             (snd (@ScrapeRoute.POST example_runtime (js "1") Example.online
                     Example.db1)) 1%Z) <= 20 ->
        forall c,
          In c (created Example.db1
                  (snd (@ScrapeRoute.POST example_runtime (js "1")
                          Example.online Example.db1))) ->
          In c l).
Proof.
  exact (@changes_GET_after_scrape example_runtime (js "1") Example.online
           Example.db1 1%Z Example.page 200 Example.html
           example_page_of_request eq_refl eq_refl).
Defined.

(** ** The deletion of a page *)

Lemma filter_filter_same {A : Type} (p : A -> bool) (l : list A) :
  filter p (filter p l) = filter p l.
Proof.
  induction l as [|a l IH]; [reflexivity|]. cbn [filter].
  destruct (p a) eqn:E; [cbn [filter]; now rewrite E, IH|exact IH].
Qed.

Lemma filter_filter_none {A : Type} (p : A -> bool) (l : list A) :
  filter p (filter (fun a => negb (p a)) l) = [].
Proof.
  induction l as [|a l IH]; [reflexivity|]. cbn [filter].
  destruct (p a) eqn:E; cbn [negb filter]; [exact IH|now rewrite E].
Qed.

Lemma unlink_nil c : PageRoute.unlink [] c = c.
Proof.
  destruct c as [i p o n ty f ov nv su cr]. unfold PageRoute.unlink.
  cbn. destruct o, n; reflexivity.
Qed.

Lemma map_unlink_nil l : map (PageRoute.unlink []) l = l.
Proof.
  induction l as [|c l IH]; [reflexivity|].
  cbn [map]. now rewrite unlink_nil, IH.
Qed.

Lemma filter_map_unlink (p : Z -> bool) gone l :
  filter (fun c => p (Change.monitoredPageId c)) (map (PageRoute.unlink gone) l)
  = map (PageRoute.unlink gone)
        (filter (fun c => p (Change.monitoredPageId c)) l).
Proof.
  induction l as [|c l IH]; [reflexivity|]. cbn [map filter].
  change (Change.monitoredPageId (PageRoute.unlink gone c))
    with (Change.monitoredPageId c).
  destruct (p (Change.monitoredPageId c)); cbn [map]; now rewrite IH.
Qed.

Lemma unlink_unreferenced gone c :
  (forall i, In i gone -> ~ refers_to_capture c i) ->
  PageRoute.unlink gone c = c.
Proof.
  intro H. destruct c as [i p o n ty f ov nv su cr].
  unfold PageRoute.unlink, PageRoute.set_null. cbn.
  assert (E : forall r, (forall j, In j gone -> r <> Some j) ->
                        match r with
                        | Some j => if existsb (Z.eqb j) gone then None
                                    else Some j
                        | None => None
                        end = r).
  { intros [j|] Hr; [|reflexivity].
    destruct (existsb (Z.eqb j) gone) eqn:Ex; [|reflexivity].
    apply existsb_exists in Ex. destruct Ex as [x [Hx Ej]].
    apply Z.eqb_eq in Ej. subst x. now destruct (Hr j Hx). }
  rewrite (E o), (E n); [reflexivity| |].
  - intros j Hj Ej. apply (H j Hj). right. exact Ej.
  - intros j Hj Ej. apply (H j Hj). left. exact Ej.
Qed.

(** The database after the deletion of page [k]. *)
Lemma page_DELETE_found rawPageId db k page :
  page_of_request rawPageId db = Some (k, page) ->
  let other_page i := negb (Z.eqb i k) in
  let gone :=
    map Snapshot.id
        (filter (fun s => Z.eqb (Snapshot.monitoredPageId s) k)
                (Db.snapshots db)) in
  exists msg,
    PageRoute.DELETE rawPageId db
    = ({| PageRoute.status := 200; PageRoute.message := msg |},
       PageRoute.with_tables db
         (filter (fun p => other_page (MonitoredPage.id p))
                 (Db.monitoredPages db))
         (filter (fun s => other_page (Snapshot.monitoredPageId s))
                 (Db.snapshots db))
         (map (PageRoute.unlink gone)
              (filter (fun c => other_page (Change.monitoredPageId c))
                      (Db.changes db)))).
Proof.
  unfold page_of_request, PageRoute.DELETE.
  change (PageRoute.parsePageId rawPageId) with (parsePageId rawPageId).
  destruct (parsePageId rawPageId) as [id|]; [|discriminate].
  destruct (Db.key id) as [k'|]; [|discriminate].
  destruct (Db.findMonitoredPage db k') as [p|]; [|discriminate].
  intros [= -> ->]. cbv zeta. eexists. f_equal.
  unfold PageRoute.deletePage, PageRoute.deleteChanges,
    PageRoute.deleteSnapshots, PageRoute.with_tables.
  cbn [Db.projects Db.competitors Db.monitoredPages Db.snapshots Db.changes
       Db.reports Db.snapshotSeq Db.changeSeq Db.reportSeq].
  rewrite (filter_filter_none
             (fun s => Z.eqb (Snapshot.monitoredPageId s) k)).
  cbn [map]. rewrite map_unlink_nil.
  rewrite (filter_filter_same
             (fun s => negb (Z.eqb (Snapshot.monitoredPageId s) k))).
  rewrite (filter_map_unlink (fun i => negb (Z.eqb i k))).
  rewrite (filter_filter_same
             (fun c => negb (Z.eqb (Change.monitoredPageId c) k))).
  reflexivity.
Qed.

Lemma page_DELETE_refused rawPageId db :
  page_of_request rawPageId db = None ->
  exists st msg,
    PageRoute.DELETE rawPageId db
    = ({| PageRoute.status := st; PageRoute.message := msg |}, db)
    /\ In st [400; 404; 500].
Proof.
  unfold page_of_request, PageRoute.DELETE.
  change (PageRoute.parsePageId rawPageId) with (parsePageId rawPageId).
  destruct (parsePageId rawPageId) as [id|].
  - destruct (Db.key id) as [k'|].
    + destruct (Db.findMonitoredPage db k') as [p|]; [discriminate|].
      intros _. eexists _, _. split; [reflexivity|cbn; auto].
    + intros _. eexists _, _. split; [reflexivity|cbn; auto].
  - intros _. eexists _, _. split; [reflexivity|cbn; auto].
Qed.

Lemma find_filter_none (k : Z) (l : list MonitoredPage.t) :
  find (fun p => Z.eqb (MonitoredPage.id p) k)
       (filter (fun p => negb (Z.eqb (MonitoredPage.id p) k)) l) = None.
Proof.
  induction l as [|p l IH]; [reflexivity|]. cbn [filter].
  destruct (Z.eqb (MonitoredPage.id p) k) eqn:E; cbn [negb find];
    [exact IH|now rewrite E].
Qed.

Lemma filter_length_split {A : Type} (p : A -> bool) (l : list A) :
  List.length (filter (fun a => negb (p a)) l)
  = List.length l - List.length (filter p l).
Proof.
  induction l as [|a l IH]; [reflexivity|]. cbn [filter].
  pose proof (filter_length_le p l).
  destruct (p a); cbn [negb List.length]; lia.
Qed.

(** [DELETE] of the page route: either the answer is 200 and the page,
    its captures and its changes are gone while nothing else is deleted
    (the captures of the other pages are kept, and so is, as it was,
    every change of another page that refers to no deleted capture), or
    the answer is 400, 404 or 500 and the database is left as it was. *)
Theorem page_DELETE_effect (rawPageId : jsstring) (db : Db.t) :
  let resp := fst (PageRoute.DELETE rawPageId db) in
  let db' := snd (PageRoute.DELETE rawPageId db) in
  (PageRoute.status resp = 200
   /\ exists k page,
        page_of_request rawPageId db = Some (k, page)
        /\ Db.findMonitoredPage db' k = None
        /\ (forall s, In s (Db.snapshots db')
                      <-> In s (Db.snapshots db)
                          /\ Snapshot.monitoredPageId s <> k)
        /\ (forall c, In c (Db.changes db') -> Change.monitoredPageId c <> k)
        /\ (forall c,
              In c (Db.changes db) -> Change.monitoredPageId c <> k ->
              (forall s, In s (Db.snapshots db) ->
                         Snapshot.monitoredPageId s = k ->
                         ~ refers_to_capture c (Snapshot.id s)) ->
              In c (Db.changes db'))
        /\ List.length (Db.changes db')
           = List.length (Db.changes db)
             - List.length (changes_of_page db k)
        /\ Db.projects db' = Db.projects db
        /\ Db.competitors db' = Db.competitors db
        /\ Db.reports db' = Db.reports db)
  \/ (In (PageRoute.status resp) [400; 404; 500] /\ db' = db).
Proof.
  cbv zeta.
  destruct (page_of_request rawPageId db) as [[k page]|] eqn:Hp.
  - left. destruct (page_DELETE_found rawPageId db k page Hp) as [msg E].
    cbv zeta in E. rewrite E. cbn [fst snd PageRoute.status].
    split; [reflexivity|]. exists k, page. split; [reflexivity|].
    unfold PageRoute.with_tables.
    cbn [Db.projects Db.competitors Db.monitoredPages Db.snapshots
         Db.changes Db.reports].
    split; [apply find_filter_none|]. split; [|split; [|split; [|split]]].
    + intro s. rewrite filter_In, negb_true_iff, Z.eqb_neq. reflexivity.
    + intros c Hc. apply in_map_iff in Hc. destruct Hc as [c0 [<- Hc0]].
      apply filter_In in Hc0. destruct Hc0 as [_ Hc0].
      apply negb_true_iff, Z.eqb_neq in Hc0. exact Hc0.
    + intros c Hc Hk Href. apply in_map_iff. exists c. split.
      * apply unlink_unreferenced. intros i Hi.
        apply in_map_iff in Hi. destruct Hi as [s [<- Hs]].
        apply filter_In in Hs. destruct Hs as [Hs Hsk].
        apply Z.eqb_eq in Hsk. now apply Href.
      * apply filter_In. split; [exact Hc|].
        now apply negb_true_iff, Z.eqb_neq.
    + rewrite length_map. unfold changes_of_page.
      apply (filter_length_split
               (fun c => Z.eqb (Change.monitoredPageId c) k)).
    + repeat split.
  - right. destruct (page_DELETE_refused rawPageId db Hp) as [st [msg [E Hst]]].
    rewrite E. cbn [fst snd PageRoute.status]. split; [exact Hst|reflexivity].
Qed.

Section AfterDelete.
Context {rt : Runtime}.

(** The page route with the capture route and the history route: once
    the deletion of a page is answered 200, a capture request and a
    history request for the same page are answered 404, and the capture
    request stores nothing. *)
Theorem requests_after_DELETE (rawPageId : jsstring) (db : Db.t)
    (w : ScrapeRoute.World) :
  PageRoute.status (fst (PageRoute.DELETE rawPageId db)) = 200 ->
  let db' := snd (PageRoute.DELETE rawPageId db) in
  ScrapeRoute.status (fst (ScrapeRoute.POST rawPageId w db')) = 404
  /\ snd (ScrapeRoute.POST rawPageId w db') = db'
  /\ ChangesRoute.status (ChangesRoute.GET rawPageId db') = 404.
Proof.
  intro H. cbv zeta.
  destruct (page_of_request rawPageId db) as [[k page]|] eqn:Hp.
  - destruct (page_DELETE_found rawPageId db k page Hp) as [msg E].
    cbv zeta in E. rewrite E. cbn [snd].
    set (db' := PageRoute.with_tables _ _ _ _).
    assert (Hnone : Db.findMonitoredPage db' k = None)
      by apply find_filter_none.
    unfold page_of_request in Hp.
    unfold ScrapeRoute.POST, ChangesRoute.GET.
    change (ChangesRoute.parsePageId rawPageId) with (parsePageId rawPageId).
    destruct (parsePageId rawPageId) as [id|]; [|discriminate].
    destruct (Db.key id) as [k'|]; [|discriminate].
    destruct (Db.findMonitoredPage db k') as [p|]; [|discriminate].
    injection Hp as -> _. rewrite Hnone. repeat split.
  - destruct (page_DELETE_refused rawPageId db Hp) as [st [msg [E Hst]]].
    rewrite E in H. cbn [fst PageRoute.status] in H. subst st.
    cbn in Hst. destruct Hst as [Hst|[Hst|[Hst|[]]]]; discriminate.
Qed.

End AfterDelete.

Lemma requests_after_DELETE_witness :
  ScrapeRoute.status
    (fst (@ScrapeRoute.POST example_runtime (js "1") Example.online
            (snd (PageRoute.DELETE (js "1") Example.db2)))) = 404.
Proof.
  apply (@requests_after_DELETE example_runtime (js "1") Example.db2
           Example.online).
  vm_compute. reflexivity.
Defined.

(** ** The report route *)

Section ReportRows.
Context {rt : Runtime}.

Local Open Scope Z_scope.

Lemma ordered_dates (ps pe : Date) reads a b r :
  match getTime ps, getTime pe with
  | Some x, Some y =>
      if y <? x then Resolved pe ps reads else Resolved ps pe reads
  | _, _ => Resolved ps pe reads
  end = Resolved (Some a) (Some b) r ->
  a <= b.
Proof.
  unfold getTime. destruct ps as [x|], pe as [y|]; try discriminate.
  destruct (y <? x) eqn:E; intros [= <- <- _].
  - apply Z.ltb_lt in E. lia.
  - apply Z.ltb_ge in E. lia.
Qed.

(** The two dates of a resolved period are in order. *)
Lemma resolvePeriod_ordered body w a b reads :
  resolvePeriod body w = Resolved (Some a) (Some b) reads -> a <= b.
Proof.
  unfold resolvePeriod.
  destruct (parse_field (periodStart body)) as [[s|]|]; [| |discriminate];
    (destruct (parse_field (periodEnd body)) as [[e|]|]; [| |discriminate]);
    cbv beta iota zeta; apply ordered_dates.
Qed.

Lemma reports_POST_refused rawId body w db :
  (forall report db',
     POST rawId body w db <> ({| status := 201; body := Created report |}, db'))
  ->
  exists st msg,
    POST rawId body w db = ({| status := st; body := Message msg |}, db)
    /\ In st [400; 404; 500]%nat.
Proof.
  unfold POST. intro H.
  destruct (parseProjectId rawId) as [id|];
    [|eexists _, _; split; [reflexivity|cbn; auto]].
  destruct body as [b|];
    [|eexists _, _; split; [reflexivity|cbn; auto]].
  destruct (resolvePeriod b w) as [msg|ps pe reads];
    [eexists _, _; split; [reflexivity|cbn; auto]|].
  destruct (Db.key id) as [pk|];
    [|eexists _, _; split; [reflexivity|cbn; auto]].
  destruct (Db.findProject db pk) as [project|];
    [|eexists _, _; split; [reflexivity|cbn; auto]].
  destruct ps as [gte|], pe as [lte|];
    try (eexists _, _; split; [reflexivity|cbn; auto]).
  exfalso. revert H.
  destruct (match useAi b with None => true | Some b0 => b0 end);
    [destruct (generateAiReport w (Db.findChanges db pk gte lte))|];
    cbn; intro H; eapply H; reflexivity.
Qed.

Lemma reports_POST_created rawId body w db report db' :
  POST rawId body w db = ({| status := 201; body := Created report |}, db') ->
  exists b pk project gte lte reads,
    body = Some b
    /\ project_of_request rawId db = Some (pk, project)
    /\ resolvePeriod b w = Resolved (Some gte) (Some lte) reads
    /\ db' = snd (Db.createReport db pk (Some gte) (Some lte) (clock w reads)
                    (Report.aiSummary report) (Report.highlights report))
    /\ report = fst (Db.createReport db pk (Some gte) (Some lte)
                       (clock w reads)
                       (Report.aiSummary report) (Report.highlights report))
    /\ (let ai := if match useAi b with None => true | Some x => x end
                  then generateAiReport w (Db.findChanges db pk gte lte)
                  else None in
        Report.aiSummary report = option_map aiSummary ai
        /\ Report.highlights report = option_map highlights ai).
Proof.
  unfold POST, project_of_request.
  destruct (parseProjectId rawId) as [id|]; [|discriminate].
  destruct body as [b|]; [|discriminate].
  destruct (resolvePeriod b w) as [msg|ps pe reads] eqn:Hr; [discriminate|].
  destruct (Db.key id) as [pk|]; [|discriminate].
  destruct (Db.findProject db pk) as [project|]; [|discriminate].
  destruct ps as [gte|], pe as [lte|]; try discriminate.
  intro H. exists b, pk, project, gte, lte, reads. rewrite Hr.
  revert H.
  destruct (match useAi b with None => true | Some b0 => b0 end);
    [destruct (generateAiReport w (Db.findChanges db pk gte lte))|];
    cbn; intros [= <- <-]; repeat split; reflexivity.
Qed.

(** A result of the synthesis has an array of highlights and a summary
    that is not blank. *)
Lemma generateAiReport_result w changes r :
  generateAiReport w changes = Some r ->
  trim (aiSummary r) <> [] /\ exists l, highlights r = JArr l.
Proof.
  unfold generateAiReport.
  destruct (truthy_string (OPENAI_API_KEY w)); [|discriminate].
  destruct changes as [|c cs].
  - intros [= <-]. cbn [aiSummary highlights]. split; [|eauto].
    vm_compute. discriminate.
  - destruct (completion w) as [|content]; [discriminate|].
    destruct (truthy_string content) as [text|]; [|discriminate].
    destruct (JSON_parse text) as [parsed|]; [|discriminate].
    assert (Hfallback :
              trim (js "Résumé IA indisponible. / AI summary unavailable.")
              <> []) by (vm_compute; discriminate).
    assert (Hsum : forall o : option json,
              trim (match o with
                    | Some (JStr s) =>
                        if Nat.ltb 0 (List.length (trim s)) then s
                        else js "Résumé IA indisponible. / AI summary unavailable."
                    | _ => js "Résumé IA indisponible. / AI summary unavailable."
                    end) <> []).
    { intros [[| | |s| |]|]; try exact Hfallback.
      destruct (Nat.ltb 0 (List.length (trim s))) eqn:E; [|exact Hfallback].
      apply Nat.ltb_lt in E. destruct (trim s); [cbn in E; lia|discriminate]. }
    assert (Harr : forall o : option json,
              exists l, match o with Some (JArr l) => JArr l | _ => JArr [] end
                        = JArr l).
    { intros [[| | | |l|]|]; eauto. }
    destruct parsed; try discriminate; intros [= <-];
      cbn [aiSummary highlights];
      (split; [first [apply Hsum|exact (Hsum None)]
              |first [apply Harr|exact (Harr None)]]).
Qed.

Lemma generateAiReport_fails w changes :
  changes <> [] -> synthesis_fails w -> generateAiReport w changes = None.
Proof.
  intros Hne Hf. unfold generateAiReport.
  destruct (truthy_string (OPENAI_API_KEY w)); [|reflexivity].
  destruct changes as [|c cs]; [contradiction|].
  destruct Hf as [->|[content [-> [->|[text [-> [->| ->]]]]]]]; reflexivity.
Qed.

Lemma generateAiReport_empty w :
  truthy_string (OPENAI_API_KEY w) <> None ->
  generateAiReport w []
  = Some {| aiSummary := js "Aucun changement détecté sur les pages surveillées pendant cette période. / No changes detected on monitored pages during this period.";
            highlights := JArr [] |}.
Proof.
  intro H. unfold generateAiReport.
  destruct (truthy_string (OPENAI_API_KEY w)); [reflexivity|contradiction].
Qed.

Lemma normalizeHighlights_length l :
  List.length (ReportsPage.normalizeHighlights (Some (JArr l))) = List.length l.
Proof. unfold ReportsPage.normalizeHighlights. apply length_map. Qed.

End ReportRows.

Section ReportProperties.
Context {rt : Runtime}.

Local Open Scope Z_scope.

(** Period of a report: given only [periodEnd], the period is the seven
    days that end at that date (for a time zone with a fixed offset and
    dates within the range of Date). *)
Theorem resolvePeriod_end_only (w : World) (s e : option jsstring)
    (u : option bool) (t : Z) :
  fixed_offset -> absent s -> given e t -> in_range (t - week) ->
  resolvePeriod {| periodStart := s; periodEnd := e; useAi := u |} w
  = Resolved (Some (t - week)) (Some t) 0.
Proof.
  intros Hfix Hs [text [He Ht]] Hr. unfold resolvePeriod, parse_field.
  cbn [periodStart periodEnd]. unfold absent in Hs. rewrite Hs, He, Ht.
  change (fun d : Z => d - 7) with (fun d : Z => d + -7).
  assert (Hr' : in_range (t + -7 * msPerDay)).
  { unfold week in Hr.
    replace (t + -7 * msPerDay) with (t - 7 * msPerDay) by lia. exact Hr. }
  rewrite (setDate_getDate_fixed t (-7) Hfix Hr').
  cbn [getTime].
  replace (t + -7 * msPerDay) with (t - week) by (unfold week; lia).
  replace (t <? t - week) with false
    by (symmetry; apply Z.ltb_ge; unfold week, msPerDay; lia).
  reflexivity.
Qed.


(** [POST] of the report route: either the answer is 201 with the
    report created, which is the only row added: it has the next key of
    the table, the project of the request, no PDF, and a period whose
    start is not after its end; or the answer is 400, 404 or 500 with a
    message and the database is left as it was. *)
Theorem reports_POST_effect (rawId : jsstring) (body : option RequestBody)
    (w : World) (db : Db.t) :
  let resp := fst (POST rawId body w db) in
  let db' := snd (POST rawId body w db) in
  (exists report pk project a b,
     resp = {| status := 201; body := Created report |}
     /\ project_of_request rawId db = Some (pk, project)
     /\ Db.reports db' = Db.reports db ++ [report]
     /\ same_captures db db'
     /\ Report.id report = Db.reportSeq db
     /\ Report.projectId report = pk
     /\ Report.pdfUrl report = None
     /\ Report.periodStart report = Some a
     /\ Report.periodEnd report = Some b
     /\ a <= b)
  \/ (In (status resp) [400; 404; 500]%nat
      /\ (exists msg, ReportsRoute.body resp = Message msg)
      /\ db' = db).
Proof.
  cbv zeta.
  destruct (POST rawId body w db) as [resp db'] eqn:E. cbn [fst snd].
  destruct resp as [st bd].
  assert (D : (exists report, st = 201%nat /\ bd = Created report)
              \/ forall report db'',
                   POST rawId body w db
                   <> ({| status := 201; body := Created report |}, db'')).
  { destruct bd as [msg|report].
    - right. intros report db'' H. rewrite H in E. discriminate.
    - destruct (Nat.eq_dec st 201) as [->|Hst]; [left; eauto|].
      right. intros r db'' H. rewrite H in E. injection E as E _. congruence. }
  destruct D as [[report [-> ->]]|D].
  - left.
    destruct (reports_POST_created _ _ _ _ _ _ E)
      as [b [pk [project [gte [lte [reads [_ [Hp [Hr [-> [Hrep _]]]]]]]]]]].
    exists report, pk, project, gte, lte.
    split; [reflexivity|]. split; [exact Hp|].
    rewrite Hrep. cbn. repeat split.
    apply (resolvePeriod_ordered _ _ _ _ _ Hr).
  - right. destruct (reports_POST_refused _ _ _ _ D) as [st' [msg [E' Hst]]].
    rewrite E' in E. injection E as <- <- <-.
    cbn [status ReportsRoute.body]. split; [exact Hst|]. split; eauto.
Qed.

(** [POST] of the report route: in a report that is created, the summary
    and the highlights are either both [null], or a summary that is not
    blank with an array of highlights, of which the reports page shows
    one highlight per element. *)
Theorem reports_POST_synthesis (rawId : jsstring) (body : option RequestBody)
    (w : World) (db db' : Db.t) (report : Report.t) :
  POST rawId body w db = ({| status := 201; body := Created report |}, db') ->
  (Report.aiSummary report = None /\ Report.highlights report = None)
  \/ exists summary l,
       Report.aiSummary report = Some summary
       /\ trim summary <> []
       /\ Report.highlights report = Some (JArr l)
       /\ List.length
            (ReportsPage.normalizeHighlights (Report.highlights report))
          = List.length l.
Proof.
  intro E.
  destruct (reports_POST_created _ _ _ _ _ _ E)
    as [b [pk [project [gte [lte [reads [_ [_ [_ [_ [_ Hai]]]]]]]]]]].
  cbv zeta in Hai. destruct Hai as [Hs Hh].
  destruct (if match useAi b with None => true | Some x => x end
            then generateAiReport w (Db.findChanges db pk gte lte)
            else None) as [r|] eqn:Er; cbn [option_map] in Hs, Hh;
    [|now left].
  right.
  assert (Hr : generateAiReport w (Db.findChanges db pk gte lte) = Some r).
  { destruct (match useAi b with None => true | Some x => x end);
      [exact Er|discriminate]. }
  destruct (generateAiReport_result _ _ _ Hr) as [Ht [l Hl]].
  exists (aiSummary r), l. rewrite Hh, Hl.
  repeat split; auto. apply normalizeHighlights_length.
Qed.

(** [POST] of the report route: when the request sets [useAi] to false,
    or when the period has changes and the synthesis fails (the call
    throws, the answer is empty or is not the text of a JSON value other
    than [null]), the report is created all the same, with a [null]
    summary and no highlights. *)
Theorem reports_POST_without_synthesis
    rawId body w db pk project gte lte reads :
  project_of_request rawId db = Some (pk, project) ->
  resolvePeriod body w = Resolved (Some gte) (Some lte) reads ->
  useAi body = Some false
  \/ (Db.findChanges db pk gte lte <> [] /\ synthesis_fails w) ->
  exists report db',
    POST rawId (Some body) w db
    = ({| status := 201; body := Created report |}, db')
    /\ Db.reports db' = Db.reports db ++ [report]
    /\ Report.aiSummary report = None
    /\ Report.highlights report = None.
Proof.
  unfold project_of_request. intros Hp Hr H.
  destruct (parseProjectId rawId) as [id|] eqn:Hid; [|discriminate].
  destruct (Db.key id) as [k|] eqn:Hk; [|discriminate].
  destruct (Db.findProject db k) as [p|] eqn:Hf; [|discriminate].
  injection Hp as -> ->.
  destruct (report_created rawId body w db id pk project gte lte reads
              Hid Hk Hf Hr) as [report [db' [E [R [_ [_ Hai]]]]]].
  exists report, db'. split; [exact E|]. split; [exact R|].
  cbv zeta in Hai.
  destruct H as [H|[Hne Hfail]].
  - rewrite H in Hai. exact Hai.
  - rewrite (generateAiReport_fails w _ Hne Hfail) in Hai.
    destruct (match useAi body with None => true | Some b => b end);
      exact Hai.
Qed.

(** [POST] of the report route: with a credential and no change in the
    period, the report has the fixed summary that says so and an empty
    array of highlights; the synthesis service is not consulted, so its
    answer is of no account. *)
Theorem reports_POST_empty_period
    rawId body w db pk project gte lte reads :
  project_of_request rawId db = Some (pk, project) ->
  resolvePeriod body w = Resolved (Some gte) (Some lte) reads ->
  useAi body <> Some false ->
  truthy_string (OPENAI_API_KEY w) <> None ->
  Db.findChanges db pk gte lte = [] ->
  exists report db',
    POST rawId (Some body) w db
    = ({| status := 201; body := Created report |}, db')
    /\ Report.aiSummary report
       = Some (js "Aucun changement détecté sur les pages surveillées pendant cette période. / No changes detected on monitored pages during this period.")
    /\ Report.highlights report = Some (JArr []).
Proof.
  unfold project_of_request. intros Hp Hr Hu Hkey Hnone.
  destruct (parseProjectId rawId) as [id|] eqn:Hid; [|discriminate].
  destruct (Db.key id) as [k|] eqn:Hk; [|discriminate].
  destruct (Db.findProject db k) as [p|] eqn:Hf; [|discriminate].
  injection Hp as -> ->.
  destruct (report_created rawId body w db id pk project gte lte reads
              Hid Hk Hf Hr) as [report [db' [E [_ [_ [_ Hai]]]]]].
  exists report, db'. split; [exact E|].
  cbv zeta in Hai. rewrite Hnone, (generateAiReport_empty w Hkey) in Hai.
  destruct Hai as [Hs Hh]. rewrite Hs, Hh.
  destruct (useAi body) as [[|]|]; [|now destruct Hu|]; split; reflexivity.
Qed.

(** The report route, [POST] then [GET]: after a report is created, the
    list of the reports of the same project is served with status 200;
    it is the former list with the new report added, each report of the
    list belongs to the project, and the list is ordered by the date of
    generation, the latest first. *)
Theorem reports_GET_after_POST rawId body w db db' report :
  POST rawId body w db = ({| status := 201; body := Created report |}, db') ->
  exists pk project l,
    project_of_request rawId db = Some (pk, project)
    /\ ReportsList.GET rawId db'
       = {| ReportsList.status := 200;
            ReportsList.body := ReportsList.Reports l |}
    /\ Permutation (report :: ReportsList.findReports db pk) l
    /\ (forall r, In r l -> Report.projectId r = pk)
    /\ sorted_by (fun x y => Report.generatedAt y <= Report.generatedAt x) l.
Proof.
  intro E.
  destruct (reports_POST_created _ _ _ _ _ _ E)
    as [b [pk [project [gte [lte [reads [_ [Hp [_ [-> [Hrep _]]]]]]]]]]].
  exists pk, project, (ReportsList.findReports
                         (snd (Db.createReport db pk (Some gte) (Some lte)
                                 (clock w reads) (Report.aiSummary report)
                                 (Report.highlights report))) pk).
  split; [exact Hp|].
  assert (Hperm : forall d,
            Permutation
              (filter (fun r => Z.eqb (Report.projectId r) pk) (Db.reports d))
              (ReportsList.findReports d pk)).
  { intro d. unfold ReportsList.findReports.
    apply (sort_perm Report.t
             (fun r x => Z.ltb (Report.generatedAt x) (Report.generatedAt r))
             ReportsList.insert_by_generatedAt_desc); reflexivity. }
  split; [|split; [|split]].
  - unfold project_of_request in Hp. unfold ReportsList.GET.
    destruct (parseProjectId rawId) as [id|]; [|discriminate].
    destruct (Db.key id) as [k|]; [|discriminate].
    cbn [Db.createReport snd]. unfold Db.findProject in *.
    cbn [Db.projects].
    destruct (find _ (Db.projects db)); [|discriminate].
    injection Hp as -> _. reflexivity.
  - rewrite <- (Hperm (snd _)), <- (Hperm db).
    assert (Epk : Report.projectId report = pk) by (rewrite Hrep; reflexivity).
    cbn [Db.createReport snd fst Db.reports] in *.
    rewrite <- Hrep. rewrite filter_app. cbn [filter].
    rewrite Epk, Z.eqb_refl. apply Permutation_cons_append.
  - intros r Hr. apply (Permutation_in _ (Permutation_sym (Hperm _))) in Hr.
    apply filter_In in Hr. destruct Hr as [_ Hr]. now apply Z.eqb_eq in Hr.
  - unfold ReportsList.findReports.
    apply (sorted_by_impl
             (fun x y => Z.ltb (Report.generatedAt x) (Report.generatedAt y)
                         = false)).
    + intros x y H. apply Z.ltb_ge in H. exact H.
    + apply (sort_sorted Report.t
               (fun r x => Z.ltb (Report.generatedAt x) (Report.generatedAt r))
               ReportsList.insert_by_generatedAt_desc); try reflexivity.
      intros x y H. apply Z.ltb_lt in H. apply Z.ltb_ge. lia.
Qed.

End ReportProperties.


Lemma resolvePeriod_end_only_witness :
  @ReportsRoute.resolvePeriod example_runtime Fixture.end_only
    Example.no_credential
  = ReportsRoute.Resolved (Some 1763899200000%Z) (Some 1764504000000%Z) 0.
Proof.
  apply (@resolvePeriod_end_only example_runtime Example.no_credential
           None (Some (js "2025-11-30T12:00:00.000Z")) None
           1764504000000%Z example_fixed_offset).
  - reflexivity.
  - eexists. split; vm_compute; reflexivity.
  - unfold in_range. vm_compute. discriminate.
Defined.

Lemma reports_POST_synthesis_witness :
  exists report,
    (Report.aiSummary report = None /\ Report.highlights report = None)
    \/ exists summary l,
         Report.aiSummary report = Some summary
         /\ trim summary <> []
         /\ Report.highlights report = Some (JArr l)
         /\ List.length
              (ReportsPage.normalizeHighlights (Report.highlights report))
            = List.length l.
Proof.
  eexists.
  eapply (@reports_POST_synthesis example_runtime (js "1")
            (Some Fixture.end_only) Fixture.service_down Example.db2).
  vm_compute. reflexivity.
Defined.

Lemma reports_POST_without_synthesis_witness :
  exists report db',
    @ReportsRoute.POST example_runtime (js "1") (Some Example.start_only)
      Fixture.service_down Example.db2
    = ({| ReportsRoute.status := 201;
          ReportsRoute.body := ReportsRoute.Created report |}, db')
    /\ Db.reports db' = Db.reports Example.db2 ++ [report]
    /\ Report.aiSummary report = None
    /\ Report.highlights report = None.
Proof.
  apply (@reports_POST_without_synthesis example_runtime (js "1")
           Example.start_only Fixture.service_down Example.db2 1%Z
           Example.project 1762041600000%Z 1762646400000%Z 0).
  - vm_compute. reflexivity.
  - vm_compute. reflexivity.
  - right. split; [vm_compute; discriminate|]. left. reflexivity.
Defined.

Lemma reports_POST_empty_period_witness :
  exists report db',
    @ReportsRoute.POST example_runtime (js "1") (Some Fixture.end_only)
      Fixture.service_down Example.db2
    = ({| ReportsRoute.status := 201;
          ReportsRoute.body := ReportsRoute.Created report |}, db')
    /\ Report.aiSummary report
       = Some (js "Aucun changement détecté sur les pages surveillées pendant cette période. / No changes detected on monitored pages during this period.")
    /\ Report.highlights report = Some (JArr []).
Proof.
  apply (@reports_POST_empty_period example_runtime (js "1")
           Fixture.end_only Fixture.service_down Example.db2 1%Z
           Example.project 1763899200000%Z 1764504000000%Z 0).
  - vm_compute. reflexivity.
  - vm_compute. reflexivity.
  - discriminate.
  - discriminate.
  - vm_compute. reflexivity.
Defined.

Lemma reports_GET_after_POST_witness :
  exists report db' pk project l,
    project_of_request (js "1") Example.db2 = Some (pk, project)
    /\ ReportsList.GET (js "1") db'
       = {| ReportsList.status := 200;
            ReportsList.body := ReportsList.Reports l |}
    /\ Permutation (report :: ReportsList.findReports Example.db2 pk) l
    /\ (forall r, In r l -> Report.projectId r = pk)
    /\ sorted_by (fun x y => (Report.generatedAt y <= Report.generatedAt x)%Z)
                 l.
Proof.
  eexists _, _.
  eapply (@reports_GET_after_POST example_runtime (js "1")
            (Some Example.start_only) Example.no_credential Example.db2).
  vm_compute. reflexivity.
Defined.

(** ** The prompt and the highlights *)

Lemma changeLine_without_values c :
  Change.changeType (ReportPrompt.change c) <> PRICE ->
  ReportPrompt.changeLine (without_values c) = ReportPrompt.changeLine c.
Proof.
  intro H. unfold ReportPrompt.changeLine, without_values.
  cbn [ReportPrompt.change ReportPrompt.url ReportPrompt.pageType
       ReportPrompt.competitorName Change.createdAt Change.changeType
       Change.field Change.changeSummary].
  destruct (Change.changeType (ReportPrompt.change c));
    [reflexivity|contradiction|reflexivity|reflexivity|reflexivity].
Qed.

Lemma changeLine_without_unused_values c :
  ReportPrompt.changeLine (without_unused_values c) = ReportPrompt.changeLine c.
Proof.
  unfold without_unused_values.
  destruct (Change.changeType (ReportPrompt.change c)) eqn:E;
    try reflexivity; apply changeLine_without_values; rewrite E; discriminate.
Qed.

Lemma trimStart_all_space s : forallb is_space s = true -> trimStart s = [].
Proof.
  induction s as [|c t IH]; [reflexivity|]. cbn [forallb trimStart].
  intro H. apply andb_true_iff in H. destruct H as [-> H]. now apply IH.
Qed.

(** [truncateForPrompt]: the preview has at most [maxLength + 1] code
    units, or the 4 of the word [null] when that is more, and the first
    [maxLength] code units of the preview of a value that is not empty
    are those of the value. *)
Theorem truncateForPrompt_preview (value : option jsstring) (maxLength : nat) :
  List.length (ReportPrompt.truncateForPrompt value maxLength)
  <= Nat.max 4 (S maxLength)
  /\ (forall v, value = Some v -> v <> [] ->
        firstn maxLength (ReportPrompt.truncateForPrompt value maxLength)
        = firstn maxLength v).
Proof.
  unfold ReportPrompt.truncateForPrompt. split.
  - destruct value as [[|c v]|];
      try (change (List.length (js "null")) with 4; lia).
    destruct (Nat.leb (List.length (c :: v)) maxLength) eqn:E.
    + apply Nat.leb_le in E. lia.
    + rewrite length_app. pose proof (slice0_length maxLength (c :: v)).
      change (List.length (js "…")) with 1. lia.
  - intros v -> Hv. destruct v as [|c v]; [contradiction|].
    destruct (Nat.leb (List.length (c :: v)) maxLength) eqn:E; [reflexivity|].
    apply Nat.leb_gt in E. unfold slice0.
    rewrite firstn_app, firstn_firstn, Nat.min_id, length_firstn.
    replace (maxLength - Nat.min maxLength (List.length (c :: v))) with 0
      by lia.
    cbn [firstn]. apply app_nil_r.
Qed.

Lemma truncateForPrompt_preview_witness :
  firstn 3 (ReportPrompt.truncateForPrompt (Some (js "Tarifs")) 3)
  = firstn 3 (js "Tarifs").
Proof.
  apply (proj2 (truncateForPrompt_preview (Some (js "Tarifs")) 3)
           (js "Tarifs") eq_refl).
  discriminate.
Defined.

(** [buildChangesPrompt]: the changes after the 200th are not part of
    the prompt, and in any list of changes, PRICE changes and others
    mixed, the old and new values of the changes that are not PRICE
    changes are not part of it either. *)
Theorem buildChangesPrompt_scope (changes : list ReportPrompt.ChangeWithPage) :
  (forall more,
     200 <= List.length changes ->
     ReportPrompt.buildChangesPrompt (changes ++ more)
     = ReportPrompt.buildChangesPrompt changes)
  /\ ReportPrompt.buildChangesPrompt (map without_unused_values changes)
     = ReportPrompt.buildChangesPrompt changes.
Proof.
  split.
  - intros more Hlen. unfold ReportPrompt.buildChangesPrompt.
    destruct changes as [|c cs]; [cbn in Hlen; lia|]. cbn [app].
    cbv zeta. change (c :: cs ++ more) with ((c :: cs) ++ more).
    rewrite firstn_app.
    replace (ReportPrompt.maxLines - List.length (c :: cs)) with 0
      by (unfold ReportPrompt.maxLines; lia).
    cbn [firstn]. now rewrite app_nil_r.
  - unfold ReportPrompt.buildChangesPrompt.
    destruct changes as [|c cs]; [reflexivity|]. cbn [map]. cbv zeta.
    change (without_unused_values c :: map without_unused_values cs)
      with (map without_unused_values (c :: cs)).
    rewrite firstn_map, map_map. f_equal.
    apply map_ext. intro x. apply changeLine_without_unused_values.
Qed.

Lemma buildChangesPrompt_scope_witness :
  ReportPrompt.buildChangesPrompt
    (map without_unused_values
         [text_change_with_page; price_change_with_page])
  = ReportPrompt.buildChangesPrompt
      [text_change_with_page; price_change_with_page].
Proof.
  exact (proj2 (buildChangesPrompt_scope
                  [text_change_with_page; price_change_with_page])).
Defined.

(** [normalizeHighlights]: an array of highlight objects with their five
    text fields is read back as these highlights, in order. *)
Theorem normalizeHighlights_round_trip (hs : list ReportsPage.Highlight) :
  ReportsPage.normalizeHighlights (Some (JArr (map highlight_json hs))) = hs.
Proof.
  unfold ReportsPage.normalizeHighlights. rewrite map_map.
  rewrite <- (map_id hs) at 2. apply map_ext. intros [t d c ty i].
  reflexivity.
Qed.

(** [parsePageId] of the capture route: an id that is accepted is a
    finite Number greater than 0, and a text that is empty or made of
    white space only, which [Number] reads as 0, is refused. *)
Theorem parsePageId_accepts (raw : jsstring) :
  (forall id, parsePageId raw = Some id ->
              isFinite id = true /\ gt id (S754_zero false) = true)
  /\ (forallb is_space raw = true -> parsePageId raw = None).
Proof.
  unfold parsePageId. cbv zeta. split.
  - intros id H.
    destruct (isFinite (StringToNumber raw)) eqn:Hf; [|discriminate].
    destruct (le (StringToNumber raw) (S754_zero false)) eqn:Hl;
      [discriminate|].
    injection H as <-. split; [exact Hf|].
    destruct (StringToNumber raw) as [s|s| |s m e]; try discriminate.
    unfold le, gt, SFleb, SFltb in *. cbn in *.
    destruct s; [discriminate|reflexivity].
  - intro H. unfold StringToNumber, trim.
    rewrite (trimStart_all_space raw H). reflexivity.
Qed.

Lemma parsePageId_accepts_witness :
  isFinite (of_Z 12) = true /\ gt (of_Z 12) (S754_zero false) = true.
Proof.
  apply (proj1 (parsePageId_accepts (js " 12 "))).
  vm_compute. reflexivity.
Defined.

(** ** Keys written in decimal *)

Lemma js_cons_ascii (c : ascii) (s : string) :
  (N_of_ascii c < 128)%N ->
  js (String c s) = N_of_ascii c :: js s.
Proof.
  intro H. unfold js. cbn [list_ascii_of_string map utf16_of_utf8].
  apply N.ltb_lt in H. now rewrite H.
Qed.

Lemma digits_of_uint_spec (d : Decimal.uint) :
  Forall (fun c => is_digit c = true) (js (NilEmpty.string_of_uint d))
  /\ forall acc,
       fold_left (fun acc c => (acc * 10 + digit_val c)%N)
                 (js (NilEmpty.string_of_uint d)) acc
       = N.of_nat (Nat.of_uint_acc d (N.to_nat acc)).
Proof.
  induction d as [|d [IH1 IH2]|d [IH1 IH2]|d [IH1 IH2]|d [IH1 IH2]
                  |d [IH1 IH2]|d [IH1 IH2]|d [IH1 IH2]|d [IH1 IH2]
                  |d [IH1 IH2]|d [IH1 IH2]];
    cbn [NilEmpty.string_of_uint Nat.of_uint_acc].
  1:{ change (js EmptyString) with (@nil char). split; [constructor|].
      intro acc. cbn [fold_left]. now rewrite N2Nat.id. }
  all: rewrite js_cons_ascii by (vm_compute; reflexivity);
    split; [constructor; [reflexivity|exact IH1]|];
    intro acc; cbn [fold_left]; rewrite IH2; f_equal;
    rewrite Nat.tail_mul_spec;
    match goal with
    | |- context [digit_val ?c] =>
        let v := eval vm_compute in (digit_val c) in
        change (digit_val c) with v
    end;
    rewrite N2Nat.inj_add, N2Nat.inj_mul;
    change (N.to_nat 10) with 10; f_equal; lia.
Qed.

Lemma digits_of_nat_value n :
  digits_val 10 (digits_of_nat n) = N.of_nat n.
Proof.
  unfold digits_val, digits_of_nat.
  rewrite (proj2 (digits_of_uint_spec (Nat.to_uint n)) 0%N).
  change (N.to_nat 0) with 0. fold (Nat.of_uint (Nat.to_uint n)).
  now rewrite DecimalNat.Unsigned.of_to.
Qed.

Lemma digits_of_nat_digits n :
  Forall (fun c => is_digit c = true) (digits_of_nat n).
Proof. apply digits_of_uint_spec. Qed.

Lemma is_digit_not_space c : is_digit c = true -> is_space c = false.
Proof.
  unfold is_digit. intro H. apply andb_true_iff in H. destruct H as [A B].
  apply N.leb_le in A, B. unfold is_space.
  replace (c <=? 13)%N with false by (symmetry; apply N.leb_gt; lia).
  replace (8192 <=? c)%N with false by (symmetry; apply N.leb_gt; lia).
  repeat match goal with
         | |- context [(c =? ?k)%N] =>
             replace (c =? k)%N with false by (symmetry; apply N.eqb_neq; lia)
         end.
  now rewrite !andb_false_r.
Qed.

Lemma trimStart_nonspace c s :
  is_space c = false -> trimStart (c :: s) = c :: s.
Proof. intro H. cbn [trimStart]. now rewrite H. Qed.

Lemma trim_digits s :
  Forall (fun c => is_digit c = true) s -> trim s = s.
Proof.
  intro H. unfold trim, trimEnd.
  assert (E : forall l, Forall (fun c => is_digit c = true) l ->
                        trimStart l = l).
  { intros [|c l] Hl; [reflexivity|]. inversion Hl; subst.
    apply trimStart_nonspace. now apply is_digit_not_space. }
  rewrite (E s H), E by (now apply Forall_rev).
  apply rev_involutive.
Qed.

Lemma span_all (p : char -> bool) s :
  Forall (fun c => p c = true) s -> span p s = (s, []).
Proof.
  induction s as [|c t IH]; intro H; [reflexivity|].
  inversion H as [|? ? Hc Ht]; subst. cbn [span]. now rewrite Hc, IH.
Qed.

(** [Number] of a text of decimal digits that is not zero. *)
Lemma StringToNumber_digits s p :
  Forall (fun c => is_digit c = true) s ->
  digits_val 10 s = Npos p ->
  StringToNumber s = of_Z (Zpos p).
Proof.
  intros Hd Hv. unfold StringToNumber. rewrite (trim_digits s Hd).
  destruct s as [|c u]; [discriminate|].
  rewrite parse_nondecimal_price_chars.
  2:{ revert Hd. apply Forall_impl. intros a Ha.
      unfold is_price_char. now rewrite Ha. }
  inversion Hd as [|? ? Hc _]; subst.
  assert (Hc' : (48 <= c <= 57)%N).
  { unfold is_digit in Hc. apply andb_true_iff in Hc. destruct Hc as [A B].
    apply N.leb_le in A, B. lia. }
  rewrite no_sign_split by lia.
  replace (str_eqb (c :: u) (js "Infinity")) with false.
  2:{ symmetry. apply str_eqb_neq. intro E.
      change (js "Infinity") with (73%N :: js "nfinity") in E.
      injection E as -> _. lia. }
  unfold parse_decimal. rewrite (span_all is_digit (c :: u) Hd).
  cbn [parse_exponent List.length]. rewrite app_nil_r, Hv.
  unfold round_decimal, of_Z. cbn [Z.of_nat Z.sub].
  now rewrite Z.mul_1_r.
Qed.

(** ** Integers as Numbers *)

Lemma digits2_pos_bounds p :
  (2 ^ (Zpos (digits2_pos p) - 1) <= Zpos p < 2 ^ Zpos (digits2_pos p))%Z.
Proof.
  induction p as [p IH|p IH|]; cbn [digits2_pos].
  - rewrite Pos2Z.inj_succ.
    replace (Z.succ (Zpos (digits2_pos p)) - 1)%Z
      with (Z.succ (Zpos (digits2_pos p) - 1)) by lia.
    rewrite !Z.pow_succ_r by lia. lia.
  - rewrite Pos2Z.inj_succ.
    replace (Z.succ (Zpos (digits2_pos p)) - 1)%Z
      with (Z.succ (Zpos (digits2_pos p) - 1)) by lia.
    rewrite !Z.pow_succ_r by lia. lia.
  - cbn. lia.
Qed.

Lemma digits2_pos_shift p k :
  digits2_pos (Pos.iter xO p k) = (digits2_pos p + k)%positive.
Proof.
  induction k as [|k IH] using Pos.peano_ind.
  - cbn. lia.
  - rewrite Pos.iter_succ. cbn [digits2_pos]. rewrite IH. lia.
Qed.

Lemma Zpos_shift p k :
  Zpos (Pos.iter xO p k) = (Zpos p * 2 ^ Zpos k)%Z.
Proof.
  change (Pos.iter xO p k) with (shift_pos k p).
  rewrite shift_pos_correct. change (Z.pow_pos 2 k) with (2 ^ Zpos k)%Z. lia.
Qed.

Lemma binary_round_aux_exact sx m e :
  digits2_pos m = 53%positive -> (-1074 <= e <= 971)%Z ->
  binary_round_aux prec emax sx (Zpos m) e loc_Exact = S754_finite sx m e.
Proof.
  intros Hd He.
  assert (Hs : shr_fexp prec emax (Zpos m) e loc_Exact
               = ({| shr_m := Zpos m; shr_r := false; shr_s := false |}, e)).
  { unfold shr_fexp, fexp, emin, prec, emax. cbn [Zdigits2]. rewrite Hd.
    replace (Z.max (53 + e - 53) (3 - 1024 - 53) - e)%Z with 0%Z by lia.
    reflexivity. }
  unfold binary_round_aux. rewrite Hs.
  cbn [shr_m loc_of_shr_record shr_r shr_s round_nearest_even].
  rewrite Hs. cbn [shr_m].
  replace (e <=? emax - prec)%Z with true
    by (symmetry; apply Z.leb_le; unfold emax, prec; lia).
  reflexivity.
Qed.

(** The Number of a positive integer below 2^53 stands for that
    integer. *)
Lemma of_Z_small p :
  (Zpos p < 2 ^ 53)%Z ->
  exists m e, of_Z (Zpos p) = S754_finite false m e
              /\ to_Z (S754_finite false m e) = Some (Zpos p).
Proof.
  intro Hp. pose proof (digits2_pos_bounds p) as [Hlo _].
  assert (Hd : (Zpos (digits2_pos p) <= 53)%Z).
  { destruct (Z.le_gt_cases (Zpos (digits2_pos p)) 53) as [H|H]; [exact H|].
    assert (2 ^ 53 <= 2 ^ (Zpos (digits2_pos p) - 1))%Z
      by (apply Z.pow_le_mono_r; lia).
    lia. }
  unfold of_Z, binary_normalize, binary_round, shl_align.
  assert (Ef : fexp prec emax (Zpos (digits2_pos p) + 0)
               = (Zpos (digits2_pos p) - 53)%Z).
  { unfold fexp, emin, prec, emax. lia. }
  rewrite Ef.
  destruct (Zpos (digits2_pos p) - 53 - 0)%Z as [|k|k] eqn:Ek; [|lia|].
  - assert (E53 : digits2_pos p = 53%positive) by lia.
    exists p, 0%Z. split.
    + apply binary_round_aux_exact; [exact E53|lia].
    + cbn [to_Z option_map]. f_equal. lia.
  - exists (Pos.iter xO p k), (Zpos (digits2_pos p) - 53)%Z. split.
    + apply binary_round_aux_exact; [rewrite digits2_pos_shift|]; lia.
    + replace (Zpos (digits2_pos p) - 53)%Z with (Zneg k) by lia.
      cbn [to_Z option_map]. rewrite Zpos_shift.
      rewrite Z.mod_mul by (apply Z.pow_nonzero; lia).
      rewrite Z.eqb_refl. cbn [option_map].
      rewrite Z.div_mul by (apply Z.pow_nonzero; lia). reflexivity.
Qed.

Lemma parsePageId_decimal n :
  (0 < Z.of_nat n < 2 ^ 53)%Z ->
  exists id, parsePageId (digits_of_nat n) = Some id
             /\ Db.key id = Some (Z.of_nat n).
Proof.
  intro Hn. destruct n as [|n]; [lia|].
  assert (Hv : digits_val 10 (digits_of_nat (S n))
               = Npos (Pos.of_succ_nat n)).
  { rewrite digits_of_nat_value. reflexivity. }
  assert (Hz : Z.of_nat (S n) = Zpos (Pos.of_succ_nat n)) by reflexivity.
  rewrite Hz in *.
  destruct (of_Z_small _ (proj2 Hn)) as [m [e [Eo Et]]].
  exists (S754_finite false m e). unfold parsePageId. cbv zeta.
  rewrite (StringToNumber_digits _ _ (digits_of_nat_digits (S n)) Hv), Eo.
  split; [reflexivity|exact Et].
Qed.

(** [parsePageId] with [handleRunSnapshot], the caller that writes the
    key of a page in decimal into the address of the request: for a key
    from 1 to 2^53 - 1 the request designates the page with that key, if
    there is one. *)
Theorem page_of_request_decimal (n : nat) (db : Db.t) :
  (0 < Z.of_nat n < 2 ^ 53)%Z ->
  page_of_request (digits_of_nat n) db
  = option_map (fun p => (Z.of_nat n, p))
               (Db.findMonitoredPage db (Z.of_nat n)).
Proof.
  intro Hn. destruct (parsePageId_decimal n Hn) as [id [Hid Hk]].
  unfold page_of_request. rewrite Hid, Hk.
  destruct (Db.findMonitoredPage db (Z.of_nat n)); reflexivity.
Qed.

Lemma page_of_request_decimal_witness :
  page_of_request (digits_of_nat 1) Example.db1
  = option_map (fun p => (Z.of_nat 1, p))
               (Db.findMonitoredPage Example.db1 (Z.of_nat 1)).
Proof.
  apply (page_of_request_decimal 1 Example.db1). cbn. lia.
Defined.
